(** * podcast-transcribe: a shallow embedding of the pipeline scripts

    The repository is a set of TypeScript scripts (download-metadata.ts,
    transcribe.ts, label-speakers.ts, index.ts) that fetch podcast
    episodes, transcribe them, label the speakers and store validated
    results.  This file embeds the parts of those scripts that decide the
    documented pipeline properties and proves or refutes each property.

    Conventions of the embedding:
    - a JavaScript string is a [string], its characters being the code
      units below 256;
    - a value of type [any] obtained from [JSON.parse] is a [json];
    - a JavaScript object used as a dictionary is a [gmap] of its own
      properties; where the code reads such an object under a key taken
      from the data, the properties inherited from [Object.prototype]
      are taken into account;
    - a call that can throw returns an [outcome];
    - the file system is a tree of [node]s, a directory being the list of
      its entries in [readdirSync] order;
    - remote services (transcription, labeling model, database
      constraints) are functions or data given to the code. *)

From Stdlib Require Import String Ascii List ZArith QArith Qround Lia Bool.
From Stdlib Require Import DecimalString.
From stdpp Require Import base option list gmap strings.

Set Warnings "-register-all".
Close Scope Q_scope.
Local Open Scope Z_scope.
Local Open Scope nat_scope.

(* ===================================================================== *)
(** * Part I: definitions                                                 *)
(* ===================================================================== *)

(** ** The JavaScript fragment the scripts rely on *)

Module JS.

(** *** Results of calls that may throw *)

Inductive outcome (A : Type) : Type :=
| Returned (a : A)
| Thrown (error : string).
Arguments Returned {A} a.
Arguments Thrown {A} error.

Definition bind {A B} (m : outcome A) (k : A -> outcome B) : outcome B :=
  match m with
  | Returned a => k a
  | Thrown e => Thrown e
  end.

(** *** Characters *)

Definition code (c : ascii) : nat := nat_of_ascii c.

Definition is_digit (c : ascii) : bool :=
  (48 <=? code c) && (code c <=? 57).

Definition is_lower (c : ascii) : bool :=
  (97 <=? code c) && (code c <=? 122).

Definition is_upper (c : ascii) : bool :=
  (65 <=? code c) && (code c <=? 90).

Definition is_alnum (c : ascii) : bool :=
  is_lower c || is_upper c || is_digit c.

(** The capital letters of the Latin-1 supplement, U+00C0 to U+00DE
    without the multiplication sign. *)
Definition is_upper_latin1 (c : ascii) : bool :=
  (192 <=? code c) && (code c <=? 222) && negb (code c =? 215).

(** [String.prototype.toLowerCase] on one code unit below 256. *)
Definition lower_char (c : ascii) : ascii :=
  if is_upper c || is_upper_latin1 c then ascii_of_nat (code c + 32)
  else c.

(** *** Strings *)

Fixpoint map_string (f : ascii -> ascii) (s : string) : string :=
  match s with
  | EmptyString => EmptyString
  | String c s' => String (f c) (map_string f s')
  end.

Definition toLowerCase (s : string) : string := map_string lower_char s.

(** [s.endsWith(suffix)] *)
Fixpoint endsWith (s suffix : string) : bool :=
  if String.eqb s suffix then true
  else match s with
       | EmptyString => false
       | String _ s' => endsWith s' suffix
       end.

(** [strip_prefix p s] is [Some rest] when [s = p ++ rest]. *)
Fixpoint strip_prefix (p s : string) : option string :=
  match p, s with
  | EmptyString, _ => Some s
  | String a p', String b s' =>
      if Ascii.eqb a b then strip_prefix p' s' else None
  | String _ _, EmptyString => None
  end.

(** [s.replace(pattern, replacement)] for a string pattern: only the
    first occurrence is replaced.  The replacements used by the scripts
    contain no [$], so no substitution pattern is involved. *)
Fixpoint replace (s pattern replacement : string) : string :=
  match strip_prefix pattern s with
  | Some rest => replacement +:+ rest
  | None =>
      match s with
      | EmptyString => EmptyString
      | String c s' => String c (replace s' pattern replacement)
      end
  end.

(** [s.replace(/[class]/g, replacement)]: every code unit in the class
    is replaced. *)
Fixpoint replace_class (cls : ascii -> bool) (replacement : string)
         (s : string) : string :=
  match s with
  | EmptyString => EmptyString
  | String c s' =>
      if cls c then replacement +:+ replace_class cls replacement s'
      else String c (replace_class cls replacement s')
  end.

(** [s.split(sep)] for a one-character separator. *)
Fixpoint split (sep : ascii) (s : string) : list string :=
  match s with
  | EmptyString => [EmptyString]
  | String c s' =>
      if Ascii.eqb c sep then EmptyString :: split sep s'
      else match split sep s' with
           | [] => [String c EmptyString]
           | piece :: pieces => String c piece :: pieces
           end
  end.

(** Index of the last ["."] of [s], if any. *)
Fixpoint last_dot (s : string) : option nat :=
  match s with
  | EmptyString => None
  | String c s' =>
      match last_dot s' with
      | Some i => Some (S i)
      | None => if Ascii.eqb c "."%char then Some 0 else None
      end
  end.

(** [path.parse(base).name] for a path without directory part: the
    base name without its extension.  There is no extension when there
    is no dot, when the only dot is the first character, or when the
    name is [".."]. *)
Definition parse_name (base : string) : string :=
  match last_dot base with
  | None => base
  | Some 0 => base
  | Some i => if String.eqb base ".." then base else String.substring 0 i base
  end.

(** Decimal rendering of an array index, as in a template literal. *)
Definition show_nat (n : nat) : string :=
  DecimalString.NilZero.string_of_uint (Nat.to_uint n).

(** *** Numbers *)

(** A JavaScript number: a finite value (every finite double is a
    rational), an infinity, or NaN. *)
Inductive number : Type :=
| Finite (q : Q)
| Infinite (negative : bool)
| NaN.

Definition number_is_zero (n : number) : bool :=
  match n with
  | Finite q => Qeq_bool q 0
  | _ => false
  end.

(** [Number.isInteger] *)
Definition number_is_integer (n : number) : bool :=
  match n with
  | Finite q => Qeq_bool q (inject_Z (Qfloor q))
  | _ => false
  end.

(** [a >= b]; any comparison with NaN is false. *)
Definition number_ge (a b : number) : bool :=
  match a, b with
  | NaN, _ | _, NaN => false
  | Finite x, Finite y => Qle_bool y x
  | Infinite false, _ => true
  | Infinite true, Infinite true => true
  | Infinite true, _ => false
  | Finite _, Infinite negative => negative
  end.

Definition digit_value (c : ascii) : Z := Z.of_nat (code c - 48).

Fixpoint digits_value (acc : Z) (s : string) : Z :=
  match s with
  | EmptyString => acc
  | String c s' => digits_value (10 * acc + digit_value c) s'
  end.

Fixpoint all_digits (s : string) : bool :=
  match s with
  | EmptyString => true
  | String c s' => is_digit c && all_digits s'
  end.

(** [Number(s)] for the strings the validator converts: the pieces of
    a string that matched [/^\d+:\d{2}$/], which are runs of decimal
    digits.  The empty string converts to 0; the other numeric literal
    forms (sign, fraction, exponent, radix prefix, surrounding blanks)
    do not reach this call and are mapped to NaN here. *)
Definition Number_of_string (s : string) : number :=
  if all_digits s then Finite (inject_Z (digits_value 0%Z s)) else NaN.

(** *** JSON values, the inhabitants of [any] after [JSON.parse] *)

Inductive json : Type :=
| JNull
| JBool (b : bool)
| JNum (n : number)
| JStr (s : string)
| JArr (items : list json)
| JObj (props : list (string * json)).

(** A possibly absent value: [None] is [undefined]. *)
Abbreviation value := (option json).

Fixpoint assoc (k : string) (props : list (string * json)) : option json :=
  match props with
  | [] => None
  | (k', v) :: rest => if String.eqb k k' then Some v else assoc k rest
  end.

(** [v.k] for the property names the scripts read ([id], [title],
    [speaker], [enclosureUrl], ...): an own property of an object;
    arrays and primitives have no such property. *)
Definition get (v : json) (k : string) : value :=
  match v with
  | JObj props => assoc k props
  | _ => None
  end.

(** [typeof v] *)
Definition typeof (v : value) : string :=
  match v with
  | None => "undefined"
  | Some JNull => "object"
  | Some (JBool _) => "boolean"
  | Some (JNum _) => "number"
  | Some (JStr _) => "string"
  | Some (JArr _) => "object"
  | Some (JObj _) => "object"
  end.

(** [ToBoolean] *)
Definition truthy (v : value) : bool :=
  match v with
  | None => false
  | Some JNull => false
  | Some (JBool b) => b
  | Some (JNum n) =>
      match n with
      | NaN => false
      | _ => negb (number_is_zero n)
      end
  | Some (JStr s) => negb (String.eqb s "")
  | Some (JArr _) => true
  | Some (JObj _) => true
  end.

Fixpoint join (sep : string) (pieces : list string) : string :=
  match pieces with
  | [] => ""
  | [p] => p
  | p :: rest => p +:+ sep +:+ join sep rest
  end.

Section ToString.
(** [Number.prototype.toString], shortest round-trip decimal output,
    is taken as given. *)
Variable Number_toString : number -> string.

(** [ToString(v)] on a JSON value.  An array is joined with [","],
    [null] elements giving the empty string.  A plain object gives
    ["[object Object]"], unless it has an own [toString] property:
    values from [JSON.parse] are never callable, so the conversion
    to a primitive fails with a TypeError. *)
Fixpoint ToString_json (v : json) : outcome string :=
  match v with
  | JNull => Returned "null"
  | JBool true => Returned "true"
  | JBool false => Returned "false"
  | JNum n => Returned (Number_toString n)
  | JStr s => Returned s
  | JArr items =>
      bind
        ((fix each (l : list json) : outcome (list string) :=
            match l with
            | [] => Returned []
            | JNull :: l' =>
                bind (each l') (fun ps => Returned ("" :: ps))
            | x :: l' =>
                bind (ToString_json x) (fun p =>
                bind (each l') (fun ps => Returned (p :: ps)))
            end) items)
        (fun pieces => Returned (join "," pieces))
  | JObj props =>
      match assoc "toString" props with
      | Some _ => Thrown "TypeError: Cannot convert object to primitive value"
      | None => Returned "[object Object]"
      end
  end.

Definition ToString (v : value) : outcome string :=
  match v with
  | None => Returned "undefined"
  | Some j => ToString_json j
  end.
End ToString.

(** *** Regular expressions *)

Inductive regex : Type :=
| Fail
| Eps
| Class (p : ascii -> bool)
| Seq (r1 r2 : regex)
| Alt (r1 r2 : regex)
| Star (r : regex).

Definition Plus (r : regex) : regex := Seq r (Star r).

Fixpoint nullable (r : regex) : bool :=
  match r with
  | Fail => false
  | Eps => true
  | Class _ => false
  | Seq r1 r2 => nullable r1 && nullable r2
  | Alt r1 r2 => nullable r1 || nullable r2
  | Star _ => true
  end.

Fixpoint deriv (c : ascii) (r : regex) : regex :=
  match r with
  | Fail => Fail
  | Eps => Fail
  | Class p => if p c then Eps else Fail
  | Seq r1 r2 =>
      if nullable r1 then Alt (Seq (deriv c r1) r2) (deriv c r2)
      else Seq (deriv c r1) r2
  | Alt r1 r2 => Alt (deriv c r1) (deriv c r2)
  | Star r1 => Seq (deriv c r1) (Star r1)
  end.

(** [/^r$/.test(s)]: the whole string is matched. *)
Fixpoint matches (r : regex) (s : string) : bool :=
  match s with
  | EmptyString => nullable r
  | String c s' => matches (deriv c r) s'
  end.

(** The strings a regular expression denotes. *)
Inductive lang : regex -> string -> Prop :=
| lang_eps : lang Eps ""
| lang_class (p : ascii -> bool) (c : ascii) :
    p c = true -> lang (Class p) (String c "")
| lang_seq (r1 r2 : regex) (s1 s2 : string) :
    lang r1 s1 -> lang r2 s2 -> lang (Seq r1 r2) (s1 +:+ s2)
| lang_alt_l (r1 r2 : regex) (s : string) :
    lang r1 s -> lang (Alt r1 r2) s
| lang_alt_r (r1 r2 : regex) (s : string) :
    lang r2 s -> lang (Alt r1 r2) s
| lang_star_nil (r : regex) : lang (Star r) ""
| lang_star_cons (r : regex) (s1 s2 : string) :
    lang r s1 -> lang (Star r) s2 -> lang (Star r) (s1 +:+ s2).

(** *** The file system *)

(** What a file holds, as far as the scripts can tell: a JSON document
    (what [JSON.parse] returns for its text) or text that
    [JSON.parse] rejects. *)
Inductive content : Type :=
| Document (v : json)
| Text (t : string).

Inductive node : Type :=
| File (name : string) (c : content)
| Dir (name : string) (entries : list node).

Definition node_name (n : node) : string :=
  match n with
  | File name _ => name
  | Dir name _ => name
  end.

(** [fs.statSync(p).isDirectory()] *)
Definition isDirectory (n : node) : bool :=
  match n with
  | File _ _ => false
  | Dir _ _ => true
  end.

(** The entry called [name] in a directory listing. *)
Fixpoint entry (entries : list node) (name : string) : option node :=
  match entries with
  | [] => None
  | n :: rest =>
      if String.eqb (node_name n) name then Some n else entry rest name
  end.

(** [fs.existsSync(path.join(dir, name))] *)
Definition existsSync (entries : list node) (name : string) : bool :=
  match entry entries name with
  | Some _ => true
  | None => false
  end.

(** [path.join(dir, name)] for a directory path and an entry name. *)
Definition path_join (dir name : string) : string :=
  dir +:+ "/" +:+ name.

(** The first element on which [f] answers, as a [for] loop that
    returns from inside its body finds it. *)
Definition first_some {A B : Type} (f : A -> option B)
  : list A -> option B :=
  fix scan (l : list A) : option B :=
    match l with
    | [] => None
    | x :: rest =>
        match f x with
        | Some r => Some r
        | None => scan rest
        end
    end.

End JS.

(** ** download-metadata.ts: directory naming *)

Module DownloadMetadata.
Import JS.

(** [feedTitle.replace(/[^a-z0-9]/gi, "_").toLowerCase()], the first
    statement of [downloadEpisode] and of [saveMetadata]. *)
Definition sanitizedTitle (feedTitle : string) : string :=
  toLowerCase (replace_class (fun c => negb (is_alnum c)) "_" feedTitle).

End DownloadMetadata.

(** ** label-speakers.ts: the labeling stage *)

Module LabelSpeakers.
Import JS.

Record TranscriptSegment : Type := {
  speaker : string;
  timestampFrom : string;
  timestampTo : string;
  content : string
}.

(** The names of the properties every object inherits from
    [Object.prototype]: its methods and the accessor [__proto__].  Read
    through an object that has no own property of that name, each of
    them gives a function, [__proto__] gives the prototype itself; all
    of these values are truthy. *)
Definition Object_prototype : list string :=
  [ "constructor"; "hasOwnProperty"; "isPrototypeOf";
    "propertyIsEnumerable"; "toLocaleString"; "toString"; "valueOf";
    "__defineGetter__"; "__defineSetter__"; "__lookupGetter__";
    "__lookupSetter__"; "__proto__" ].

Definition inherited (key : string) : bool :=
  bool_decide (key ∈ Object_prototype).

(** What [main] puts into [labeledSpeaker]: a string, or the value the
    mapping inherits under the key. *)
Inductive label : Type :=
| Label (name : string)
| Inherited (key : string).

(** [interface LabeledTranscriptSegment extends TranscriptSegment];
    [labeledSpeaker] is declared a string and holds what [main]
    computes for it. *)
Module Labeled.
Record t : Type := {
  speaker : string;
  timestampFrom : string;
  timestampTo : string;
  content : string;
  labeledSpeaker : label
}.
End Labeled.
Abbreviation LabeledTranscriptSegment := Labeled.t.

(** [interface SpeakerMapping { [key: string]: string }]: the own
    properties of the object.  The object is made by [JSON.parse] or
    by [Object.fromEntries], so its prototype is [Object.prototype]. *)
Abbreviation SpeakerMapping := (gmap string string).

(** [loadEpisodeMetadata(directory, metadataFile)]: the value returned
    ([JNull] for [null]) and the lines written to the console.
    [files] is the listing of [directory]. *)
Definition loadEpisodeMetadata (directory : string) (files : list node)
           (metadataFile : string) : json * list string :=
  let metadataPath := path_join directory metadataFile in
  match entry files metadataFile with
  | None => (JNull, ["No metadata found at: " +:+ metadataPath])
  | Some (File _ (Document v)) => (v, [])
  | Some (File _ (Text _)) =>
      (JNull, ["Error loading episode metadata: SyntaxError"])
  | Some (Dir _ _) =>
      (JNull, ["Error loading episode metadata: EISDIR"])
  end.

(** [loadTranscript(directory, transcriptFile)] *)
Definition loadTranscript (directory : string) (files : list node)
           (transcriptFile : string) : json * list string :=
  let transcriptPath := path_join directory transcriptFile in
  match entry files transcriptFile with
  | None => (JArr [], ["No transcript found at: " +:+ transcriptPath])
  | Some (File _ (Document v)) => (v, [])
  | Some (File _ (Text _)) =>
      (JArr [], ["Error loading transcript: SyntaxError"])
  | Some (Dir _ _) =>
      (JArr [], ["Error loading transcript: EISDIR"])
  end.

(** [[...new Set(xs)]]: the distinct elements in order of first
    occurrence. *)
Fixpoint distinct (seen : list string) (xs : list string) : list string :=
  match xs with
  | [] => []
  | x :: rest =>
      if bool_decide (x ∈ seen) then distinct seen rest
      else x :: distinct (x :: seen) rest
  end.

Definition uniqueSpeakers (transcript : list TranscriptSegment)
  : list string :=
  distinct [] (map speaker transcript).

(** What the call to the labeling model amounts to inside the [try]
    block of [identifySpeakers]. *)
Inductive model_response : Type :=
| RequestFailed                     (* [generateContent] rejects *)
| NoText                            (* [response.text] is empty *)
| NotJson                           (* [JSON.parse] throws *)
| Parsed (mapping : SpeakerMapping) (* [JSON.parse(response.text)] *).

(** [!speakerMapping[speaker]]: an own property is read first, then
    the prototype, whose properties are all truthy. *)
Definition unresolved (m : SpeakerMapping) (speaker : string) : bool :=
  match m !! speaker with
  | None => negb (inherited speaker)
  | Some label => String.eqb label ""
  end.

(** [Object.fromEntries(pairs)] *)
Definition fromEntries (pairs : list (string * string)) : SpeakerMapping :=
  fold_left (fun m kv => <[kv.1 := kv.2]> m) pairs ∅.

(** [identifySpeakers(transcript, metadata)]; the metadata only enters
    the prompt, to which the model answers with [response]. *)
Definition identifySpeakers (transcript : list TranscriptSegment)
           (response : model_response) : SpeakerMapping :=
  let uniqueSpeakers := uniqueSpeakers transcript in
  match response with
  | Parsed speakerMapping =>
      fold_left
        (fun m speaker =>
           if unresolved m speaker
           then <[speaker := "Unknown Speaker"]> m else m)
        uniqueSpeakers speakerMapping
  | _ =>
      fromEntries
        (map (fun speaker => (speaker, "Unknown Speaker")) uniqueSpeakers)
  end.

(** [speakerMapping[segment.speaker] || "Unknown Speaker"] *)
Definition label_of (speakerMapping : SpeakerMapping) (speaker : string)
  : label :=
  match speakerMapping !! speaker with
  | Some name =>
      if String.eqb name "" then Label "Unknown Speaker" else Label name
  | None =>
      if inherited speaker then Inherited speaker
      else Label "Unknown Speaker"
  end.

(** The [transcript.map] of [main]: each segment is spread into a new
    object with one more field. *)
Definition labelTranscript (transcript : list TranscriptSegment)
           (speakerMapping : SpeakerMapping)
  : list LabeledTranscriptSegment :=
  map (fun segment =>
         {| Labeled.speaker := speaker segment;
            Labeled.timestampFrom := timestampFrom segment;
            Labeled.timestampTo := timestampTo segment;
            Labeled.content := content segment;
            Labeled.labeledSpeaker :=
              label_of speakerMapping (speaker segment) |})
      transcript.

(** The file name [saveLabeledTranscript] writes to. *)
Definition labeledTranscriptName (transcriptFile : string) : string :=
  parse_name transcriptFile +:+ "_labeled.json".

Record found : Type := {
  transcriptFile : string;
  directory : string
}.

(** One iteration of the loop of [findTranscript(dir)], on the entry
    [n] of the listing [files]. *)
Fixpoint findTranscript_entry (dir : string) (files : list node)
         (n : node) {struct n} : option found :=
  match n with
  | Dir name sub =>
      let fullPath := path_join dir name in
      first_some (findTranscript_entry fullPath sub) sub
  | File file _ =>
      if endsWith file "_transcript.json"
         && negb (endsWith file "_labeled.json")
      then
        let labeledFile :=
          replace file "_transcript.json" "_transcript_labeled.json" in
        if negb (existsSync files labeledFile)
        then Some {| transcriptFile := file; directory := dir |}
        else None
      else None
  end.

Definition findTranscript (dir : string) (files : list node)
  : option found :=
  first_some (findTranscript_entry dir files) files.

(** [findTranscriptFile(dataDir)], [files] being the listing of
    [dataDir]. *)
Definition findTranscriptFile (dataDir : string) (files : list node)
  : option found :=
  findTranscript dataDir files.

End LabelSpeakers.

(** ** transcribe.ts: the transcription stage *)

Module Transcribe.
Import JS.

(** [fs.writeFileSync(path.join(dir, name), text)]: the file is
    replaced, or created at the end of the listing; writing to the
    name of a directory fails. *)
Fixpoint writeFileSync (files : list node) (name : string) (c : content)
  : outcome (list node) :=
  match files with
  | [] => Returned [File name c]
  | n :: rest =>
      if String.eqb (node_name n) name then
        match n with
        | File _ _ => Returned (File name c :: rest)
        | Dir _ _ => Thrown "EISDIR: illegal operation on a directory"
        end
      else
        bind (writeFileSync rest name c)
             (fun rest' => Returned (n :: rest'))
  end.

(** The budget read from the command line.  [parseInt] first skips
    white space and line terminators: among the code units below 256
    these are 9 to 13, the space and the no-break space (160). *)
Fixpoint skip_blanks (s : string) : string :=
  match s with
  | String c s' =>
      if Ascii.is_space c || (code c =? 160) then skip_blanks s' else s
  | EmptyString => s
  end.

Definition digit_of (radix : Z) (c : ascii) : option Z :=
  let d :=
    if is_digit c then Some (Z.of_nat (code c - 48))
    else if is_lower c then Some (Z.of_nat (code c - 87))
    else if is_upper c then Some (Z.of_nat (code c - 55))
    else None in
  match d with
  | Some z => if (z <? radix)%Z then Some z else None
  | None => None
  end.

(** The longest prefix of digits of the radix, as a number; [None]
    when the prefix is empty. *)
Fixpoint leading_digits (radix : Z) (acc : option Z) (s : string)
  : option Z :=
  match s with
  | EmptyString => acc
  | String c s' =>
      match digit_of radix c with
      | Some d =>
          leading_digits radix
            (Some (radix * default 0%Z acc + d)%Z) s'
      | None => acc
      end
  end.

(** [parseInt(s)] without a radix argument; [None] is NaN.  Leading
    blanks are skipped, a sign and a [0x] prefix are honoured, and the
    digits are read up to the first other character.  The rounding of
    integers beyond 2^53 is not modelled. *)
Definition parseInt (arg : option string) : option Z :=
  let s := skip_blanks (default "undefined" arg) in
  let '(negative, s) :=
    match s with
    | String "-"%char s' => (true, s')
    | String "+"%char s' => (false, s')
    | _ => (false, s)
    end in
  let '(radix, s) :=
    match s with
    | String "0"%char (String "x"%char s') => (16%Z, s')
    | String "0"%char (String "X"%char s') => (16%Z, s')
    | _ => (10%Z, s)
    end in
  match leading_digits radix None s with
  | Some z => Some (if negative then (- z)%Z else z)
  | None => None
  end.

(** [parseInt(process.argv[2]) || 1] *)
Definition numPodcasts (argv2 : option string) : Z :=
  match parseInt argv2 with
  | Some n => if (n =? 0)%Z then 1%Z else n
  | None => 1%Z
  end.

(** [loadEpisodeMetadata(directory, metadataFile)], the value returned
    ([JNull] for [null]). *)
Definition loadEpisodeMetadata (files : list node) (metadataFile : string)
  : json :=
  match entry files metadataFile with
  | Some (File _ (Document v)) => v
  | _ => JNull
  end.

Definition transcriptName (metadataFile : string) : string :=
  parse_name metadataFile +:+ "_transcript.json".

Definition hasExistingTranscript (files : list node)
           (metadataFile : string) : bool :=
  existsSync files (transcriptName metadataFile).

Definition saveTranscript (files : list node) (metadataFile : string)
           (transcript : json) : outcome (list node) :=
  writeFileSync files (transcriptName metadataFile) (Document transcript).

(** The [filter] of [processPodcastDirectory]. *)
Definition isMetadataFile (file : string) : bool :=
  endsWith file ".json"
  && negb (endsWith file "_transcript.json")
  && negb (endsWith file "_transcript_labeled.json").

(** What one call of [processPodcastDirectory] did: its return value,
    the listing afterwards, and the calls of [transcribeAudio] it
    made, each with the metadata file it was made for. *)
Record processing : Type := {
  processed : bool;
  files_after : list node;
  transcribed : list (string * value)
}.

Section Stage.
Variable Number_toString : number -> string.
(** [JSON.stringify(v, null, 2)] *)
Variable JSON_stringify : json -> string.
(** [transcribeAudio(audioUrl)]: the call to the remote
    transcription model and the conversion of its segments; it
    returns the transcript or throws. *)
Variable transcribeAudio : value -> outcome json.

Definition text_of (c : content) : string :=
  match c with
  | Document v => JSON_stringify v
  | Text t => t
  end.

(** [fs.appendFileSync(path.join(dir, name), line)] *)
Fixpoint appendFileSync (files : list node) (name line : string)
  : outcome (list node) :=
  match files with
  | [] => Returned [File name (Text line)]
  | n :: rest =>
      if String.eqb (node_name n) name then
        match n with
        | File _ c => Returned (File name (Text (text_of c +:+ line)) :: rest)
        | Dir _ _ => Thrown "EISDIR: illegal operation on a directory"
        end
      else
        bind (appendFileSync rest name line)
             (fun rest' => Returned (n :: rest'))
  end.

(** The [for] loop of [processPodcastDirectory] over the metadata
    files listed at its start. *)
Fixpoint process_files (metadataFiles : list string) (files : list node)
         (calls : list (string * value)) : processing :=
  match metadataFiles with
  | [] =>
      {| processed := false; files_after := files; transcribed := calls |}
  | metadataFile :: rest =>
      let metadata := loadEpisodeMetadata files metadataFile in
      let enclosureUrl := get metadata "enclosureUrl" in
      if negb (truthy enclosureUrl) then process_files rest files calls
      else if hasExistingTranscript files metadataFile then
        process_files rest files calls
      else
        let calls := calls ++ [(metadataFile, enclosureUrl)] in
        match
          bind (transcribeAudio enclosureUrl)
               (fun transcript =>
                  saveTranscript files metadataFile transcript)
        with
        | Returned files' =>
            {| processed := true; files_after := files';
               transcribed := calls |}
        | Thrown _ =>
            (* the inner [catch]: the title goes into the console
               message and the URL into the line of the failure log,
               both through a template literal *)
            match
              bind (ToString Number_toString (get metadata "title"))
                (fun _ =>
              bind (ToString Number_toString enclosureUrl) (fun url =>
                appendFileSync files "failed_transcriptions.txt"
                  (metadataFile +:+ String "009"%char url
                     +:+ String "010"%char "")))
            with
            | Returned files' => process_files rest files' calls
            | Thrown _ =>
                (* the outer [catch]: "Error processing directory" *)
                {| processed := false; files_after := files;
                   transcribed := calls |}
            end
        end
  end.

Definition processPodcastDirectory (files : list node) : processing :=
  let metadataFiles := filter (fun f => isMetadataFile f = true)
                              (map node_name files) in
  process_files metadataFiles files [].

(** The state of [main] when its [while] loop ends: the final
    [processedCount] and [currentIndex], the data folder, and the
    calls of [transcribeAudio] with the podcast directory of each. *)
Record run : Type := {
  completed : Z;
  visited : nat;
  data_after : list node;
  calls : list (string * (string * value))
}.

(** The [while] loop of [main], from the entry of the data folder at
    [currentIndex] on; [podcastDirs] are the entries not visited
    yet. *)
Fixpoint main_loop (numPodcasts processedCount : Z) (currentIndex : nat)
         (podcastDirs : list node) : run :=
  match podcastDirs with
  | [] =>
      {| completed := processedCount; visited := currentIndex;
         data_after := []; calls := [] |}
  | n :: rest =>
      if (processedCount <? numPodcasts)%Z then
        match n with
        | Dir podcastDir files =>
            let p := processPodcastDirectory files in
            let processedCount :=
              if processed p then (processedCount + 1)%Z
              else processedCount in
            let r := main_loop numPodcasts processedCount
                               (S currentIndex) rest in
            {| completed := completed r;
               visited := visited r;
               data_after := Dir podcastDir (files_after p)
                               :: data_after r;
               calls := map (pair podcastDir) (transcribed p)
                          ++ calls r |}
        | File _ _ =>
            let r := main_loop numPodcasts processedCount
                               (S currentIndex) rest in
            {| completed := completed r;
               visited := visited r;
               data_after := n :: data_after r;
               calls := calls r |}
        end
      else
        {| completed := processedCount;
           visited := currentIndex;
           data_after := podcastDirs; calls := [] |}
  end.

(** [main()], given [process.argv[2]] and the listing of the data
    folder. *)
Definition main (argv2 : option string) (dataDir : list node) : run :=
  main_loop (numPodcasts argv2) 0 0 dataDir.
End Stage.

End Transcribe.

(** ** index.ts: validation and persistence *)

Module Index.
Import JS.

Record validation (A : Type) : Type := {
  isValid : bool;
  errors : list string;
  data : option A
}.
Arguments isValid {A} _.
Arguments errors {A} _.
Arguments data {A} _.

(** [if (c) errors.push(msg)] *)
Definition push_if (c : bool) (msg : string) (errors : list string)
  : list string :=
  if c then errors ++ [msg] else errors.

Definition is_type (t : string) (v : value) : bool :=
  String.eqb (typeof v) t.

(** [!v || typeof v !== t] *)
Definition missing_or_not (t : string) (v : value) : bool :=
  negb (truthy v) || negb (is_type t v).

(** [v && typeof v !== t] *)
Definition present_and_not (t : string) (v : value) : bool :=
  truthy v && negb (is_type t v).

Definition validateEpisodeData (data : json)
  : validation json :=
  if negb (truthy (Some data)) || negb (is_type "object" (Some data)) then
    {| isValid := false; errors := ["Data is not an object"]; data := None |}
  else
    let errors := [] in
    let errors :=
      push_if (missing_or_not "number" (get data "id"))
              "Missing or invalid id (must be a number)" errors in
    let errors :=
      push_if (missing_or_not "string" (get data "title"))
              "Missing or invalid title (must be a string)" errors in
    let errors :=
      push_if (present_and_not "number" (get data "datePublished"))
              "Invalid datePublished (must be a number)" errors in
    let errors :=
      push_if (present_and_not "number" (get data "dateCrawled"))
              "Invalid dateCrawled (must be a number)" errors in
    let errors :=
      push_if (present_and_not "number" (get data "duration"))
              "Invalid duration (must be a number)" errors in
    let errors :=
      push_if (present_and_not "number" (get data "episode"))
              "Invalid episode (must be a number)" errors in
    {| isValid := Nat.eqb (length errors) 0;
       errors := errors;
       data := if Nat.eqb (length errors) 0 then Some data else None |}.

Definition nl : string := String "010"%char "".
Definition dquote : string := String "034"%char "".

(** [/^\d+:\d{2}$/] *)
Definition timestampRegex : regex :=
  Seq (Plus (Class is_digit))
      (Seq (Class (Ascii.eqb ":"%char))
           (Seq (Class is_digit) (Class is_digit))).

(** [const [, seconds] = pieces.map(Number)]; a missing second element
    is [undefined], which compares as NaN. *)
Definition second_number (pieces : list string) : number :=
  match pieces with
  | _ :: s :: _ => Number_of_string s
  | _ => NaN
  end.

(** [v.split(":")]: only a string has the method. *)
Definition call_split (field : string) (v : value)
  : outcome (list string) :=
  match v with
  | Some (JStr s) => Returned (split ":"%char s)
  | _ => Thrown ("TypeError: entry." +:+ field +:+ ".split is not a function")
  end.

Section Validate.
Variable Number_toString : number -> string.
(** [JSON.stringify(entry, null, 2)] *)
Variable JSON_stringify : json -> string.

Definition full_entry (entry : json) : string :=
  "Full entry: " +:+ JSON_stringify entry.

Definition missing_message (index : nat) (field : string) (entry : json)
  : string :=
  "Entry " +:+ show_nat index +:+ ": Missing or invalid " +:+ field
    +:+ nl +:+ full_entry entry.

Definition format_message (index : nat) (field shown : string)
           (entry : json) : string :=
  "Entry " +:+ show_nat index +:+ ": Invalid " +:+ field
    +:+ " format (should be MM:SS)" +:+ nl
    +:+ "Timestamp: " +:+ dquote +:+ shown +:+ dquote +:+ nl
    +:+ full_entry entry.

Definition seconds_message (index : nat) (field shown : string)
           (entry : json) : string :=
  "Entry " +:+ show_nat index +:+ ": Invalid " +:+ field
    +:+ " - seconds must be less than 60" +:+ nl
    +:+ "Timestamp: " +:+ dquote +:+ shown +:+ dquote +:+ nl
    +:+ full_entry entry.

(** The format check of one timestamp field: [timestampRegex.test]
    converts its argument to a string; on a match the seconds are
    read with [split]. *)
Definition check_timestamp (index : nat) (field : string) (entry : json)
           (errors : list string) : outcome (list string) :=
  let v := get entry field in
  bind (ToString Number_toString v) (fun shown =>
    if negb (matches timestampRegex shown) then
      Returned (errors ++ [format_message index field shown entry])
    else
      bind (call_split field v) (fun pieces =>
        let seconds := second_number pieces in
        Returned
          (push_if (number_ge seconds (Finite 60))
                   (seconds_message index field shown entry) errors))).

(** The body of the [forEach] callback. *)
Definition check_entry (index : nat) (entry : json)
           (errors : list string) : outcome (list string) :=
  if negb (truthy (Some entry)) || negb (is_type "object" (Some entry))
  then
    Returned
      (errors ++ ["Entry " +:+ show_nat index +:+ " is not an object"])
  else
    let errors :=
      push_if (missing_or_not "string" (get entry "speaker"))
              (missing_message index "speaker" entry) errors in
    let errors :=
      push_if (missing_or_not "string" (get entry "timestampFrom"))
              (missing_message index "timestampFrom" entry) errors in
    let errors :=
      push_if (missing_or_not "string" (get entry "timestampTo"))
              (missing_message index "timestampTo" entry) errors in
    let errors :=
      push_if (missing_or_not "string" (get entry "content"))
              (missing_message index "content" entry) errors in
    bind (check_timestamp index "timestampFrom" entry errors)
         (fun errors =>
            check_timestamp index "timestampTo" entry errors).

(** [data.forEach((entry, index) => ...)]; an exception raised by
    the callback ends the loop and leaves the function. *)
Fixpoint forEach_entry (index : nat) (entries : list json)
         (errors : list string) : outcome (list string) :=
  match entries with
  | [] => Returned errors
  | e :: rest =>
      bind (check_entry index e errors)
           (fun errors => forEach_entry (S index) rest errors)
  end.

Definition validateTranscriptData (data : json)
  : outcome (validation (list json)) :=
  match data with
  | JArr entries =>
      bind (forEach_entry 0 entries []) (fun errors =>
        Returned
          {| isValid := Nat.eqb (length errors) 0;
             errors := errors;
             data := if Nat.eqb (length errors) 0
                     then Some entries else None |})
  | _ =>
      Returned
        {| isValid := false;
           errors := ["Transcript data must be an array"];
           data := None |}
  end.
End Validate.

(** *** Persistence *)

(** [interface ValidatedData]: the episode and transcript as
    validated above. *)
Record ValidatedData : Type := {
  episode : json;
  transcript : option (list json)
}.

(** A value handed to the database for one column. *)
Inductive sql : Type :=
| SqlNull
| SqlValue (v : json)
| SqlBool (b : bool)
| SqlDate (milliseconds : number).

(** [v || null] *)
Definition or_null (v : value) : sql :=
  match v with
  | Some j => if truthy v then SqlValue j else SqlNull
  | None => SqlNull
  end.

Definition times (n : number) (k : Z) : number :=
  match n with
  | Finite q => Finite (Qmult q (inject_Z k))
  | other => other
  end.

(** [v ? new Date(v * 1000) : null].  The product is modelled on
    numbers, which is all a validated episode holds where this field is
    truthy; NaN stands for it otherwise. *)
Definition date_or_null (v : value) : sql :=
  match v with
  | Some (JNum n) => if truthy v then SqlDate (times n 1000) else SqlNull
  | Some _ => if truthy v then SqlDate NaN else SqlNull
  | None => SqlNull
  end.

(** The object passed to [db.insert(episodesTable).values]. *)
Definition episode_values (externalId : string) (episode : json)
  : list (string * sql) :=
  [ ("externalId", SqlValue (JStr externalId));
    ("title", match get episode "title" with
              | Some j => SqlValue j
              | None => SqlNull
              end);
    ("description", or_null (get episode "description"));
    ("link", or_null (get episode "link"));
    ("guid", or_null (get episode "guid"));
    ("datePublished", date_or_null (get episode "datePublished"));
    ("dateCrawled", date_or_null (get episode "dateCrawled"));
    ("enclosureUrl", or_null (get episode "enclosureUrl"));
    ("enclosureType", or_null (get episode "enclosureType"));
    ("enclosureLength", or_null (get episode "enclosureLength"));
    ("duration", or_null (get episode "duration"));
    ("explicit", SqlBool (truthy (get episode "explicit")));
    ("episode", or_null (get episode "episode"));
    ("episodeType", or_null (get episode "episodeType"));
    ("season", or_null (get episode "season"));
    ("image", or_null (get episode "image"));
    ("feedItunesId", or_null (get episode "feedItunesId"));
    ("feedImage", or_null (get episode "feedImage"));
    ("feedId", or_null (get episode "feedId"));
    ("feedUrl", or_null (get episode "feedUrl"));
    ("feedAuthor", or_null (get episode "feedAuthor"));
    ("feedTitle", or_null (get episode "feedTitle"));
    ("feedLanguage", or_null (get episode "feedLanguage"));
    ("chaptersUrl", or_null (get episode "chaptersUrl"));
    ("transcriptUrl", or_null (get episode "transcriptUrl")) ].

Definition plain (v : value) : sql :=
  match v with
  | Some j => SqlValue j
  | None => SqlNull
  end.

(** One element of the [timestamps] array of [insertData]. *)
Definition timestamp_values (episodeId : Z) (ts : json)
  : list (string * sql) :=
  [ ("episodeId", SqlValue (JNum (Finite (inject_Z episodeId))));
    ("speaker", plain (get ts "speaker"));
    ("labeledSpeaker", or_null (get ts "labeledSpeaker"));
    ("timestampFrom", plain (get ts "timestampFrom"));
    ("timestampTo", plain (get ts "timestampTo"));
    ("content", plain (get ts "content")) ].

(** Rows of [episodesTable] and [episodeTimestampsTable] (schema.ts):
    the generated identity and the inserted values. *)
Record episode_row : Type := {
  id : Z;
  externalId : string;
  episode_columns : list (string * sql)
}.

Record timestamp_row : Type := {
  timestamp_id : Z;
  timestamp_columns : list (string * sql)
}.

Record database : Type := {
  episodes : list episode_row;
  episode_timestamps : list timestamp_row;
  next_episode_id : Z;
  next_timestamp_id : Z
}.

(** Lines written to the console by [insertData]. *)
Inductive console : Type :=
| Skipping (title : value)
    (* "Skipping episode ... - already exists in database" *)
| InsertedEpisode (title : value)
    (* "Inserted episode: ..." *)
| InsertedTimestamps (count : nat) (title : value)
    (* "Inserted ... timestamps for episode: ..." *)
| ErrorInserting (title : value)
    (* "Error inserting data for episode ...:" *)
| TotalEpisodes (count : nat)
    (* "Total episodes in database: ..." *)
| TotalTimestamps (count : nat).
    (* "Total timestamps in database: ..." *)

Fixpoint number_rows (next : Z) (rows : list (list (string * sql)))
  : list timestamp_row :=
  match rows with
  | [] => []
  | r :: rest =>
      {| timestamp_id := next; timestamp_columns := r |}
        :: number_rows (next + 1)%Z rest
  end.

Section Persist.
Variable Number_toString : number -> string.
(** Whether the database accepts the values of a row for its table
    (column types, lengths and not-null constraints of schema.ts);
    a rejected statement throws and changes nothing. *)
Variable episode_accepted : list (string * sql) -> bool.
Variable timestamps_accepted : list (list (string * sql)) -> bool.

(** [db.select().from(episodesTable).where(eq(externalId, key))] *)
Definition select_episodes (db : database) (key : string)
  : list episode_row :=
  filter (fun r => externalId r = key) (episodes db).

(** [db.insert(episodesTable).values(v).returning()]; [externalId]
    is declared unique. *)
Definition insert_episode (db : database) (key : string)
           (v : list (string * sql)) : option (database * episode_row) :=
  if negb (episode_accepted v)
     || negb (Nat.eqb (length (select_episodes db key)) 0)
  then None
  else
    let row := {| id := next_episode_id db; externalId := key;
                  episode_columns := v |} in
    Some ({| episodes := episodes db ++ [row];
             episode_timestamps := episode_timestamps db;
             next_episode_id := (next_episode_id db + 1)%Z;
             next_timestamp_id := next_timestamp_id db |}, row).

(** [db.insert(episodeTimestampsTable).values(rows)] *)
Definition insert_timestamps (db : database)
           (rows : list (list (string * sql))) : option database :=
  if negb (timestamps_accepted rows) then None
  else
    Some {| episodes := episodes db;
            episode_timestamps :=
              episode_timestamps db
                ++ number_rows (next_timestamp_id db) rows;
            next_episode_id := next_episode_id db;
            next_timestamp_id :=
              (next_timestamp_id db + Z.of_nat (length rows))%Z |}.

(** The body of the [for] loop of [insertData], with its
    [try]/[catch]. *)
Definition insert_one (item : ValidatedData) (db : database)
  : database * list console :=
  let title := get (episode item) "title" in
  match ToString Number_toString (get (episode item) "id") with
  | Thrown _ => (db, [ErrorInserting title])
  | Returned key =>
      let existing := select_episodes db key in
      if (0 <? length existing) then (db, [Skipping title])
      else
        match insert_episode db key (episode_values key (episode item)) with
        | None => (db, [ErrorInserting title])
        | Some (db1, insertedEpisode) =>
            match transcript item with
            | Some ts =>
                if (0 <? length ts) then
                  let timestamps :=
                    map (timestamp_values (id insertedEpisode)) ts in
                  match insert_timestamps db1 timestamps with
                  | Some db2 =>
                      (db2, [InsertedEpisode title;
                             InsertedTimestamps (length timestamps) title])
                  | None =>
                      (db1, [InsertedEpisode title; ErrorInserting title])
                  end
                else (db1, [InsertedEpisode title])
            | None => (db1, [InsertedEpisode title])
            end
        end
  end.

Fixpoint insert_all (validatedData : list ValidatedData) (db : database)
  : database * list console :=
  match validatedData with
  | [] => (db, [])
  | item :: rest =>
      let '(db1, out1) := insert_one item db in
      let '(db2, out2) := insert_all rest db1 in
      (db2, out1 ++ out2)
  end.

Definition insertData (validatedData : list ValidatedData)
           (db : database) : database * list console :=
  let '(db', out) := insert_all validatedData db in
  (db', out ++ [TotalEpisodes (length (episodes db'));
                TotalTimestamps (length (episode_timestamps db'))]).
End Persist.

End Index.

(** ** Statements of the documentation, written out for comparison *)

Module Documented.
Import JS.

(** "name derived from feed title, lowercased, non-alphanumeric runs
    collapsed to [_]": every maximal run of non-alphanumeric
    characters gives one underscore.  [in_run] tells whether the
    previous character belonged to such a run. *)
Fixpoint collapse_runs (in_run : bool) (title : string) : string :=
  match title with
  | EmptyString => EmptyString
  | String c rest =>
      if is_alnum c then String (lower_char c) (collapse_runs false rest)
      else if in_run then collapse_runs true rest
      else String "_"%char (collapse_runs true rest)
  end.

Definition directory_name (feedTitle : string) : string :=
  collapse_runs false feedTitle.

(** "requires [id] to be an integer and [title] a non-empty string;
    if present, [datePublished], [dateCrawled], [duration], [episode]
    must be numeric". *)
Definition is_integer (v : value) : bool :=
  match v with
  | Some (JNum n) => number_is_integer n
  | _ => false
  end.

Definition is_nonempty_string (v : value) : bool :=
  match v with
  | Some (JStr s) => negb (String.eqb s "")
  | _ => false
  end.

Definition numeric_if_present (v : value) : bool :=
  match v with
  | None => true
  | Some (JNum _) => true
  | Some _ => false
  end.

Definition episode_requirements (raw : json) : bool :=
  is_integer (get raw "id")
  && is_nonempty_string (get raw "title")
  && numeric_if_present (get raw "datePublished")
  && numeric_if_present (get raw "dateCrawled")
  && numeric_if_present (get raw "duration")
  && numeric_if_present (get raw "episode").

(** "digits, a colon, then exactly two digits", the two digits
    denoting a number below 60. *)
Definition timestamp_shape (ts : string) : Prop :=
  exists (minutes : string) (d1 d2 : ascii),
    minutes <> "" /\ all_digits minutes = true
    /\ is_digit d1 = true /\ is_digit d2 = true
    /\ ts = minutes +:+ String ":"%char (String d1 (String d2 "")).

Definition seconds_of (ts : string) : Z :=
  match rev (list_ascii_of_string ts) with
  | d2 :: d1 :: _ => (10 * digit_value d1 + digit_value d2)%Z
  | _ => 0%Z
  end.

Definition valid_timestamp (ts : string) : Prop :=
  timestamp_shape ts /\ (seconds_of ts < 60)%Z.

(** "for each element requires non-empty string [speaker],
    [timestampFrom], [timestampTo], [content]", the timestamps being
    valid. *)
Definition well_formed_entry (entry : json) : Prop :=
  exists speaker timestampFrom timestampTo content : string,
    get entry "speaker" = Some (JStr speaker) /\ speaker <> ""
    /\ get entry "timestampFrom" = Some (JStr timestampFrom)
    /\ valid_timestamp timestampFrom
    /\ get entry "timestampTo" = Some (JStr timestampTo)
    /\ valid_timestamp timestampTo
    /\ get entry "content" = Some (JStr content) /\ content <> "".





(** A message "carrying that entry's index". *)
Definition carries_index (index : nat) (message : string) : Prop :=
  message = "Entry " +:+ show_nat index +:+ " is not an object"
  \/ exists rest : string,
       message = "Entry " +:+ show_nat index +:+ ": " +:+ rest.

End Documented.

(** ** Notions used to state what the code does *)

Module Observed.
Import JS.

(** The character of the directory name at each position of the
    title. *)
Definition sanitize_char (c : ascii) : ascii :=
  if is_alnum c then lower_char c else "_"%char.

(** [!v || typeof v !== "number"] fails: a number other than 0 and
    NaN. *)
Definition nonzero_number (v : value) : bool :=
  match v with
  | Some (JNum n) => truthy v
  | _ => false
  end.

(** [v && typeof v !== "number"] fails: a number, or any falsy value
    (absent, [null], [false], the empty string). *)
Definition number_or_falsy (v : value) : bool :=
  match v with
  | Some (JNum _) => true
  | _ => negb (truthy v)
  end.

Definition when_violated (ok : bool) (message : string) : list string :=
  if ok then [] else [message].

(** The label the model gave to a speaker token, if it gave a
    non-empty one. *)
Definition resolution (response : LabelSpeakers.model_response)
           (token : string) : option string :=
  match response with
  | LabelSpeakers.Parsed m =>
      match m !! token with
      | Some label => if String.eqb label "" then None else Some label
      | None => None
      end
  | _ => None
  end.

(** The parsed answer has no own property for the token, and the
    token is the name of a property of [Object.prototype]: the lookup
    of the token in the answer finds the inherited value. *)
Definition left_to_prototype (response : LabelSpeakers.model_response)
           (token : string) : bool :=
  match response with
  | LabelSpeakers.Parsed m =>
      match m !! token with
      | Some _ => false
      | None => LabelSpeakers.inherited token
      end
  | _ => false
  end.

(** What the two format checks of the validator accept. *)
Definition timestamp_ok (ts : string) : bool :=
  matches Index.timestampRegex ts
  && negb (number_ge (Index.second_number (split ":"%char ts))
                     (Finite 60)).

(** The messages the format checks add for a field holding the string
    [ts]. *)
Definition timestamp_messages (JSON_stringify : json -> string)
           (index : nat) (field ts : string) (entry : json)
  : list string :=
  if matches Index.timestampRegex ts then
    when_violated
      (negb (number_ge (Index.second_number (split ":"%char ts))
                       (Finite 60)))
      (Index.seconds_message JSON_stringify index field ts entry)
  else [Index.format_message JSON_stringify index field ts entry].

(** A transcript entry whose four fields are strings. *)
Definition segment_json (speaker timestampFrom timestampTo content : string)
  : json :=
  JObj [ ("speaker", JStr speaker);
         ("timestampFrom", JStr timestampFrom);
         ("timestampTo", JStr timestampTo);
         ("content", JStr content) ].

(** A timestamp field the format checks can read: absent, or a
    string. *)
Definition absent_or_string (v : value) : Prop :=
  v = None \/ exists s : string, v = Some (JStr s).

Definition plain_timestamps (entry : json) : Prop :=
  absent_or_string (get entry "timestampFrom")
  /\ absent_or_string (get entry "timestampTo").

(** An item that a run of [insertData] leaves alone: its [id] cannot
    be rendered, its episode is stored already, or the database
    rejects its episode row. *)
Definition settled (Number_toString : number -> string)
           (episode_accepted : list (string * Index.sql) -> bool)
           (db : Index.database) (item : Index.ValidatedData) : Prop :=
  match ToString Number_toString (get (Index.episode item) "id") with
  | Thrown _ => True
  | Returned key =>
      Index.select_episodes db key <> []
      \/ episode_accepted (Index.episode_values key (Index.episode item))
         = false
  end.

(** [Number.prototype.toString] on the integers below 10^21, which
    are printed as their decimal digits. *)
Definition integer_toString (n : number) : string :=
  match n with
  | Finite q => NilZero.string_of_int (Z.to_int (Qfloor q))
  | Infinite false => "Infinity"
  | Infinite true => "-Infinity"
  | NaN => "NaN"
  end.

(** The directories of the tree under the data folder, each with its
    path and listing. *)
Inductive reachable (dataDir : string) (root : list node)
  : string -> list node -> Prop :=
| reachable_root : reachable dataDir root dataDir root
| reachable_sub (dir : string) (files : list node)
                (name : string) (sub : list node) :
    reachable dataDir root dir files ->
    Dir name sub ∈ files ->
    reachable dataDir root (path_join dir name) sub.

(** A transcript file of a listing still waiting for its labeled
    version, as the search of the labeling stage tests it. *)
Definition unlabeled_transcript (files : list node) (file : string)
  : bool :=
  endsWith file "_transcript.json"
  && negb (existsSync files
             (replace file "_transcript.json" "_transcript_labeled.json")).

(** Where the first occurrence of [pattern] in [s] starts, if there
    is one: the place at which [s.replace(pattern, ...)] acts. *)
Fixpoint first_occurrence (s pattern : string) : option nat :=
  match strip_prefix pattern s with
  | Some _ => Some 0
  | None =>
      match s with
      | EmptyString => None
      | String _ s' => option_map S (first_occurrence s' pattern)
      end
  end.





Section Budget.
Variable Number_toString : number -> string.
Variable JSON_stringify : json -> string.
Variable transcribeAudio : value -> outcome json.

(** An entry of the data folder that yields a unit of work: a
    directory in which [processPodcastDirectory] transcribes a
    file. *)
Definition yields_work (n : node) : bool :=
  match n with
  | Dir _ files =>
      Transcribe.processed
        (Transcribe.processPodcastDirectory
           Number_toString JSON_stringify transcribeAudio files)
  | File _ _ => false
  end.

Fixpoint successes (entries : list node) : nat :=
  match entries with
  | [] => 0
  | n :: rest => (if yields_work n then 1 else 0) + successes rest
  end.
End Budget.

(** The labeled view of a segment without its added field. *)
Definition unlabeled (l : LabelSpeakers.LabeledTranscriptSegment)
  : LabelSpeakers.TranscriptSegment :=
  {| LabelSpeakers.speaker := LabelSpeakers.Labeled.speaker l;
     LabelSpeakers.timestampFrom := LabelSpeakers.Labeled.timestampFrom l;
     LabelSpeakers.timestampTo := LabelSpeakers.Labeled.timestampTo l;
     LabelSpeakers.content := LabelSpeakers.Labeled.content l |}.

End Observed.

(** ** Invariants of the stored data *)

Module Stored.
Import JS.

(** The value given for a column in the values of a row. *)
Fixpoint column (name : string) (values : list (string * Index.sql))
  : option Index.sql :=
  match values with
  | [] => None
  | (k, v) :: rest => if String.eqb k name then Some v else column name rest
  end.

(** [episodeId: integer().references(() => episodesTable.id)]: the row
    names the identity of a stored episode. *)
Definition references (db : Index.database) (row : Index.timestamp_row)
  : Prop :=
  exists e : Index.episode_row,
    e ∈ Index.episodes db
    /\ column "episodeId" (Index.timestamp_columns row)
       = Some (Index.SqlValue (JNum (Finite (inject_Z (Index.id e))))).

(** One row per [externalId], and no timestamp row without its
    episode. *)
Definition consistent (db : Index.database) : Prop :=
  NoDup (map Index.externalId (Index.episodes db))
  /\ Forall (references db) (Index.episode_timestamps db).

(** The episodes and the timestamps a console line reports as
    inserted. *)
Definition episodes_reported (line : Index.console) : nat :=
  match line with
  | Index.InsertedEpisode _ => 1
  | _ => 0
  end.

Definition timestamps_reported (line : Index.console) : nat :=
  match line with
  | Index.InsertedTimestamps count _ => count
  | _ => 0
  end.

End Stored.

(** ** label-speakers.ts: writing the labeled transcript *)

Module LabelSpeakersOutput.
Import JS.

(** The added field as [JSON.stringify] writes it: a property whose
    value is a function is left out, and the prototype object, which
    has no enumerable property of its own, is written as [{}]. *)
Definition labeledSpeaker_json (l : LabelSpeakers.label)
  : list (string * json) :=
  match l with
  | LabelSpeakers.Label name => [("labeledSpeaker", JStr name)]
  | LabelSpeakers.Inherited key =>
      if String.eqb key "__proto__" then [("labeledSpeaker", JObj [])]
      else []
  end.

(** A labeled segment as [JSON.stringify] writes it and [JSON.parse]
    reads it back: the fields of the segment, then the added one. *)
Definition labeled_json (segment : LabelSpeakers.LabeledTranscriptSegment)
  : json :=
  JObj ([ ("speaker", JStr (LabelSpeakers.Labeled.speaker segment));
          ("timestampFrom",
           JStr (LabelSpeakers.Labeled.timestampFrom segment));
          ("timestampTo", JStr (LabelSpeakers.Labeled.timestampTo segment));
          ("content", JStr (LabelSpeakers.Labeled.content segment)) ]
          ++ labeledSpeaker_json
               (LabelSpeakers.Labeled.labeledSpeaker segment)).


End LabelSpeakersOutput.

(** ** The state of a podcast directory, as the transcription stage
       sees it *)

Module Progress.
Import JS.

(** The text of a log file of a listing; no text when there is no
    such file. *)
Definition log_text (JSON_stringify : json -> string)
           (files : list node) (log : string) : string :=
  match entry files log with
  | Some (File _ c) => Transcribe.text_of JSON_stringify c
  | _ => ""
  end.

(** A metadata file the loop of [processPodcastDirectory] does not
    pass over: it names an audio URL and has no transcript. *)
Definition eligible (files : list node) (metadataFile : string) : bool :=
  truthy (get (Transcribe.loadEpisodeMetadata files metadataFile)
              "enclosureUrl")
  && negb (Transcribe.hasExistingTranscript files metadataFile).

(** A call of [transcribeAudio] fits a listing: it is made for an
    eligible metadata file of the listing, with the audio URL of that
    file. *)
Definition called_for (files : list node) (call : string * value) : Prop :=
  Transcribe.isMetadataFile call.1 = true
  /\ existsSync files call.1 = true
  /\ call.2 = get (Transcribe.loadEpisodeMetadata files call.1)
                  "enclosureUrl"
  /\ eligible files call.1 = true.

(** A directory without eligible metadata file, and an entry of the
    data folder that is no such directory. *)
Definition complete (files : list node) : Prop :=
  forall f : string,
    f ∈ map node_name files ->
    Transcribe.isMetadataFile f = true ->
    eligible files f = false.

Definition nothing_pending (n : node) : Prop :=
  match n with
  | Dir _ files => complete files
  | File _ _ => True
  end.

End Progress.

(** ** transcribe.ts: from the segments of the model to a transcript *)

Module Diarization.
Import JS.

(** [interface ReplicateSegment]; [end_] is its field [end]. *)
Record ReplicateSegment : Type := {
  speaker : number;
  start : number;
  end_ : number;
  text : string
}.

(** [x / k] for a positive integer constant [k].  The quotient of a
    double by 60 is rounded; below 2^53 the rounding never reaches the
    next integer, so the floor taken of it is the floor of the exact
    quotient. *)
Definition divide (x : number) (k : Z) : number :=
  match x with
  | Finite q => Finite (Qdiv q (inject_Z k))
  | other => other
  end.

(** [Math.floor] *)
Definition Math_floor (x : number) : number :=
  match x with
  | Finite q => Finite (inject_Z (Qfloor q))
  | other => other
  end.

(** Rounding towards zero. *)
Definition truncate (q : Q) : Z :=
  if Qle_bool 0 q then Qfloor q else Qceiling q.

(** [x % k] for a positive integer constant [k]: the remainder has the
    sign of [x] and is exact; it is NaN for an infinite [x]. *)
Definition remainder (x : number) (k : Z) : number :=
  match x with
  | Finite q =>
      Finite (Qminus q (Qmult (inject_Z k)
                              (inject_Z (truncate (Qdiv q (inject_Z k))))))
  | _ => NaN
  end.

Fixpoint repeat_char (n : nat) (c : ascii) : string :=
  match n with
  | 0 => ""
  | S n' => String c (repeat_char n' c)
  end.

(** [s.padStart(targetLength, c)] for a one-character filler. *)
Definition padStart (s : string) (targetLength : nat) (c : ascii) : string :=
  repeat_char (targetLength - String.length s) c +:+ s.

Section Transcribe.
Variable Number_toString : number -> string.
(** [replicate.run(model, { input: { file_url: audioUrl, ... } })]:
    the call rejects, or answers with an output whose [segments] are
    missing ([None]) or present. *)
Variable replicate_run : string -> outcome (option (list ReplicateSegment)).

Definition formatTime (seconds : number) : string :=
  let minutes := Math_floor (divide seconds 60) in
  let remainingSeconds := Math_floor (remainder seconds 60) in
  padStart (Number_toString minutes) 2 "0"
    +:+ ":" +:+ padStart (Number_toString remainingSeconds) 2 "0".

(** The callback of [output.segments.map]. *)
Definition convert (segment : ReplicateSegment)
  : LabelSpeakers.TranscriptSegment :=
  {| LabelSpeakers.speaker :=
       "Speaker " +:+ Number_toString (speaker segment);
     LabelSpeakers.timestampFrom := formatTime (start segment);
     LabelSpeakers.timestampTo := formatTime (end_ segment);
     LabelSpeakers.content := text segment |}.

(** [transcribeAudio(audioUrl)]; its [catch] block logs the error and
    throws it again. *)
Definition transcribeAudio (audioUrl : string)
  : outcome (list LabelSpeakers.TranscriptSegment) :=
  match replicate_run audioUrl with
  | Returned (Some segments) => Returned (map convert segments)
  | Returned None => Thrown "Error: Invalid response from Replicate"
  | Thrown error => Thrown error
  end.
End Transcribe.

(** A transcript segment as [JSON.stringify] writes it. *)
Definition segment_json (segment : LabelSpeakers.TranscriptSegment) : json :=
  JObj [ ("speaker", JStr (LabelSpeakers.speaker segment));
         ("timestampFrom", JStr (LabelSpeakers.timestampFrom segment));
         ("timestampTo", JStr (LabelSpeakers.timestampTo segment));
         ("content", JStr (LabelSpeakers.content segment)) ].

(** [Number.prototype.toString] prints a non-negative integer below
    10^21 as its decimal digits. *)
Definition prints_integers (Number_toString : number -> string) : Prop :=
  forall z : Z,
    (0 <= z)%Z -> (z < 10 ^ 21)%Z ->
    Number_toString (Finite (inject_Z z))
    = NilZero.string_of_int (Z.to_int z).

(** A time in seconds as the model reports it: not negative and below
    2^53. *)
Definition time_in_range (x : number) : Prop :=
  match x with
  | Finite q => Qle 0 q /\ Qlt q (inject_Z (2 ^ 53))
  | _ => False
  end.

(** Two digits that denote a number below 60. *)
Definition seconds_digits (s : string) : bool :=
  match s with
  | String d1 (String d2 EmptyString) =>
      is_digit d1 && is_digit d2
      && (10 * digit_value d1 + digit_value d2 <? 60)%Z
  | _ => false
  end.

End Diarization.

(** ** download-metadata.ts: downloading the episodes *)

Module Download.
Import JS.

Record PodcastEpisode : Type := {
  id : number;
  title : string;
  description : string;
  datePublished : number;
  duration : number;
  link : string;
  enclosureUrl : string;
  feedTitle : string;
  feedId : number
}.

(** A number as [JSON.stringify] writes it and [JSON.parse] reads it
    back: NaN and the infinities are written as [null]. *)
Definition number_json (n : number) : json :=
  match n with
  | Finite _ => JNum n
  | _ => JNull
  end.

(** The document written by [JSON.stringify(episode, null, 2)], for an
    object with the properties the interface declares. *)
Definition episode_json (episode : PodcastEpisode) : json :=
  JObj [ ("id", number_json (id episode));
         ("title", JStr (title episode));
         ("description", JStr (description episode));
         ("datePublished", number_json (datePublished episode));
         ("duration", number_json (duration episode));
         ("link", JStr (link episode));
         ("enclosureUrl", JStr (enclosureUrl episode));
         ("feedTitle", JStr (feedTitle episode));
         ("feedId", number_json (feedId episode)) ].

(** What [fetch(url)] and [response.arrayBuffer()] come to: a
    rejection of either, a response that is not [ok], or the body. *)
Inductive fetched : Type :=
| NetworkError
| HttpError
| Body (bytes : string).

(** The listing of [path.join("data", name)] once
    [downloadEpisode] has made sure that the path exists: the data
    folder itself for the empty name, an empty listing for a
    directory just created, and nothing when the path is a file.
    [data] is the listing of the data folder, empty when there is
    none. *)
Definition open_directory (data : list node) (name : string)
  : option (list node) :=
  if String.eqb name "" then Some data
  else
    match entry data name with
    | None => Some []
    | Some (Dir _ files) => Some files
    | Some (File _ _) => None
    end.

(** The data folder in which the directory [name] has the listing
    [files]; a directory created by [mkdirSync] comes last. *)
Fixpoint replace_directory (data : list node) (name : string)
         (files : list node) : list node :=
  match data with
  | [] => [Dir name files]
  | n :: rest =>
      if String.eqb (node_name n) name then Dir name files :: rest
      else n :: replace_directory rest name files
  end.

Definition store_directory (data : list node) (name : string)
           (files : list node) : list node :=
  if String.eqb name "" then files else replace_directory data name files.

(** What one call of [downloadEpisode] or [processEpisodes] did: the
    data folder afterwards, the URLs fetched, and whether an
    exception left the function. *)
Record download : Type := {
  data_after : list node;
  fetches : list string;
  aborted : bool
}.

Section Episodes.
Variable Number_toString : number -> string.
Variable JSON_stringify : json -> string.
Variable fetch : string -> fetched.

Definition audioName (episode : PodcastEpisode) : string :=
  Number_toString (id episode) +:+ ".mp3".

Definition metadataName (episode : PodcastEpisode) : string :=
  Number_toString (id episode) +:+ ".json".

Definition failure_line (episode : PodcastEpisode) : string :=
  Number_toString (id episode) +:+ String "009"%char (title episode)
    +:+ String "009"%char (enclosureUrl episode) +:+ String "010"%char "".

(** The [catch] block of [downloadEpisode], in the podcast directory
    [files]: an exception of [appendFileSync] leaves the function. *)
Definition record_failure (files : list node) (episode : PodcastEpisode)
           (fetches : list string) : list node * list string * bool :=
  match
    Transcribe.appendFileSync JSON_stringify files "failed_downloads.txt"
                              (failure_line episode)
  with
  | Returned files' => (files', fetches, false)
  | Thrown _ => (files, fetches, true)
  end.

(** [downloadEpisode] from its second [if] on, [files] being the
    listing of the podcast directory. *)
Definition download_into (files : list node) (episode : PodcastEpisode)
  : list node * list string * bool :=
  let audio := audioName episode in
  let metadata := metadataName episode in
  if existsSync files audio && existsSync files metadata then
    (files, [], false)
  else
    match
      if negb (existsSync files metadata)
      then Transcribe.writeFileSync files metadata
                                    (Document (episode_json episode))
      else Returned files
    with
    | Thrown _ => record_failure files episode []
    | Returned files1 =>
        if negb (existsSync files1 audio) then
          let url := enclosureUrl episode in
          match fetch url with
          | Body bytes =>
              match Transcribe.writeFileSync files1 audio (Text bytes) with
              | Returned files2 => (files2, [url], false)
              | Thrown _ => record_failure files1 episode [url]
              end
          | _ => record_failure files1 episode [url]
          end
        else (files1, [], false)
    end.

(** [downloadEpisode(episode)].  When the podcast directory is a
    file, no path below it exists and every write fails, the one of
    the [catch] block included. *)
Definition downloadEpisode (data : list node) (episode : PodcastEpisode)
  : download :=
  let sanitizedTitle := DownloadMetadata.sanitizedTitle (feedTitle episode) in
  match open_directory data sanitizedTitle with
  | None => {| data_after := data; fetches := []; aborted := true |}
  | Some files =>
      let '(files', fetches, aborted) := download_into files episode in
      {| data_after := store_directory data sanitizedTitle files';
         fetches := fetches; aborted := aborted |}
  end.

(** [processEpisodes(episodes)]: an exception that leaves
    [downloadEpisode] ends the loop. *)
Fixpoint processEpisodes (episodes : list PodcastEpisode) (data : list node)
  : download :=
  match episodes with
  | [] => {| data_after := data; fetches := []; aborted := false |}
  | episode :: rest =>
      let r := downloadEpisode data episode in
      if aborted r then r
      else
        let r' := processEpisodes rest (data_after r) in
        {| data_after := data_after r';
           fetches := fetches r ++ fetches r';
           aborted := aborted r' |}
  end.
End Episodes.

(** An episode whose audio and metadata are both in its podcast
    directory. *)
Definition downloaded (Number_toString : number -> string)
           (data : list node) (episode : PodcastEpisode) : Prop :=
  exists files : list node,
    open_directory data (DownloadMetadata.sanitizedTitle (feedTitle episode))
    = Some files
    /\ existsSync files (audioName Number_toString episode) = true
    /\ existsSync files (metadataName Number_toString episode) = true.

(** An entry name a write can go to: no directory has it. *)
Definition writable (files : list node) (name : string) : Prop :=
  forall sub : list node, entry files name <> Some (Dir name sub).

End Download.

(** ** index.ts: finding and validating the files to store *)

Module IndexFiles.
Import JS.

(** The regular expression of a literal text. *)
Fixpoint literal (s : string) : regex :=
  match s with
  | EmptyString => Eps
  | String c s' => Seq (Class (Ascii.eqb c)) (literal s')
  end.

(** [/_transcript_labeled\.json$/]: the pattern is not anchored at the
    start, so the whole name is any text followed by the literal. *)
Definition labeledTranscriptPattern : regex :=
  Seq (Star (Class (fun _ => true))) (literal "_transcript_labeled.json").

(** One iteration of the loop of [findFiles(dir, pattern)], on the
    entry [n] of the listing of [dir]: the paths it adds to
    [results]. *)
Fixpoint findFiles_entry (dir : string) (pattern : regex) (n : node)
  : list string :=
  match n with
  | Dir file sub =>
      let fullPath := path_join dir file in
      flat_map (findFiles_entry fullPath pattern) sub
  | File file _ =>
      if matches pattern file then [path_join dir file] else []
  end.

(** [findFiles(dir, pattern)], [files] being the listing of [dir]. *)
Definition findFiles (dir : string) (files : list node) (pattern : regex)
  : list string :=
  flat_map (findFiles_entry dir pattern) files.

(** [ToNumber(v)] for the operand of [episodeData.datePublished *
    1000].  Past [validateEpisodeData] the field is a number or a
    falsy value: absent (NaN), [null], [false] or the empty string
    (0).  Arrays and objects, which no validated episode holds there,
    are mapped to NaN. *)
Definition ToNumber (v : value) : number :=
  match v with
  | None => NaN
  | Some JNull => Finite 0
  | Some (JBool b) => Finite (if b then 1 else 0)
  | Some (JNum n) => n
  | Some (JStr s) => Number_of_string s
  | Some (JArr _) => NaN
  | Some (JObj _) => NaN
  end.

(** Whether [new Date(ms)] is a valid date, so that [toISOString]
    returns: a finite time value of at most 8.64e15 milliseconds
    either side of the epoch.  (The product of a double with 1000 is
    rounded; no double has its exact product above the bound and its
    rounded product on it.) *)
Definition valid_time (ms : number) : bool :=
  match ms with
  | Finite q =>
      Qle_bool (inject_Z (-8640000000000000)) q
      && Qle_bool q (inject_Z 8640000000000000)
  | _ => false
  end.

(** [transcriptPath.replace("_transcript_labeled.json", ".json")]:
    the path [validateFiles] reads the episode from, [transcriptPath]
    being a full path returned by [findFiles]. *)
Definition episodePath (transcriptPath : string) : string :=
  replace transcriptPath "_transcript_labeled.json" ".json".

Section Validate.
Variable Number_toString : number -> string.
Variable JSON_stringify : json -> string.

(** The body of the [for] loop of [validateFiles] for one labeled
    transcript: what is pushed to [validatedData], if anything.
    [episodeFile] and [transcriptFile] are what the file system holds
    at [episodePath] and at [transcriptPath].  Every exception ends in
    the [catch] block, which logs it and goes on with the next
    transcript. *)
Definition validate_pair (episodeFile transcriptFile : option node)
  : option Index.ValidatedData :=
  match episodeFile with
  | None => None                      (* "Episode file not found" *)
  | Some (Dir _ _) => None            (* [readFileSync] throws *)
  | Some (File _ (Text _)) => None    (* [JSON.parse] throws *)
  | Some (File _ (Document episodeData)) =>
      let episodeValidation := Index.validateEpisodeData episodeData in
      if negb (Index.isValid episodeValidation)
         || negb (truthy (Index.data episodeValidation))
      then None
      else
        match
          bind (ToString Number_toString (get episodeData "title"))
            (fun _ =>
          bind (ToString Number_toString (get episodeData "id"))
            (fun _ =>
          if valid_time
               (Index.times (ToNumber (get episodeData "datePublished"))
                            1000)
          then Returned tt
          else Thrown "RangeError: Invalid time value"))
        with
        | Thrown _ => None
        | Returned _ =>
            match transcriptFile with
            | Some (File _ (Document transcriptData)) =>
                match
                  Index.validateTranscriptData
                    Number_toString JSON_stringify transcriptData
                with
                | Thrown _ => None
                | Returned transcriptValidation =>
                    if negb (Index.isValid transcriptValidation) then None
                    else
                      match Index.data episodeValidation with
                      | Some episode =>
                          Some {| Index.episode := episode;
                                  Index.transcript :=
                                    Index.data transcriptValidation |}
                      | None => None
                      end
                end
            | _ => None
            end
        end
  end.
End Validate.

(** A timestamp entry gives a string for each of the four columns
    declared [notNull] in schema.ts. *)
Definition fills_required_columns (episodeId : Z) (ts : json) : Prop :=
  forall name : string,
    name ∈ ["speaker"; "timestampFrom"; "timestampTo"; "content"] ->
    exists s : string,
      Stored.column name (Index.timestamp_values episodeId ts)
      = Some (Index.SqlValue (JStr s))
      /\ s <> "".

End IndexFiles.

(** ** The question-and-answer stage: finding and saving *)

Module QAPairs.
Import JS.

Record QAPair : Type := {
  question : string;
  answer : string;
  questionSpeaker : string;
  answerSpeaker : string;
  timestampFrom : string;
  timestampTo : string
}.

Definition qa_json (pair : QAPair) : json :=
  JObj [ ("question", JStr (question pair));
         ("answer", JStr (answer pair));
         ("questionSpeaker", JStr (questionSpeaker pair));
         ("answerSpeaker", JStr (answerSpeaker pair));
         ("timestampFrom", JStr (timestampFrom pair));
         ("timestampTo", JStr (timestampTo pair)) ].

(** The file name [saveQAPairs] writes to. *)
Definition qaPairsName (transcriptFile : string) : string :=
  let baseName := replace transcriptFile "_transcript_labeled.json" "" in
  baseName +:+ "_qa_pairs.json".

(** [saveQAPairs(directory, transcriptFile, qaPairs)], [files] being
    the listing of [directory]. *)
Definition saveQAPairs (files : list node) (transcriptFile : string)
           (qaPairs : list QAPair) : outcome (list node) :=
  Transcribe.writeFileSync files (qaPairsName transcriptFile)
                           (Document (JArr (map qa_json qaPairs))).

(** One iteration of the loop of [findTranscript(dir)] inside
    [findLabeledTranscriptFile], on the entry [n] of the listing
    [files]. *)
Fixpoint findTranscript_entry (dir : string) (files : list node)
         (n : node) {struct n} : option LabelSpeakers.found :=
  match n with
  | Dir name sub =>
      let fullPath := path_join dir name in
      first_some (findTranscript_entry fullPath sub) sub
  | File file _ =>
      if endsWith file "_transcript_labeled.json" then
        let qaFile :=
          replace file "_transcript_labeled.json" "_qa_pairs.json" in
        if negb (existsSync files qaFile)
        then Some {| LabelSpeakers.transcriptFile := file;
                     LabelSpeakers.directory := dir |}
        else None
      else None
  end.

(** [findLabeledTranscriptFile(dataDir)], [files] being the listing
    of [dataDir]. *)
Definition findLabeledTranscriptFile (dataDir : string) (files : list node)
  : option LabelSpeakers.found :=
  first_some (findTranscript_entry dataDir files) files.

(** A labeled transcript of a listing for which the search finds no
    question-and-answer file. *)
Definition pending (files : list node) (file : string) : bool :=
  endsWith file "_transcript_labeled.json"
  && negb (existsSync files
             (replace file "_transcript_labeled.json" "_qa_pairs.json")).

End QAPairs.

(** ** The script that saves metadata only *)

Module MetadataOnly.
Import JS.

Section Episodes.
Variable Number_toString : number -> string.

(** [saveMetadata(episode)]: the data folder afterwards.  A failing
    write is caught and logged. *)
Definition saveMetadata (data : list node)
           (episode : Download.PodcastEpisode) : list node :=
  let sanitizedTitle :=
    DownloadMetadata.sanitizedTitle (Download.feedTitle episode) in
  let metadata := Download.metadataName Number_toString episode in
  match Download.open_directory data sanitizedTitle with
  | None => data
  | Some files =>
      if existsSync files metadata then
        Download.store_directory data sanitizedTitle files
      else
        match
          Transcribe.writeFileSync files metadata
            (Document (Download.episode_json episode))
        with
        | Returned files' =>
            Download.store_directory data sanitizedTitle files'
        | Thrown _ => Download.store_directory data sanitizedTitle files
        end
  end.

(** [saveEpisodesMetadata(episodes)] *)
Definition saveEpisodesMetadata (episodes : list Download.PodcastEpisode)
           (data : list node) : list node :=
  fold_left saveMetadata episodes data.
End Episodes.

End MetadataOnly.

(** ** The script that downloads audio under the episode title *)

Module DownloadByTitle.
Import JS.

Definition audioName (episode : Download.PodcastEpisode) : string :=
  let sanitizedEpisodeTitle :=
    DownloadMetadata.sanitizedTitle (Download.title episode) in
  sanitizedEpisodeTitle +:+ ".mp3".

Section Episodes.
Variable fetch : string -> Download.fetched.

(** [downloadEpisode(episode)]: the data folder afterwards and the
    URLs fetched.  Every failure of the fetch or of the write is
    caught and logged. *)
Definition downloadEpisode (data : list node)
           (episode : Download.PodcastEpisode) : list node * list string :=
  let sanitizedTitle :=
    DownloadMetadata.sanitizedTitle (Download.feedTitle episode) in
  let url := Download.enclosureUrl episode in
  match Download.open_directory data sanitizedTitle with
  | None => (data, [url])
  | Some files =>
      if existsSync files (audioName episode) then
        (Download.store_directory data sanitizedTitle files, [])
      else
        match fetch url with
        | Download.Body bytes =>
            match
              Transcribe.writeFileSync files (audioName episode) (Text bytes)
            with
            | Returned files' =>
                (Download.store_directory data sanitizedTitle files', [url])
            | Thrown _ =>
                (Download.store_directory data sanitizedTitle files, [url])
            end
        | _ => (Download.store_directory data sanitizedTitle files, [url])
        end
  end.
End Episodes.

End DownloadByTitle.

(* ===================================================================== *)
(** * Part II: properties                                                 *)
(* ===================================================================== *)

Import JS.

(** ** The embedded fragment on concrete inputs *)

Example parse_name_examples :
  parse_name "42.json" = "42"
  /\ parse_name "42_transcript.json" = "42_transcript"
  /\ parse_name "a.b.json" = "a.b"
  /\ parse_name ".json" = ".json"
  /\ parse_name ".." = ".."
  /\ parse_name "README" = "README".
Proof. by vm_compute. Qed.

Example replace_examples :
  replace "42_transcript.json" "_transcript.json" "_transcript_labeled.json"
    = "42_transcript_labeled.json"
  /\ replace "a-b-a" "a" "x" = "x-b-a"
  /\ replace "42.json" "_transcript.json" ".json" = "42.json".
Proof. by vm_compute. Qed.

Example split_examples :
  split ":" "12:60" = ["12"; "60"]
  /\ split ":" "1260" = ["1260"]
  /\ split ":" ":" = [""; ""]
  /\ split ":" "" = [""].
Proof. by vm_compute. Qed.

Example endsWith_examples :
  endsWith "42_transcript.json" "_transcript.json" = true
  /\ endsWith "42_transcript_labeled.json" "_transcript.json" = false
  /\ endsWith "42.json" ".json" = true
  /\ endsWith "json" ".json" = false.
Proof. by vm_compute. Qed.

Example ToString_examples (Number_toString : number -> string) :
  ToString Number_toString (Some (JArr [JStr "5:00"])) = Returned "5:00"
  /\ ToString Number_toString (Some (JArr [JStr "5"; JNull; JStr "00"]))
     = Returned "5,,00"
  /\ ToString Number_toString (Some (JObj [("a", JNull)]))
     = Returned "[object Object]"
  /\ ToString Number_toString None = Returned "undefined".
Proof. by vm_compute. Qed.

Example numPodcasts_examples :
  Transcribe.numPodcasts None = 1%Z
  /\ Transcribe.numPodcasts (Some "5") = 5%Z
  /\ Transcribe.numPodcasts (Some "12px") = 12%Z
  /\ Transcribe.numPodcasts (Some "0") = 1%Z
  /\ Transcribe.numPodcasts (Some "many") = 1%Z.
Proof. by vm_compute. Qed.

Example sanitizedTitle_examples :
  DownloadMetadata.sanitizedTitle "Muscle Nerds" = "muscle_nerds"
  /\ DownloadMetadata.sanitizedTitle "The Q&A -- Show!" = "the_q_a____show_".
Proof. by vm_compute. Qed.

(** ** Strings *)

Lemma append_cons (c : ascii) (a b : string) :
  String c a +:+ b = String c (a +:+ b).
Proof. reflexivity. Qed.

Lemma append_nil_l (s : string) : "" +:+ s = s.
Proof. reflexivity. Qed.

Lemma append_nil_r (s : string) : s +:+ "" = s.
Proof.
  induction s as [|c s IH]; [reflexivity|]. by rewrite append_cons, IH.
Qed.

Lemma append_assoc (a b c : string) : (a +:+ b) +:+ c = a +:+ (b +:+ c).
Proof.
  induction a as [|x a IH]; [reflexivity|]. by rewrite !append_cons, IH.
Qed.

Lemma length_append (a b : string) :
  String.length (a +:+ b) = String.length a + String.length b.
Proof.
  induction a as [|x a IH]; [reflexivity|].
  rewrite append_cons. cbn [String.length]. by rewrite IH.
Qed.

Lemma length_map_string f (s : string) :
  String.length (map_string f s) = String.length s.
Proof. induction s as [|c s IH]; [reflexivity|]. cbn. by rewrite IH. Qed.

(** ** Directory naming (download-metadata.ts) *)

Lemma lower_char_underscore : lower_char "_"%char = "_"%char.
Proof. reflexivity. Qed.

(** C8, as the code has it: the directory name replaces every
    non-alphanumeric character of the feed title by its own underscore
    and lowercases the others, position by position; its length is the
    length of the title, so a run of k such characters gives k
    underscores and is not collapsed. *)
Theorem sanitizedTitle_per_character (feedTitle : string) :
  DownloadMetadata.sanitizedTitle feedTitle
    = map_string Observed.sanitize_char feedTitle
  /\ String.length (DownloadMetadata.sanitizedTitle feedTitle)
     = String.length feedTitle.
Proof.
  assert (H : DownloadMetadata.sanitizedTitle feedTitle
              = map_string Observed.sanitize_char feedTitle).
  { unfold DownloadMetadata.sanitizedTitle, toLowerCase.
    induction feedTitle as [|c s IH]; [reflexivity|].
    cbn [replace_class map_string]. unfold Observed.sanitize_char at 1.
    destruct (is_alnum c) eqn:E; cbn [negb].
    - cbn [map_string]. by rewrite IH.
    - rewrite append_cons, append_nil_l. cbn [map_string].
      rewrite lower_char_underscore. f_equal. exact IH. }
  split; [exact H|]. rewrite H. apply length_map_string.
Qed.

(** C8, as stated, fails: two adjacent non-alphanumeric characters give
    two underscores, where collapsing the run would give one. *)
Lemma sanitizedTitle_keeps_runs :
  DownloadMetadata.sanitizedTitle "Q & A"
    <> Documented.directory_name "Q & A".
Proof. vm_compute. discriminate. Qed.

(** ** Validation of episode metadata (index.ts) *)

Lemma missing_or_not_number (v : value) :
  Index.missing_or_not "number" v = negb (Observed.nonzero_number v).
Proof.
  unfold Index.missing_or_not, Index.is_type, Observed.nonzero_number.
  destruct v as [[ |b|n|t|l|o]|];
    cbn [typeof String.eqb Ascii.eqb Bool.eqb negb];
    rewrite ?orb_false_r, ?orb_true_r; reflexivity.
Qed.

Lemma missing_or_not_string (v : value) :
  Index.missing_or_not "string" v = negb (Documented.is_nonempty_string v).
Proof.
  unfold Index.missing_or_not, Index.is_type, Documented.is_nonempty_string.
  destruct v as [[ |b|n|t|l|o]|];
    cbn [typeof String.eqb Ascii.eqb Bool.eqb negb];
    rewrite ?orb_false_r, ?orb_true_r; reflexivity.
Qed.

Lemma present_and_not_number (v : value) :
  Index.present_and_not "number" v = negb (Observed.number_or_falsy v).
Proof.
  unfold Index.present_and_not, Index.is_type, Observed.number_or_falsy.
  destruct v as [[ |b|n|t|l|o]|];
    cbn [typeof String.eqb Ascii.eqb Bool.eqb negb];
    rewrite ?andb_false_r, ?andb_true_r, ?negb_involutive; reflexivity.
Qed.

Lemma push_if_when_violated (ok : bool) (message : string)
      (errors : list string) :
  Index.push_if (negb ok) message errors
    = errors ++ Observed.when_violated ok message.
Proof. destruct ok; cbn; [by rewrite app_nil_r | reflexivity]. Qed.

(** C6, as the code has it: on a JSON object [validateEpisodeData]
    succeeds exactly when [id] is a number other than 0, [title] is a
    non-empty string, and each of [datePublished], [dateCrawled],
    [duration], [episode] is a number or a falsy value (absent, null,
    false, the empty string); the error list holds one message for each
    requirement that is violated, in this order, and the data is
    returned exactly on success. *)
Theorem validateEpisodeData_requirements (props : list (string * json)) :
  let raw := JObj props in
  let result := Index.validateEpisodeData raw in
  let id_ok := Observed.nonzero_number (get raw "id") in
  let title_ok := Documented.is_nonempty_string (get raw "title") in
  let published_ok := Observed.number_or_falsy (get raw "datePublished") in
  let crawled_ok := Observed.number_or_falsy (get raw "dateCrawled") in
  let duration_ok := Observed.number_or_falsy (get raw "duration") in
  let episode_ok := Observed.number_or_falsy (get raw "episode") in
  Index.errors result
    = Observed.when_violated id_ok
        "Missing or invalid id (must be a number)"
      ++ Observed.when_violated title_ok
           "Missing or invalid title (must be a string)"
      ++ Observed.when_violated published_ok
           "Invalid datePublished (must be a number)"
      ++ Observed.when_violated crawled_ok
           "Invalid dateCrawled (must be a number)"
      ++ Observed.when_violated duration_ok
           "Invalid duration (must be a number)"
      ++ Observed.when_violated episode_ok
           "Invalid episode (must be a number)"
  /\ Index.isValid result
     = id_ok && title_ok && published_ok && crawled_ok
       && duration_ok && episode_ok
  /\ Index.data result
     = if Index.isValid result then Some raw else None.
Proof.
  cbv zeta. unfold Index.validateEpisodeData.
  change (negb (truthy (Some (JObj props)))
          || negb (Index.is_type "object" (Some (JObj props))))
    with false.
  cbv iota zeta.
  rewrite missing_or_not_number, missing_or_not_string,
    !present_and_not_number, !push_if_when_violated.
  cbn [Index.errors Index.isValid Index.data].
  destruct (Observed.nonzero_number _), (Documented.is_nonempty_string _),
    (Observed.number_or_falsy (get _ "datePublished")),
    (Observed.number_or_falsy (get _ "dateCrawled")),
    (Observed.number_or_falsy (get _ "duration")),
    (Observed.number_or_falsy (get _ "episode")); by cbn.
Qed.

(** C6, as stated, fails: an [id] that is a number but not an integer
    is accepted. *)
Lemma validateEpisodeData_accepts_fraction :
  let raw :=
    JObj [("id", JNum (Finite (3 # 2))); ("title", JStr "Episode")] in
  Index.isValid (Index.validateEpisodeData raw) = true
  /\ Documented.episode_requirements raw = false.
Proof. by vm_compute. Qed.

(** ** Loading artifacts (label-speakers.ts) *)

(** C9, as the code has it: [loadEpisodeMetadata] returns [null] and
    [loadTranscript] returns the empty array both when the file is
    missing and when it exists but does not parse; the two situations
    differ only in the line written to the console. *)
Theorem load_missing_or_malformed (directory : string)
        (missing malformed : list node) (file text : string) :
  entry missing file = None ->
  entry malformed file = Some (File file (Text text)) ->
  (LabelSpeakers.loadEpisodeMetadata directory missing file).1 = JNull
  /\ (LabelSpeakers.loadEpisodeMetadata directory malformed file).1 = JNull
  /\ (LabelSpeakers.loadTranscript directory missing file).1 = JArr []
  /\ (LabelSpeakers.loadTranscript directory malformed file).1 = JArr []
  /\ (LabelSpeakers.loadEpisodeMetadata directory missing file).2
     <> (LabelSpeakers.loadEpisodeMetadata directory malformed file).2
  /\ (LabelSpeakers.loadTranscript directory missing file).2
     <> (LabelSpeakers.loadTranscript directory malformed file).2.
Proof.
  intros Hmissing Hmalformed.
  unfold LabelSpeakers.loadEpisodeMetadata, LabelSpeakers.loadTranscript.
  rewrite Hmissing, Hmalformed. cbn [fst snd].
  repeat split; try reflexivity.
  - intros H. injection H as H. discriminate H.
  - intros H. injection H as H. discriminate H.
Qed.

Lemma load_missing_or_malformed_witness :
  entry [] "42.json" = None
  /\ entry [File "42.json" (Text "{")] "42.json"
     = Some (File "42.json" (Text "{"))
  /\ (LabelSpeakers.loadEpisodeMetadata "data/show" [] "42.json").1 = JNull
  /\ (LabelSpeakers.loadEpisodeMetadata "data/show"
        [File "42.json" (Text "{")] "42.json").1 = JNull.
Proof.
  split; [reflexivity|]. split; [reflexivity|].
  pose proof (load_missing_or_malformed "data/show" []
                [File "42.json" (Text "{")] "42.json" "{"
                eq_refl eq_refl) as H.
  split; [exact (proj1 H) | exact (proj1 (proj2 H))].
Defined.

(** C9, as stated, fails: a directory without the file and a directory
    where the file holds text that is not JSON give the same result. *)
Lemma missing_and_malformed_same_result :
  let missing := [File "42.mp3" (Text "ID3")] in
  let malformed := [File "42.mp3" (Text "ID3"); File "42.json" (Text "{")] in
  existsSync missing "42.json" = false
  /\ existsSync malformed "42.json" = true
  /\ (LabelSpeakers.loadEpisodeMetadata "data/show" missing "42.json").1
     = (LabelSpeakers.loadEpisodeMetadata "data/show" malformed "42.json").1
  /\ (LabelSpeakers.loadTranscript "data/show" missing "42.json").1
     = (LabelSpeakers.loadTranscript "data/show" malformed "42.json").1.
Proof. by vm_compute. Qed.

(** ** Speaker labeling (label-speakers.ts) *)

Section Labeling.
Import LabelSpeakers.

Lemma elem_of_distinct (xs seen : list string) (x : string) :
  x ∈ distinct seen xs <-> x ∈ xs /\ x ∉ seen.
Proof.
  revert seen. induction xs as [|y xs IH]; intros seen; cbn [distinct].
  - split; [intros H; inversion H | intros [H _]; inversion H].
  - case_bool_decide as Hy.
    + rewrite IH, elem_of_cons. split.
      * intros [H1 H2]. split; [by right | done].
      * intros [[->|H1] H2]; [by destruct H2 | auto].
    + rewrite !elem_of_cons, IH, elem_of_cons. split.
      * intros [->|[H1 H2]]; [split; [by left | done]|].
        split; [by right|]. intros H. apply H2. by right.
      * intros [[->|H1] H2]; [by left|].
        destruct (decide (x = y)) as [->|Hne]; [by left|].
        right. split; [done|]. by intros [?|?].
Qed.

Lemma elem_of_uniqueSpeakers (transcript : list TranscriptSegment)
      (token : string) :
  token ∈ uniqueSpeakers transcript <-> token ∈ map speaker transcript.
Proof.
  unfold uniqueSpeakers. rewrite elem_of_distinct. split.
  - by intros [H _].
  - intros H. split; [done|]. intros H'. inversion H'.
Qed.

(** The [forEach] that fills the gaps of the parsed mapping. *)
Lemma ensure_all_lookup (speakers : list string) (m : SpeakerMapping)
      (token : string) :
  fold_left
    (fun m speaker =>
       if unresolved m speaker
       then <[speaker := "Unknown Speaker"]> m else m)
    speakers m !! token
  = if bool_decide (token ∈ speakers) && unresolved m token
    then Some "Unknown Speaker" else m !! token.
Proof.
  revert m. induction speakers as [|a l IH]; intros m; cbn [fold_left].
  - rewrite bool_decide_eq_false_2; [done | by intros H; inversion H].
  - rewrite IH. destruct (decide (token = a)) as [->|Hne].
    + rewrite (bool_decide_eq_true_2 (a ∈ a :: l)) by apply list_elem_of_here.
      cbn [andb]. destruct (unresolved m a) eqn:Hu.
      * unfold unresolved at 1. rewrite lookup_insert_eq. cbn.
        by rewrite andb_false_r.
      * by rewrite Hu, andb_false_r.
    + assert (Hsame :
                forall m' : SpeakerMapping,
                  m' = (if unresolved m a
                        then <[a := "Unknown Speaker"]> m else m) ->
                  m' !! token = m !! token).
      { intros m' ->. destruct (unresolved m a); [|done].
        by rewrite lookup_insert_ne. }
      unfold unresolved at 1. rewrite (Hsame _ eq_refl).
      fold (unresolved m token).
      destruct (decide (token ∈ l)) as [Hin|Hnin].
      * rewrite !bool_decide_eq_true_2; [done | by right | done].
      * rewrite !bool_decide_eq_false_2; [done | | done].
        intros H. apply elem_of_cons in H as [?|?]; contradiction.
Qed.

(** The fallback mapping built in the [catch] block. *)
Lemma fromEntries_lookup (speakers : list string) (m : SpeakerMapping)
      (token : string) :
  fold_left (fun m kv => <[kv.1 := kv.2]> m)
            (map (fun speaker => (speaker, "Unknown Speaker")) speakers) m
    !! token
  = if bool_decide (token ∈ speakers)
    then Some "Unknown Speaker" else m !! token.
Proof.
  revert m. induction speakers as [|a l IH]; intros m;
    cbn [fold_left map fst snd].
  - rewrite bool_decide_eq_false_2; [done | by intros H; inversion H].
  - rewrite IH. destruct (decide (token ∈ l)) as [Hin|Hnin].
    + rewrite !bool_decide_eq_true_2; [done | by right | done].
    + rewrite (bool_decide_eq_false_2 (token ∈ l)) by done.
      destruct (decide (token = a)) as [->|Hne].
      * rewrite lookup_insert_eq, bool_decide_eq_true_2; [done|by left].
      * rewrite lookup_insert_ne by done.
        rewrite bool_decide_eq_false_2; [done|].
        intros H. apply elem_of_cons in H as [?|?]; contradiction.
Qed.





(** No segment written by the labeling stage carries the empty
    label. *)
Lemma labelTranscript_labels_nonempty
      (transcript : list TranscriptSegment) (m : SpeakerMapping) :
  Forall (fun l => Labeled.labeledSpeaker l <> Label "")
         (labelTranscript transcript m).
Proof.
  unfold labelTranscript. apply Forall_forall. intros l Hl.
  apply list_elem_of_In, in_map_iff in Hl as (seg & <- & _).
  cbn. unfold label_of. destruct (m !! speaker seg) as [label|].
  - destruct (String.eqb label "") eqn:He; [done|].
    intros [= ->]. discriminate He.
  - by destruct (inherited (speaker seg)).
Qed.

(** C10: the labeled transcript has the length and the order of the
    input, and each labeled segment has the [speaker],
    [timestampFrom], [timestampTo] and [content] of the input segment
    at the same index; what is new is the [labeledSpeaker] field, the
    label of the segment's speaker. *)
Theorem labelTranscript_preserves_segments
        (transcript : list TranscriptSegment) (m : SpeakerMapping) :
  length (labelTranscript transcript m) = length transcript
  /\ map Observed.unlabeled (labelTranscript transcript m) = transcript
  /\ (forall i : nat,
        Labeled.speaker <$> labelTranscript transcript m !! i
          = speaker <$> transcript !! i
        /\ Labeled.timestampFrom <$> labelTranscript transcript m !! i
           = timestampFrom <$> transcript !! i
        /\ Labeled.timestampTo <$> labelTranscript transcript m !! i
           = timestampTo <$> transcript !! i
        /\ Labeled.content <$> labelTranscript transcript m !! i
           = content <$> transcript !! i
        /\ Labeled.labeledSpeaker <$> labelTranscript transcript m !! i
           = (fun s => label_of m (speaker s)) <$> transcript !! i).
Proof.
  unfold labelTranscript. split; [apply length_map|]. split.
  - induction transcript as [|[a b c d] l IH]; [reflexivity|].
    cbn [map]. rewrite IH. reflexivity.
  - intros i. revert i.
    induction transcript as [|seg l IH]; intros i; [by destruct i|].
    destruct i as [|i]; [by cbn|]. cbn [map]. apply (IH i).
Qed.
End Labeling.

(** ** Regular expressions: the matcher against the language *)

Lemma append_eq_nil (a b : string) : a +:+ b = "" -> a = "" /\ b = "".
Proof.
  destruct a; [rewrite append_nil_l; by intros ->|].
  rewrite append_cons. discriminate.
Qed.

Lemma nullable_lang (r : regex) : nullable r = true <-> lang r "".
Proof.
  split.
  - induction r as [ | |p|r1 IH1 r2 IH2|r1 IH1 r2 IH2|r IH]; cbn [nullable];
      intros H; try discriminate.
    + constructor.
    + apply andb_true_iff in H as [H1 H2].
      change "" with ("" +:+ ""). constructor; auto.
    + apply orb_true_iff in H as [H|H];
        [apply lang_alt_l | apply lang_alt_r]; auto.
    + constructor.
  - intros H. remember "" as s eqn:Hs.
    induction H as [ |p c Hp|r1 r2 s1 s2 H1 IH1 H2 IH2|r1 r2 s H IH
                   |r1 r2 s H IH| |r s1 s2 H1 IH1 H2 IH2];
      cbn [nullable]; try reflexivity; try discriminate.
    + apply append_eq_nil in Hs as [-> ->]. by rewrite IH1, IH2.
    + by rewrite IH.
    + rewrite IH by done. apply orb_true_r.
Qed.

Lemma deriv_sound (c : ascii) (r : regex) (s : string) :
  lang (deriv c r) s -> lang r (String c s).
Proof.
  revert s.
  induction r as [ | |p|r1 IH1 r2 IH2|r1 IH1 r2 IH2|r IH]; intros s;
    cbn [deriv]; intros H.
  - inversion H.
  - inversion H.
  - destruct (p c) eqn:Hp; inversion H; subst. by constructor.
  - assert (Hleft : lang (Seq (deriv c r1) r2) s ->
                    lang (Seq r1 r2) (String c s)).
    { intros H'. inversion H' as [ | |? ? s1 s2 Ha Hb| | | | ]; subst.
      rewrite <- append_cons. constructor; auto. }
    destruct (nullable r1) eqn:Hn; [|by apply Hleft].
    inversion H as [ | | |? ? ? Ha|? ? ? Ha| | ]; subst; [by apply Hleft|].
    change (String c s) with ("" +:+ String c s).
    constructor; [by apply nullable_lang | by apply IH2].
  - inversion H as [ | | |? ? ? Ha|? ? ? Ha| | ]; subst;
      [apply lang_alt_l | apply lang_alt_r]; auto.
  - inversion H as [ | |? ? s1 s2 Ha Hb| | | | ]; subst.
    rewrite <- append_cons. constructor; auto.
Qed.

Lemma deriv_complete (r : regex) (s0 : string) :
  lang r s0 -> forall (c : ascii) (s : string),
    s0 = String c s -> lang (deriv c r) s.
Proof.
  induction 1 as [ |p c' Hp|r1 r2 s1 s2 H1 IH1 H2 IH2|r1 r2 s' H IH
                 |r1 r2 s' H IH| |r s1 s2 H1 IH1 H2 IH2];
    intros c s Hs; cbn [deriv].
  - discriminate.
  - injection Hs as -> <-. rewrite Hp. constructor.
  - destruct s1 as [|c1 s1].
    + rewrite append_nil_l in Hs. subst s2.
      apply nullable_lang in H1. rewrite H1.
      apply lang_alt_r. by apply IH2.
    + rewrite append_cons in Hs. injection Hs as -> <-.
      assert (lang (Seq (deriv c r1) r2) (s1 +:+ s2))
        by (constructor; [by apply IH1 | done]).
      destruct (nullable r1); [by apply lang_alt_l | done].
  - apply lang_alt_l. by apply IH.
  - apply lang_alt_r. by apply IH.
  - discriminate.
  - destruct s1 as [|c1 s1].
    + rewrite append_nil_l in Hs. by apply IH2.
    + rewrite append_cons in Hs. injection Hs as -> <-.
      constructor; [by apply IH1 | done].
Qed.

Lemma matches_lang (r : regex) (s : string) :
  matches r s = true <-> lang r s.
Proof.
  revert r. induction s as [|c s IH]; intros r; cbn [matches].
  - apply nullable_lang.
  - rewrite IH. split; [apply deriv_sound|].
    intros H. by apply (deriv_complete _ _ H).
Qed.

Lemma lang_class_inv (p : ascii -> bool) (s : string) :
  lang (Class p) s <-> exists c, s = String c "" /\ p c = true.
Proof.
  split.
  - intros H. inversion H; subst. eauto.
  - intros (c & -> & Hp). by constructor.
Qed.

Lemma lang_seq_inv (r1 r2 : regex) (s : string) :
  lang (Seq r1 r2) s
  <-> exists s1 s2, s = s1 +:+ s2 /\ lang r1 s1 /\ lang r2 s2.
Proof.
  split.
  - intros H. inversion H; subst. eauto.
  - intros (s1 & s2 & -> & H1 & H2). by constructor.
Qed.

Lemma all_digits_append (a b : string) :
  all_digits (a +:+ b) = all_digits a && all_digits b.
Proof.
  induction a as [|c a IH]; [reflexivity|].
  rewrite append_cons. cbn [all_digits]. by rewrite IH, andb_assoc.
Qed.

Lemma lang_star_digits (s : string) :
  lang (Star (Class is_digit)) s <-> all_digits s = true.
Proof.
  split.
  - intros H. remember (Star (Class is_digit)) as r eqn:Hr.
    induction H as [ | | | | | |r s1 s2 H1 IH1 H2 IH2]; try discriminate.
    + reflexivity.
    + injection Hr as ->. apply lang_class_inv in H1 as (c & -> & Hc).
      rewrite all_digits_append. cbn [all_digits].
      by rewrite Hc, IH2.
  - induction s as [|c s IH]; cbn [all_digits]; intros H; [constructor|].
    apply andb_true_iff in H as [Hc Hs].
    change (String c s) with (String c "" +:+ s).
    constructor; [by constructor | auto].
Qed.

Lemma lang_plus_digits (s : string) :
  lang (Plus (Class is_digit)) s <-> s <> "" /\ all_digits s = true.
Proof.
  unfold Plus. rewrite lang_seq_inv. split.
  - intros (s1 & s2 & -> & H1 & H2).
    apply lang_class_inv in H1 as (c & -> & Hc).
    apply lang_star_digits in H2. rewrite append_cons, append_nil_l.
    split; [discriminate|]. cbn [all_digits]. by rewrite Hc, H2.
  - intros [Hne H]. destruct s as [|c s]; [done|].
    cbn [all_digits] in H. apply andb_true_iff in H as [Hc Hs].
    exists (String c ""), s. split; [reflexivity|].
    split; [by constructor | by apply lang_star_digits].
Qed.

(** The regular expression of the validator recognises exactly the
    documented shape. *)
Lemma timestampRegex_shape (ts : string) :
  matches Index.timestampRegex ts = true <-> Documented.timestamp_shape ts.
Proof.
  rewrite matches_lang. unfold Index.timestampRegex, Documented.timestamp_shape.
  rewrite lang_seq_inv. split.
  - intros (minutes & rest & -> & Hm & Hrest).
    apply lang_plus_digits in Hm as [Hne Hm].
    apply lang_seq_inv in Hrest as (colon & rest2 & -> & Hcolon & Hrest).
    apply lang_class_inv in Hcolon as (c & -> & Hc).
    apply Ascii.eqb_eq in Hc as <-.
    apply lang_seq_inv in Hrest as (a & b & -> & Ha & Hb).
    apply lang_class_inv in Ha as (d1 & -> & H1).
    apply lang_class_inv in Hb as (d2 & -> & H2).
    exists minutes, d1, d2. repeat split; done.
  - intros (minutes & d1 & d2 & Hne & Hm & H1 & H2 & ->).
    exists minutes, (String ":" (String d1 (String d2 ""))).
    split; [reflexivity|]. split; [by apply lang_plus_digits|].
    apply lang_seq_inv. exists (String ":" ""), (String d1 (String d2 "")).
    split; [reflexivity|]. split.
    { constructor. apply Ascii.eqb_refl. }
    apply lang_seq_inv. exists (String d1 ""), (String d2 "").
    split; [reflexivity|]. split; by constructor.
Qed.

(** ** Validation of transcripts (index.ts) *)

Lemma digit_not_colon (c : ascii) :
  is_digit c = true -> Ascii.eqb c ":"%char = false.
Proof.
  intros H. destruct (Ascii.eqb c ":"%char) eqn:E; [|reflexivity].
  apply Ascii.eqb_eq in E. subst c. discriminate H.
Qed.

Lemma split_digits (s : string) :
  all_digits s = true -> split ":"%char s = [s].
Proof.
  induction s as [|c s IH]; [reflexivity|]. cbn [all_digits split].
  intros H. apply andb_true_iff in H as [Hc Hs].
  by rewrite (digit_not_colon c Hc), (IH Hs).
Qed.

Lemma split_digits_colon (minutes rest : string) :
  all_digits minutes = true ->
  split ":"%char (minutes +:+ String ":"%char rest)
    = minutes :: split ":"%char rest.
Proof.
  induction minutes as [|c m IH]; intros H.
  - rewrite append_nil_l. cbn [split]. by rewrite Ascii.eqb_refl.
  - cbn [all_digits] in H. apply andb_true_iff in H as [Hc Hm].
    rewrite append_cons. cbn [split].
    by rewrite (digit_not_colon c Hc), (IH Hm).
Qed.

Lemma list_ascii_append (a b : string) :
  list_ascii_of_string (a +:+ b)
    = list_ascii_of_string a ++ list_ascii_of_string b.
Proof.
  induction a as [|c a IH]; [reflexivity|].
  rewrite append_cons. cbn [list_ascii_of_string]. by rewrite IH.
Qed.

Lemma number_ge_60 (v : Z) :
  number_ge (Finite (inject_Z v)) (Finite 60) = (60 <=? v)%Z.
Proof.
  unfold number_ge, Qle_bool, inject_Z. cbn [Qnum Qden].
  by rewrite !Z.mul_1_r.
Qed.

(** Past the regular expression, the seconds compared with 60 are the
    two digits after the colon. *)
Lemma shape_seconds (ts : string) :
  Documented.timestamp_shape ts ->
  number_ge (Index.second_number (split ":"%char ts)) (Finite 60)
    = (60 <=? Documented.seconds_of ts)%Z.
Proof.
  intros (minutes & d1 & d2 & Hne & Hm & H1 & H2 & ->).
  rewrite split_digits_colon by done.
  rewrite split_digits by (cbn [all_digits]; by rewrite H1, H2).
  unfold Index.second_number, Number_of_string. cbn [all_digits].
  rewrite H1, H2. cbn [andb]. rewrite number_ge_60.
  unfold Documented.seconds_of.
  rewrite list_ascii_append. cbn [list_ascii_of_string].
  rewrite rev_app_distr. cbn [rev app digits_value].
  f_equal; lia.
Qed.

Lemma timestamp_ok_valid (ts : string) :
  Observed.timestamp_ok ts = true <-> Documented.valid_timestamp ts.
Proof.
  unfold Observed.timestamp_ok, Documented.valid_timestamp.
  rewrite andb_true_iff, timestampRegex_shape, negb_true_iff.
  split; intros [Hshape H]; (split; [done|]);
    rewrite (shape_seconds ts Hshape) in *; lia.
Qed.

Section TranscriptValidation.
Variable Number_toString : number -> string.
Variable JSON_stringify : json -> string.

Let check_timestamp := Index.check_timestamp Number_toString JSON_stringify.
Let check_entry := Index.check_entry Number_toString JSON_stringify.
Let validateTranscriptData :=
  Index.validateTranscriptData Number_toString JSON_stringify.
Let timestamp_messages := Observed.timestamp_messages JSON_stringify.

Lemma check_timestamp_string (index : nat) (field ts : string)
      (entry : json) (errors : list string) :
  get entry field = Some (JStr ts) ->
  check_timestamp index field entry errors
    = Returned (errors ++ timestamp_messages index field ts entry).
Proof.
  intros Hget. unfold check_timestamp, Index.check_timestamp,
    timestamp_messages, Observed.timestamp_messages.
  rewrite Hget. cbn [ToString ToString_json bind].
  destruct (matches Index.timestampRegex ts); cbn [negb]; [|reflexivity].
  cbn [Index.call_split bind].
  rewrite <- (negb_involutive (number_ge _ _)) at 1.
  by rewrite push_if_when_violated.
Qed.

Lemma timestamp_messages_nil (index : nat) (field ts : string)
      (entry : json) :
  timestamp_messages index field ts entry = []
  <-> Observed.timestamp_ok ts = true.
Proof.
  unfold timestamp_messages, Observed.timestamp_messages,
    Observed.timestamp_ok.
  destruct (matches Index.timestampRegex ts); cbn [andb].
  - destruct (number_ge _ _); cbn; split; done.
  - split; discriminate.
Qed.

(** C3: a transcript entry made of four strings is accepted exactly
    when speaker and content are not empty and both timestamps consist
    of digits, a colon and exactly two digits that denote a number of
    seconds below 60; "12:60" is rejected, "5:00" and "119:59" are
    accepted. *)
Theorem validateTranscriptData_timestamp_boundary :
  (forall speaker timestampFrom timestampTo content : string,
      exists result,
        validateTranscriptData
          (JArr [Observed.segment_json speaker timestampFrom
                                       timestampTo content])
        = Returned result
        /\ (Index.isValid result = true
            <-> speaker <> "" /\ content <> ""
                /\ Documented.valid_timestamp timestampFrom
                /\ Documented.valid_timestamp timestampTo))
  /\ (exists result,
        validateTranscriptData
          (JArr [Observed.segment_json "Speaker 0" "12:60" "13:10" "Hi"])
        = Returned result
        /\ Index.isValid result = false)
  /\ (exists result,
        validateTranscriptData
          (JArr [Observed.segment_json "Speaker 0" "5:00" "119:59" "Hi"])
        = Returned result
        /\ Index.isValid result = true)
  /\ ~ Documented.valid_timestamp "12:60"
  /\ Documented.valid_timestamp "5:00"
  /\ Documented.valid_timestamp "119:59".
Proof.
  split; [|split; [|split; [|split; [|split]]]].
  - intros sp f t c.
    set (e := Observed.segment_json sp f t c).
    unfold validateTranscriptData, Index.validateTranscriptData.
    cbn [Index.forEach_entry].
    unfold Index.check_entry.
    change (negb (truthy (Some e)) || negb (Index.is_type "object" (Some e)))
      with false.
    cbv iota.
    rewrite !missing_or_not_string, !push_if_when_violated.
    fold check_timestamp.
    rewrite (check_timestamp_string 0 "timestampFrom" f e) by reflexivity.
    cbn [bind].
    rewrite (check_timestamp_string 0 "timestampTo" t e) by reflexivity.
    cbn [bind]. eexists. split; [reflexivity|].
    cbn [Index.isValid].
    rewrite Nat.eqb_eq, length_zero_iff_nil.
    rewrite <- !timestamp_ok_valid,
      <- (timestamp_messages_nil 0 "timestampFrom" f e),
      <- (timestamp_messages_nil 0 "timestampTo" t e).
    change (get e "speaker") with (Some (JStr sp)).
    change (get e "timestampFrom") with (Some (JStr f)).
    change (get e "timestampTo") with (Some (JStr t)).
    change (get e "content") with (Some (JStr c)).
    cbn [Documented.is_nonempty_string].
    assert (Hne : forall x : string,
               negb (String.eqb x "") = true <-> x <> "").
    { intros x. rewrite negb_true_iff. split.
      - intros H ->. discriminate H.
      - intros H. destruct (String.eqb x "") eqn:E; [|done].
        by apply String.eqb_eq in E. }
    assert (Hshape : forall field x,
               timestamp_messages 0 field x e = [] -> x <> "").
    { intros field x H ->. discriminate H. }
    split.
    + intros H.
      apply app_eq_nil in H as [H Ht].
      apply app_eq_nil in H as [H Hf].
      apply app_eq_nil in H as [H Hc].
      apply app_eq_nil in H as [H _].
      apply app_eq_nil in H as [H _].
      apply app_eq_nil in H as [_ H].
      destruct (negb (String.eqb sp "")) eqn:Esp; [|discriminate H].
      destruct (negb (String.eqb c "")) eqn:Ec; [|discriminate Hc].
      repeat split; try done; by apply Hne.
    + intros (Hsp & Hc & Hf & Ht).
      apply Hne in Hsp, Hc.
      pose proof (Hshape _ _ Hf) as Hf'. pose proof (Hshape _ _ Ht) as Ht'.
      apply Hne in Hf', Ht'.
      by rewrite Hsp, Hc, Hf', Ht', Hf, Ht.
  - eexists. split; [by vm_compute|reflexivity].
  - eexists. split; [by vm_compute|reflexivity].
  - rewrite <- timestamp_ok_valid. by vm_compute.
  - rewrite <- timestamp_ok_valid. by vm_compute.
  - rewrite <- timestamp_ok_valid. by vm_compute.
Qed.

(** *** Accumulation of the messages *)

Lemma carries_index_missing (index : nat) (field : string) (entry : json) :
  Documented.carries_index index
    (Index.missing_message JSON_stringify index field entry).
Proof.
  right. unfold Index.missing_message.
  exists ("Missing or invalid " +:+ field +:+ Index.nl
            +:+ Index.full_entry JSON_stringify entry).
  reflexivity.
Qed.

Lemma carries_index_format (index : nat) (field shown : string)
      (entry : json) :
  Documented.carries_index index
    (Index.format_message JSON_stringify index field shown entry).
Proof.
  right. unfold Index.format_message.
  exists ("Invalid " +:+ field +:+ " format (should be MM:SS)" +:+ Index.nl
            +:+ "Timestamp: " +:+ Index.dquote +:+ shown +:+ Index.dquote
            +:+ Index.nl +:+ Index.full_entry JSON_stringify entry).
  reflexivity.
Qed.

Lemma carries_index_seconds (index : nat) (field shown : string)
      (entry : json) :
  Documented.carries_index index
    (Index.seconds_message JSON_stringify index field shown entry).
Proof.
  right. unfold Index.seconds_message.
  exists ("Invalid " +:+ field +:+ " - seconds must be less than 60"
            +:+ Index.nl
            +:+ "Timestamp: " +:+ Index.dquote +:+ shown +:+ Index.dquote
            +:+ Index.nl +:+ Index.full_entry JSON_stringify entry).
  reflexivity.
Qed.

Lemma Forall_when_violated (P : string -> Prop) (ok : bool)
      (message : string) :
  P message -> Forall P (Observed.when_violated ok message).
Proof. intros H. destruct ok; cbn; auto. Qed.

Lemma check_timestamp_appends (index : nat) (field : string) (entry : json)
      (errors errors' : list string) :
  check_timestamp index field entry errors = Returned errors' ->
  exists new : list string,
    errors' = errors ++ new
    /\ Forall (Documented.carries_index index) new.
Proof.
  unfold check_timestamp, Index.check_timestamp.
  destruct (ToString Number_toString (get entry field)) as [shown|];
    cbn [bind]; [|discriminate].
  destruct (matches Index.timestampRegex shown); cbn [negb].
  - destruct (Index.call_split field (get entry field)) as [pieces|];
      cbn [bind]; [|discriminate].
    rewrite <- (negb_involutive (number_ge _ _)), push_if_when_violated.
    intros [= <-]. eexists. split; [reflexivity|].
    apply Forall_when_violated, carries_index_seconds.
  - intros [= <-]. eexists. split; [reflexivity|].
    constructor; [apply carries_index_format | constructor].
Qed.

(** What one entry adds: messages with its index, and at least one
    unless the entry is well formed. *)
Lemma check_entry_appends (index : nat) (entry : json)
      (errors errors' : list string) :
  check_entry index entry errors = Returned errors' ->
  exists new : list string,
    errors' = errors ++ new
    /\ Forall (Documented.carries_index index) new
    /\ (new = [] -> Documented.well_formed_entry entry).
Proof.
  unfold check_entry, Index.check_entry.
  destruct (negb (truthy (Some entry))
            || negb (Index.is_type "object" (Some entry))).
  { intros [= <-]. eexists. split; [reflexivity|]. split.
    - constructor; [by left | constructor].
    - discriminate. }
  rewrite !missing_or_not_string, !push_if_when_violated.
  fold check_timestamp.
  destruct (check_timestamp index "timestampFrom" entry _)
    as [errors1|] eqn:Hfrom; cbn [bind]; [|discriminate].
  intros Hto.
  apply check_timestamp_appends in Hfrom as Hfrom'.
  destruct Hfrom' as (new1 & -> & Hnew1).
  apply check_timestamp_appends in Hto as Hto'.
  destruct Hto' as (new2 & -> & Hnew2).
  rewrite <- !app_assoc. eexists. split; [reflexivity|]. split.
  { repeat (apply Forall_app; split); try done;
      apply Forall_when_violated, carries_index_missing. }
  intros Hnil.
  apply app_eq_nil in Hnil as [Hsp Hnil].
  apply app_eq_nil in Hnil as [Hf Hnil].
  apply app_eq_nil in Hnil as [Ht Hnil].
  apply app_eq_nil in Hnil as [Hc Hnil].
  apply app_eq_nil in Hnil as [-> ->].
  assert (Hstr : forall v message,
             Observed.when_violated (Documented.is_nonempty_string v)
                                    message = [] ->
             exists x : string, v = Some (JStr x) /\ x <> "").
  { intros v message H.
    destruct v as [[ | | |x| | ]|]; try discriminate H.
    exists x. split; [done|]. intros ->. discriminate H. }
  apply Hstr in Hsp as (sp & Esp & Hsp).
  apply Hstr in Hf as (f & Ef & Hf).
  apply Hstr in Ht as (t & Et & Ht).
  apply Hstr in Hc as (c & Ec & Hc).
  rewrite (check_timestamp_string index "timestampFrom" f entry) in Hfrom
    by done.
  injection Hfrom as Hfrom. apply app_inv_head in Hfrom.
  rewrite (check_timestamp_string index "timestampTo" t entry) in Hto
    by done.
  injection Hto as Hto. apply app_inv_head in Hto.
  apply timestamp_messages_nil, timestamp_ok_valid in Hfrom, Hto.
  exists sp, f, t, c. split_and!; done.
Qed.

Lemma forEach_entry_appends (index : nat) (entries : list json)
      (errors errors' : list string) :
  Index.forEach_entry Number_toString JSON_stringify index entries errors
    = Returned errors' ->
  exists more : list string, errors' = errors ++ more.
Proof.
  revert index errors.
  induction entries as [|e rest IH]; intros index errors;
    cbn [Index.forEach_entry].
  - intros [= <-]. exists []. by rewrite app_nil_r.
  - fold check_entry.
    destruct (check_entry index e errors) as [errors1|] eqn:He;
      cbn [bind]; [|discriminate].
    intros H. apply IH in H as (more & ->).
    apply check_entry_appends in He as (new & -> & _).
    exists (new ++ more). by rewrite app_assoc.
Qed.

(** Whenever the loop over the entries completes, every entry that is
    not well formed has a message with its index. *)
Lemma forEach_entry_reports (index : nat) (entries : list json)
      (errors errors' : list string) :
  Index.forEach_entry Number_toString JSON_stringify index entries errors
    = Returned errors' ->
  forall (k : nat) (e : json),
    entries !! k = Some e ->
    ~ Documented.well_formed_entry e ->
    exists message : string,
      message ∈ errors'
      /\ Documented.carries_index (index + k) message.
Proof.
  revert index errors.
  induction entries as [|e0 rest IH]; intros index errors;
    cbn [Index.forEach_entry]; intros H k e Hk Hbad; [by destruct k|].
  fold check_entry in H.
  destruct (check_entry index e0 errors) as [errors1|] eqn:He;
    cbn [bind] in H; [|discriminate].
  destruct k as [|k].
  - injection Hk as ->.
    apply check_entry_appends in He as (new & -> & Hnew & Hok).
    apply forEach_entry_appends in H as (more & ->).
    destruct new as [|message new]; [by destruct Hbad; apply Hok|].
    exists message. rewrite Nat.add_0_r. split.
    + apply elem_of_app. left. apply elem_of_app. right. by left.
    + by inversion Hnew.
  - destruct (IH _ _ H k e Hk Hbad) as (message & Hin & Hidx).
    exists message. split; [done|].
    by replace (index + S k) with (S index + k) by lia.
Qed.

Lemma validateTranscriptData_reports (entries : list json)
      (result : Index.validation (list json)) :
  validateTranscriptData (JArr entries) = Returned result ->
  forall (k : nat) (e : json),
    entries !! k = Some e ->
    ~ Documented.well_formed_entry e ->
    exists message : string,
      message ∈ Index.errors result
      /\ Documented.carries_index k message.
Proof.
  unfold validateTranscriptData, Index.validateTranscriptData.
  destruct (Index.forEach_entry _ _ 0 entries []) as [errors|] eqn:H;
    cbn [bind]; [|discriminate].
  intros [= <-] k e Hk Hbad. cbn [Index.errors].
  exact (forEach_entry_reports 0 entries [] errors H k e Hk Hbad).
Qed.

(** The checks complete when the timestamp fields are strings or
    absent. *)
Lemma check_timestamp_plain (index : nat) (field : string) (entry : json)
      (errors : list string) :
  Observed.absent_or_string (get entry field) ->
  exists errors',
    check_timestamp index field entry errors = Returned errors'.
Proof.
  intros [H|[ts H]].
  - unfold check_timestamp, Index.check_timestamp. rewrite H.
    cbn [ToString bind].
    change (matches Index.timestampRegex "undefined") with false.
    cbn [negb]. eauto.
  - rewrite (check_timestamp_string index field ts entry) by done. eauto.
Qed.

Lemma validateTranscriptData_returns (entries : list json) :
  Forall Observed.plain_timestamps entries ->
  exists result, validateTranscriptData (JArr entries) = Returned result.
Proof.
  intros Hplain.
  assert (H : forall index errors,
             exists errors',
               Index.forEach_entry Number_toString JSON_stringify
                                   index entries errors
               = Returned errors').
  { induction Hplain as [|e rest [Hf Ht] _ IH]; intros index errors;
      cbn [Index.forEach_entry]; [eauto|].
    assert (He : exists errors1,
               check_entry index e errors = Returned errors1).
    { unfold check_entry, Index.check_entry.
      destruct (negb (truthy (Some e)) || _); [eauto|].
      fold check_timestamp.
      destruct (check_timestamp_plain index "timestampFrom" e
                  (Index.push_if
                     (Index.missing_or_not "string" (get e "content"))
                     (Index.missing_message JSON_stringify index
                                            "content" e)
                  (Index.push_if
                     (Index.missing_or_not "string" (get e "timestampTo"))
                     (Index.missing_message JSON_stringify index
                                            "timestampTo" e)
                  (Index.push_if
                     (Index.missing_or_not "string" (get e "timestampFrom"))
                     (Index.missing_message JSON_stringify index
                                            "timestampFrom" e)
                  (Index.push_if
                     (Index.missing_or_not "string" (get e "speaker"))
                     (Index.missing_message JSON_stringify index
                                            "speaker" e)
                     errors)))) Hf) as [errors1 ->].
      cbn [bind]. by apply check_timestamp_plain. }
    destruct He as [errors1 He]. fold check_entry. rewrite He.
    cbn [bind]. apply IH. }
  unfold validateTranscriptData, Index.validateTranscriptData.
  destruct (H 0 []) as [errors ->]. cbn [bind]. eauto.
Qed.

(** C4 at the failing input: the first entry has an array where the
    [timestampFrom] string belongs and the second has no field at
    all.  The array, converted to a string, passes the regular
    expression, the call of [split] on it throws, and no error list is
    returned for either entry. *)
Theorem validateTranscriptData_throws_on_array_timestamp :
  validateTranscriptData
    (JArr [ JObj [ ("speaker", JStr "Speaker 0");
                   ("timestampFrom", JArr [JStr "5:00"]);
                   ("timestampTo", JStr "5:30");
                   ("content", JStr "Welcome back.") ];
            JObj [] ])
  = Thrown "TypeError: entry.timestampFrom.split is not a function".
Proof. reflexivity. Qed.
End TranscriptValidation.

(** ** Persistence (index.ts) *)

Section Persistence.
Variable Number_toString : number -> string.
Variable episode_accepted : list (string * Index.sql) -> bool.
Variable timestamps_accepted : list (list (string * Index.sql)) -> bool.

Let insert_one :=
  Index.insert_one Number_toString episode_accepted timestamps_accepted.
Let insert_all :=
  Index.insert_all Number_toString episode_accepted timestamps_accepted.
Let insertData :=
  Index.insertData Number_toString episode_accepted timestamps_accepted.
Let settled := Observed.settled Number_toString episode_accepted.

Lemma select_episodes_app (db db' : Index.database)
      (extra : list Index.episode_row) (key : string) :
  Index.episodes db' = Index.episodes db ++ extra ->
  Index.select_episodes db key <> [] ->
  Index.select_episodes db' key <> [].
Proof.
  unfold Index.select_episodes. intros -> H. rewrite filter_app.
  intros H'. by apply app_eq_nil in H' as [? _].
Qed.

Lemma length_positive {A : Type} (l : list A) :
  (0 <? length l) = true <-> l <> [].
Proof.
  destruct l; cbn; split; done.
Qed.

(** Rows are only ever added to the episodes table. *)
Lemma insert_one_grows (item : Index.ValidatedData) (db : Index.database) :
  exists extra,
    Index.episodes (insert_one item db).1 = Index.episodes db ++ extra.
Proof.
  unfold insert_one, Index.insert_one.
  destruct (ToString _ _) as [key|]; [|exists []; by rewrite app_nil_r].
  destruct (0 <? length _); [exists []; by rewrite app_nil_r|].
  unfold Index.insert_episode.
  destruct (negb _ || _); [exists []; by rewrite app_nil_r|].
  eexists [_].
  destruct (Index.transcript item) as [ts|]; [|reflexivity].
  destruct (0 <? length ts); [|reflexivity].
  unfold Index.insert_timestamps.
  destruct (negb _); reflexivity.
Qed.

Lemma insert_all_grows (data : list Index.ValidatedData)
      (db : Index.database) :
  exists extra,
    Index.episodes (insert_all data db).1 = Index.episodes db ++ extra.
Proof.
  revert db. induction data as [|item rest IH]; intros db.
  - exists []. by rewrite app_nil_r.
  - unfold insert_all. cbn [Index.insert_all].
    fold insert_one insert_all.
    destruct (insert_one_grows item db) as [e1 H1].
    destruct (insert_one item db) as [db1 out1]. cbn [fst] in H1.
    destruct (IH db1) as [e2 H2].
    destruct (insert_all rest db1) as [db2 out2]. cbn [fst] in *.
    exists (e1 ++ e2). by rewrite H2, H1, app_assoc.
Qed.

Lemma settled_grows (db db' : Index.database)
      (extra : list Index.episode_row) (item : Index.ValidatedData) :
  Index.episodes db' = Index.episodes db ++ extra ->
  settled db item -> settled db' item.
Proof.
  unfold settled, Observed.settled. intros Hgrow.
  destruct (ToString _ _) as [key|]; [|done].
  intros [H|H]; [left | by right].
  by apply (select_episodes_app db db' extra).
Qed.

Lemma insert_one_settled (item : Index.ValidatedData)
      (db : Index.database) :
  settled db item -> (insert_one item db).1 = db.
Proof.
  unfold settled, Observed.settled, insert_one, Index.insert_one.
  destruct (ToString _ _) as [key|]; [|done].
  destruct (0 <? length _) eqn:Hlen; [done|].
  intros [H|H].
  - apply length_positive in H. congruence.
  - unfold Index.insert_episode. by rewrite H.
Qed.

Lemma insert_one_settles (item : Index.ValidatedData)
      (db : Index.database) :
  settled (insert_one item db).1 item.
Proof.
  unfold settled, Observed.settled, insert_one, Index.insert_one.
  destruct (ToString _ _) as [key|] eqn:Hkey; [|done].
  destruct (0 <? length _) eqn:Hlen.
  { left. by apply length_positive. }
  unfold Index.insert_episode.
  destruct (episode_accepted _) eqn:Hacc; cbn [negb orb]; [|by right].
  destruct (Index.select_episodes db key) eqn:Hsel; [|discriminate Hlen].
  cbn [length Nat.eqb negb]. left.
  assert (Hin : forall db1 : Index.database,
             Index.episodes db1
             = Index.episodes db
                 ++ [ {| Index.id := Index.next_episode_id db;
                         Index.externalId := key;
                         Index.episode_columns :=
                           Index.episode_values key (Index.episode item) |} ] ->
             Index.select_episodes db1 key <> []).
  { intros db1 H. unfold Index.select_episodes. rewrite H, filter_app.
    cbn [filter list_filter Index.externalId].
    rewrite decide_True by done. by destruct (filter _ _). }
  destruct (Index.transcript item) as [ts|]; [|by apply Hin].
  destruct (0 <? length ts); [|by apply Hin].
  unfold Index.insert_timestamps.
  destruct (negb _); by apply Hin.
Qed.

Lemma insert_all_settled (data : list Index.ValidatedData)
      (db : Index.database) :
  Forall (settled db) data -> (insert_all data db).1 = db.
Proof.
  induction 1 as [|item rest Hitem _ IH]; [reflexivity|].
  unfold insert_all. cbn [Index.insert_all]. fold insert_one insert_all.
  pose proof (insert_one_settled item db Hitem) as H1.
  destruct (insert_one item db) as [db1 out1]. cbn [fst] in H1. subst db1.
  destruct (insert_all rest db) as [db2 out2]. exact IH.
Qed.

Lemma insert_all_settles (data : list Index.ValidatedData)
      (db : Index.database) :
  Forall (settled (insert_all data db).1) data.
Proof.
  revert db. induction data as [|item rest IH]; intros db; [constructor|].
  unfold insert_all. cbn [Index.insert_all]. fold insert_one insert_all.
  pose proof (insert_one_settles item db) as H1.
  destruct (insert_one item db) as [db1 out1]. cbn [fst] in H1.
  pose proof (IH db1) as H2.
  destruct (insert_all_grows rest db1) as [extra Hgrow].
  destruct (insert_all rest db1) as [db2 out2]. cbn [fst] in *.
  constructor; [|exact H2].
  by apply (settled_grows db1 db2 extra).
Qed.

Lemma insertData_database (data : list Index.ValidatedData)
      (db : Index.database) :
  (insertData data db).1 = (insert_all data db).1.
Proof.
  unfold insertData, Index.insertData, insert_all.
  by destruct (Index.insert_all _ _ _ data db).
Qed.

(** C5: an episode whose [externalId] already has a row is skipped:
    the database is left as it is (no episode row, no timestamp row),
    the skip is written to the console and the loop goes on with the
    rest of the batch; and a second run of [insertData] on the same
    data changes nothing in the database the first run produced. *)
Theorem insertData_skips_existing_episode
        (item : Index.ValidatedData) (rest : list Index.ValidatedData)
        (db : Index.database) (key : string) :
  ToString Number_toString (get (Index.episode item) "id") = Returned key ->
  Index.select_episodes db key <> [] ->
  insert_one item db
    = (db, [Index.Skipping (get (Index.episode item) "title")])
  /\ (insert_all (item :: rest) db).1 = (insert_all rest db).1
  /\ (insert_all (item :: rest) db).2
     = Index.Skipping (get (Index.episode item) "title")
         :: (insert_all rest db).2
  /\ (insertData (item :: rest) (insertData (item :: rest) db).1).1
     = (insertData (item :: rest) db).1.
Proof.
  intros Hkey Hexists.
  assert (H1 : insert_one item db
               = (db, [Index.Skipping (get (Index.episode item) "title")])).
  { unfold insert_one, Index.insert_one. rewrite Hkey.
    apply length_positive in Hexists. by rewrite Hexists. }
  split; [exact H1|].
  unfold insert_all at 1 3. cbn [Index.insert_all].
  fold insert_one insert_all. rewrite H1.
  destruct (insert_all rest db) as [db2 out2] eqn:Hrest.
  cbn [fst snd app]. split; [done|]. split; [done|].
  rewrite !insertData_database.
  apply insert_all_settled, insert_all_settles.
Qed.

(** Running the persistence step twice: the second run finds every
    item settled and leaves both tables as the first run left them. *)
Lemma insertData_twice (data : list Index.ValidatedData)
      (db : Index.database) :
  (insertData data (insertData data db).1).1 = (insertData data db).1.
Proof.
  rewrite !insertData_database.
  apply insert_all_settled, insert_all_settles.
Qed.
End Persistence.

Lemma insertData_skips_existing_episode_witness :
  let item :=
    {| Index.episode :=
         JObj [ ("id", JNum (Finite 15915208644));
                ("title", JStr "Stress and recovery") ];
       Index.transcript := None |} in
  let db :=
    {| Index.episodes :=
         [ {| Index.id := 1; Index.externalId := "15915208644";
              Index.episode_columns := [] |} ];
       Index.episode_timestamps := [];
       Index.next_episode_id := 2; Index.next_timestamp_id := 1 |} in
  ToString Observed.integer_toString (get (Index.episode item) "id")
    = Returned "15915208644"
  /\ Index.select_episodes db "15915208644" <> []
  /\ Index.insert_one Observed.integer_toString
       (fun _ => true) (fun _ => true) item db
     = (db, [Index.Skipping (Some (JStr "Stress and recovery"))]).
Proof.
  intros item db.
  assert (H1 : ToString Observed.integer_toString
                 (get (Index.episode item) "id")
               = Returned "15915208644") by (vm_compute; reflexivity).
  assert (H2 : Index.select_episodes db "15915208644" <> [])
    by (vm_compute; discriminate).
  split; [exact H1|]. split; [exact H2|].
  exact (proj1 (insertData_skips_existing_episode
                  Observed.integer_toString (fun _ => true) (fun _ => true)
                  item [] db "15915208644" H1 H2)).
Defined.

(** ** The transcription stage (transcribe.ts) *)

Lemma transcriptName_not_failure_log (metadataFile : string) :
  Transcribe.transcriptName metadataFile <> "failed_transcriptions.txt".
Proof.
  unfold Transcribe.transcriptName. intros H.
  apply (f_equal (fun s => rev (list_ascii_of_string s))) in H.
  rewrite list_ascii_append, rev_app_distr in H. discriminate H.
Qed.

Section Transcription.
Variable Number_toString : number -> string.
Variable JSON_stringify : json -> string.
Variable transcribeAudio : value -> outcome json.

Let appendFileSync := Transcribe.appendFileSync JSON_stringify.
Let process_files :=
  Transcribe.process_files Number_toString JSON_stringify transcribeAudio.
Let processPodcastDirectory :=
  Transcribe.processPodcastDirectory
    Number_toString JSON_stringify transcribeAudio.
Let main_loop :=
  Transcribe.main_loop Number_toString JSON_stringify transcribeAudio.
Let main := Transcribe.main Number_toString JSON_stringify transcribeAudio.
Let yields_work :=
  Observed.yields_work Number_toString JSON_stringify transcribeAudio.
Let successes :=
  Observed.successes Number_toString JSON_stringify transcribeAudio.

(** Appending to the failure log leaves every other name of the listing
    as it was. *)
Lemma existsSync_appendFileSync (files files' : list node)
      (log line name : string) :
  appendFileSync files log line = Returned files' ->
  name <> log ->
  existsSync files' name = existsSync files name.
Proof.
  unfold existsSync. revert files'.
  induction files as [|n rest IH]; intros files' H Hne;
    cbn [Transcribe.appendFileSync] in H.
  - injection H as <-. cbn [entry node_name].
    destruct (String.eqb log name) eqn:E; [|reflexivity].
    apply String.eqb_eq in E. by destruct Hne.
  - unfold appendFileSync in H. cbn [Transcribe.appendFileSync] in H.
    fold appendFileSync in H.
    destruct (String.eqb (node_name n) log) eqn:E.
    + apply String.eqb_eq in E.
      destruct n as [n0 c|n0 sub]; [|discriminate H].
      injection H as <-. cbn [entry node_name] in *. subst n0.
      destruct (String.eqb log name) eqn:E2; [|reflexivity].
      apply String.eqb_eq in E2. by destruct Hne.
    + destruct (appendFileSync rest log line) as [rest'|] eqn:Hrest;
        cbn [bind] in H; [|discriminate H].
      injection H as <-. cbn [entry].
      destruct (String.eqb (node_name n) name); [reflexivity|].
      by apply IH.
Qed.

(** The loop over the metadata files calls [transcribeAudio] only for
    files that have no transcript in the listing. *)
Lemma process_files_calls (metadataFiles : list string) (files : list node)
      (calls : list (string * value)) :
  exists new : list (string * value),
    Transcribe.transcribed (process_files metadataFiles files calls)
      = calls ++ new
    /\ Forall (fun call =>
                 call.1 ∈ metadataFiles
                 /\ Transcribe.hasExistingTranscript files call.1 = false)
              new.
Proof.
  revert files calls.
  induction metadataFiles as [|f rest IH]; intros files calls;
    unfold process_files; cbn [Transcribe.process_files];
    fold process_files.
  - exists []. by rewrite app_nil_r.
  - assert (Hskip :
              exists new : list (string * value),
                Transcribe.transcribed (process_files rest files calls)
                  = calls ++ new
                /\ Forall (fun call =>
                             call.1 ∈ f :: rest
                             /\ Transcribe.hasExistingTranscript files call.1
                                = false) new).
    { destruct (IH files calls) as (new & H1 & H2).
      exists new. split; [done|].
      eapply Forall_impl; [exact H2|]. intros call [Ha Hb].
      split; [by right | done]. }
    destruct (negb (truthy _)); [exact Hskip|].
    destruct (Transcribe.hasExistingTranscript files f) eqn:Hexists;
      [exact Hskip|].
    set (url := get (Transcribe.loadEpisodeMetadata files f) "enclosureUrl").
    assert (Hcall : Forall (fun call : string * value =>
                             call.1 ∈ f :: rest
                             /\ Transcribe.hasExistingTranscript files call.1
                                = false) [(f, url)]).
    { constructor; [|constructor]. split; [by left | done]. }
    destruct (bind (transcribeAudio url) _) as [files'|].
    { exists [(f, url)]. by split. }
    destruct (bind (ToString Number_toString _) _) as [files'|] eqn:Hlog.
    + destruct (IH files' (calls ++ [(f, url)])) as (new & H1 & H2).
      exists ((f, url) :: new). split.
      { rewrite H1, <- app_assoc. reflexivity. }
      constructor; [by inversion Hcall|].
      eapply Forall_impl; [exact H2|]. intros call [Ha Hb].
      split; [by right|].
      destruct (ToString Number_toString (get _ "title")) as [title|];
        cbn [bind] in Hlog; [|discriminate Hlog].
      destruct (ToString Number_toString url) as [shown|];
        cbn [bind] in Hlog; [|discriminate Hlog].
      unfold Transcribe.hasExistingTranscript in *.
      rewrite <- Hb. symmetry.
      eapply existsSync_appendFileSync; [exact Hlog|].
      apply transcriptName_not_failure_log.
    + exists [(f, url)]. by split.
Qed.

Lemma processPodcastDirectory_calls (files : list node) :
  Forall (fun call =>
            Transcribe.isMetadataFile call.1 = true
            /\ existsSync files call.1 = true
            /\ Transcribe.hasExistingTranscript files call.1 = false)
         (Transcribe.transcribed (processPodcastDirectory files)).
Proof.
  unfold processPodcastDirectory, Transcribe.processPodcastDirectory.
  fold process_files.
  destruct (process_files_calls
              (filter (fun f => Transcribe.isMetadataFile f = true)
                      (map node_name files)) files [])
    as (new & -> & Hnew).
  eapply Forall_impl; [exact Hnew|].
  intros call [Hin Hno]. apply list_elem_of_filter in Hin as [Hmeta Hin].
  split; [done|]. split; [|done].
  clear -Hin. unfold existsSync.
  induction files as [|n rest IH]; [inversion Hin|].
  cbn [map] in Hin. cbn [entry].
  destruct (String.eqb (node_name n) call.1) eqn:E; [reflexivity|].
  apply elem_of_cons in Hin as [Hin|Hin]; [|by apply IH].
  apply String.eqb_neq in E. by destruct E.
Qed.

(** Across the whole run, [transcribeAudio] is called only for metadata
    files of a podcast directory that holds no transcript for them. *)
Lemma main_loop_calls (numPodcasts processedCount : Z) (currentIndex : nat)
      (podcastDirs : list node) :
  Forall (fun call =>
            exists files : list node,
              Dir call.1 files ∈ podcastDirs
              /\ Transcribe.isMetadataFile call.2.1 = true
              /\ existsSync files call.2.1 = true
              /\ Transcribe.hasExistingTranscript files call.2.1 = false)
         (Transcribe.calls
            (main_loop numPodcasts processedCount currentIndex podcastDirs)).
Proof.
  revert processedCount currentIndex.
  induction podcastDirs as [|n rest IH]; intros processedCount currentIndex;
    unfold main_loop; cbn [Transcribe.main_loop]; fold main_loop;
    [constructor|].
  destruct (processedCount <? numPodcasts)%Z; [|constructor].
  assert (Hrest : forall c i,
             Forall (fun call =>
                       exists files : list node,
                         Dir call.1 files ∈ n :: rest
                         /\ Transcribe.isMetadataFile call.2.1 = true
                         /\ existsSync files call.2.1 = true
                         /\ Transcribe.hasExistingTranscript files call.2.1
                            = false)
                    (Transcribe.calls (main_loop numPodcasts c i rest))).
  { intros c i. eapply Forall_impl; [apply IH|].
    intros call (files & H1 & H2). exists files. split; [by right | done]. }
  destruct n as [name c|podcastDir files]; cbn [Transcribe.calls];
    [apply Hrest|].
  apply Forall_app. split; [|apply Hrest].
  fold processPodcastDirectory.
  apply Forall_forall. intros call Hin.
  apply list_elem_of_In, in_map_iff in Hin as (inner & <- & Hin).
  apply list_elem_of_In in Hin.
  pose proof (processPodcastDirectory_calls files) as H.
  rewrite Forall_forall in H. specialize (H inner Hin).
  exists files. split; [by left | exact H].
Qed.

Lemma writeFileSync_entry (files files' : list node) (name : string)
      (c : content) :
  Transcribe.writeFileSync files name c = Returned files' ->
  entry files' name = Some (File name c).
Proof.
  revert files'. induction files as [|n rest IH]; intros files';
    cbn [Transcribe.writeFileSync].
  - intros [= <-]. cbn [entry node_name]. by rewrite String.eqb_refl.
  - destruct (String.eqb (node_name n) name) eqn:E.
    + destruct n as [n0 c0|n0 sub]; [|discriminate].
      intros [= <-]. cbn [entry node_name]. by rewrite String.eqb_refl.
    + destruct (Transcribe.writeFileSync rest name c) as [rest'|];
        cbn [bind]; [|discriminate].
      intros [= <-]. cbn [entry]. rewrite E. by apply IH.
Qed.

(** A directory counts as processed exactly when one call of
    [transcribeAudio] returned a transcript, which is then the content
    of the transcript file of that metadata file. *)
Lemma process_files_success (metadataFiles : list string) (files : list node)
      (calls : list (string * value)) :
  let p := process_files metadataFiles files calls in
  Transcribe.processed p = true ->
  exists (earlier : list (string * value)) (f : string) (url : value)
         (transcript : json),
    Transcribe.transcribed p = earlier ++ [(f, url)]
    /\ transcribeAudio url = Returned transcript
    /\ entry (Transcribe.files_after p) (Transcribe.transcriptName f)
       = Some (File (Transcribe.transcriptName f) (Document transcript)).
Proof.
  cbv zeta. revert files calls.
  induction metadataFiles as [|f rest IH]; intros files calls;
    unfold process_files; cbn [Transcribe.process_files];
    fold process_files; [discriminate|].
  destruct (negb (truthy _)); [apply IH|].
  destruct (Transcribe.hasExistingTranscript files f); [apply IH|].
  set (url := get (Transcribe.loadEpisodeMetadata files f) "enclosureUrl").
  destruct (transcribeAudio url) as [transcript|] eqn:Hcall; cbn [bind].
  - destruct (Transcribe.saveTranscript files f transcript)
      as [files'|] eqn:Hsave.
    + intros _. exists calls, f, url, transcript.
      cbn [Transcribe.transcribed Transcribe.files_after].
      split; [done|]. split; [done|].
      by apply (writeFileSync_entry files).
    + destruct (bind (ToString Number_toString _) _) as [files'|];
        [apply IH | discriminate].
  - destruct (bind (ToString Number_toString _) _) as [files'|];
      [apply IH | discriminate].
Qed.

(** *** The budget *)


End Transcription.

(** ** The search of the labeling stage (label-speakers.ts) *)

Lemma node_nested_ind (P : node -> Prop) :
  (forall name c, P (File name c)) ->
  (forall name entries, Forall P entries -> P (Dir name entries)) ->
  forall n, P n.
Proof.
  intros Hfile Hdir. fix IH 1. intros [name c|name entries].
  - apply Hfile.
  - apply Hdir. induction entries as [|m rest IHrest]; constructor.
    + apply IH.
    + exact IHrest.
Qed.

Lemma first_some_Some {A B : Type} (f : A -> option B) (l : list A) (r : B) :
  first_some f l = Some r -> exists x, x ∈ l /\ f x = Some r.
Proof.
  induction l as [|x rest IH]; cbn [first_some]; [discriminate|].
  destruct (f x) as [r'|] eqn:E.
  - intros [= <-]. exists x. split; [by left | done].
  - intros H. destruct (IH H) as (y & Hy & Hfy).
    exists y. split; [by right | done].
Qed.

Lemma first_some_None {A B : Type} (f : A -> option B) (l : list A) :
  first_some f l = None -> forall x, x ∈ l -> f x = None.
Proof.
  induction l as [|y rest IH]; cbn [first_some]; intros H x Hx;
    [inversion Hx|].
  destruct (f y) as [r'|] eqn:E; [discriminate|].
  apply elem_of_cons in Hx as [->|Hx]; [done | by apply IH].
Qed.

(** What the search returns is a transcript file of a directory of the
    tree, and the name the search computes for its labeled version is
    not in that directory. *)
Lemma findTranscript_entry_sound (dataDir : string) (root : list node)
      (n : node) :
  forall (dir : string) (files : list node) (r : LabelSpeakers.found),
    Observed.reachable dataDir root dir files ->
    n ∈ files ->
    LabelSpeakers.findTranscript_entry dir files n = Some r ->
    exists (files' : list node) (c : content),
      Observed.reachable dataDir root (LabelSpeakers.directory r) files'
      /\ File (LabelSpeakers.transcriptFile r) c ∈ files'
      /\ Observed.unlabeled_transcript files' (LabelSpeakers.transcriptFile r)
         = true.
Proof.
  induction n as [name c|name sub IH] using node_nested_ind;
    intros dir files r Hreach Hin; cbn [LabelSpeakers.findTranscript_entry].
  - destruct (endsWith name "_transcript.json") eqn:Hsuffix;
      cbn [andb]; [|discriminate].
    destruct (negb (endsWith name "_labeled.json")); [|discriminate].
    destruct (negb (existsSync files _)) eqn:Hlabeled; [|discriminate].
    intros [= <-]. exists files, c. cbn.
    split; [done|]. split; [done|].
    unfold Observed.unlabeled_transcript. by rewrite Hsuffix, Hlabeled.
  - intros H. apply first_some_Some in H as (m & Hm & Hfound).
    rewrite Forall_forall in IH.
    apply (IH m Hm (path_join dir name) sub r); [|done|done].
    by apply (Observed.reachable_sub dataDir root dir files name sub).
Qed.

Lemma findTranscriptFile_sound (dataDir : string) (root : list node)
      (r : LabelSpeakers.found) :
  LabelSpeakers.findTranscriptFile dataDir root = Some r ->
  exists (files : list node) (c : content),
    Observed.reachable dataDir root (LabelSpeakers.directory r) files
    /\ File (LabelSpeakers.transcriptFile r) c ∈ files
    /\ Observed.unlabeled_transcript files (LabelSpeakers.transcriptFile r)
       = true.
Proof.
  unfold LabelSpeakers.findTranscriptFile, LabelSpeakers.findTranscript.
  intros H. apply first_some_Some in H as (n & Hn & Hfound).
  apply (findTranscript_entry_sound dataDir root n dataDir root r);
    [constructor | done | done].
Qed.

(** As long as some directory of the tree holds a transcript without
    the labeled version the search looks for, the search finds work. *)
Lemma findTranscriptFile_complete (dataDir : string) (root : list node)
      (dir : string) (files : list node) (file : string) (c : content) :
  Observed.reachable dataDir root dir files ->
  File file c ∈ files ->
  Observed.unlabeled_transcript files file = true ->
  LabelSpeakers.findTranscriptFile dataDir root <> None.
Proof.
  intros Hreach Hin Hpending.
  assert (Hhere : LabelSpeakers.findTranscript dir files <> None).
  { unfold LabelSpeakers.findTranscript. intros Hnone.
    pose proof (first_some_None _ _ Hnone _ Hin) as H.
    cbn [LabelSpeakers.findTranscript_entry] in H.
    unfold Observed.unlabeled_transcript in Hpending.
    apply andb_true_iff in Hpending as [Hsuffix Hlabeled].
    rewrite Hsuffix, Hlabeled in H. cbn [andb] in H.
    assert (Hnot : endsWith file "_labeled.json" = false).
    { clear -Hsuffix.
      induction file as [|a s IH]; [discriminate Hsuffix|].
      cbn [endsWith] in *.
      destruct (String.eqb (String a s) "_transcript.json") eqn:E.
      - apply String.eqb_eq in E. injection E as -> ->. reflexivity.
      - destruct (String.eqb (String a s) "_labeled.json") eqn:E2.
        + apply String.eqb_eq in E2. injection E2 as -> ->.
          discriminate Hsuffix.
        + by apply IH. }
    rewrite Hnot in H. discriminate H. }
  clear Hin Hpending. unfold LabelSpeakers.findTranscriptFile.
  induction Hreach as [|dir files name sub Hreach IH Hsub]; [done|].
  apply IH. unfold LabelSpeakers.findTranscript. intros Hnone.
  pose proof (first_some_None _ _ Hnone _ Hsub) as H.
  cbn [LabelSpeakers.findTranscript_entry] in H. by apply Hhere.
Qed.


(** *** Names written by the pipeline *)

Lemma strip_prefix_refl (p : string) : strip_prefix p p = Some "".
Proof.
  induction p as [|a p IH]; [reflexivity|].
  cbn [strip_prefix]. by rewrite Ascii.eqb_refl.
Qed.

(** For a transcript named after an episode id (no underscore in it),
    the name the search looks for is the name the labeled transcript is
    saved under. *)
Lemma replace_transcript_suffix (stem : string) :
  Forall (fun a => a <> "_"%char) (list_ascii_of_string stem) ->
  replace (stem +:+ "_transcript.json")
          "_transcript.json" "_transcript_labeled.json"
    = stem +:+ "_transcript_labeled.json".
Proof.
  induction stem as [|a stem IH]; intros H.
  - reflexivity.
  - cbn [list_ascii_of_string] in H. inversion H as [|? ? Ha Hrest]; subst.
    rewrite !append_cons. cbn [replace strip_prefix].
    destruct (Ascii.eqb "_" a) eqn:E.
    + apply Ascii.eqb_eq in E. by destruct Ha.
    + by rewrite IH.
Qed.

Lemma last_dot_append (a b : string) :
  last_dot (a +:+ b)
    = match last_dot b with
      | Some i => Some (String.length a + i)
      | None => last_dot a
      end.
Proof.
  induction a as [|x a IH];
    [rewrite append_nil_l; by destruct (last_dot b)|].
  rewrite append_cons. cbn [last_dot String.length]. rewrite IH.
  by destruct (last_dot b).
Qed.

Lemma substring_append (a b : string) (k : nat) :
  String.substring 0 (String.length a + k) (a +:+ b)
    = a +:+ String.substring 0 k b.
Proof.
  induction a as [|x a IH]; [by rewrite !append_nil_l|].
  rewrite !append_cons. cbn [String.length Nat.add String.substring].
  by rewrite IH.
Qed.

Lemma labeledTranscriptName_suffix (stem : string) :
  LabelSpeakers.labeledTranscriptName (stem +:+ "_transcript.json")
    = stem +:+ "_transcript_labeled.json".
Proof.
  unfold LabelSpeakers.labeledTranscriptName, parse_name.
  rewrite last_dot_append.
  change (last_dot "_transcript.json") with (Some 11). cbv beta iota.
  destruct (String.length stem + 11) as [|i] eqn:Hlen; [lia|].
  rewrite <- Hlen.
  assert (Hne : String.eqb (stem +:+ "_transcript.json") ".." = false).
  { destruct (String.eqb _ "..") eqn:E; [|reflexivity].
    apply String.eqb_eq in E. apply (f_equal String.length) in E.
    rewrite length_append in E. cbn in E. lia. }
  rewrite Hne, substring_append, append_assoc. reflexivity.
Qed.

(** So, for such names, a transcript is returned by the search exactly
    when the file [saveLabeledTranscript] writes for it is absent. *)
Lemma unlabeled_transcript_pipeline_name (files : list node) (stem : string) :
  Forall (fun a => a <> "_"%char) (list_ascii_of_string stem) ->
  Observed.unlabeled_transcript files (stem +:+ "_transcript.json")
    = negb (existsSync files
              (LabelSpeakers.labeledTranscriptName
                 (stem +:+ "_transcript.json"))).
Proof.
  intros H. unfold Observed.unlabeled_transcript.
  rewrite (replace_transcript_suffix stem H), labeledTranscriptName_suffix.
  assert (Hends : endsWith (stem +:+ "_transcript.json") "_transcript.json"
                  = true).
  { clear H. induction stem as [|a stem IH]; [reflexivity|].
    rewrite append_cons. cbn [endsWith]. rewrite IH.
    by destruct (String.eqb _ _). }
  by rewrite Hends.
Qed.

(** ** What a run of [insertData] does to the tables (index.ts) *)

Section StoredData.
Variable Number_toString : number -> string.
Variable episode_accepted : list (string * Index.sql) -> bool.
Variable timestamps_accepted : list (list (string * Index.sql)) -> bool.

Let insert_one :=
  Index.insert_one Number_toString episode_accepted timestamps_accepted.
Let insert_all :=
  Index.insert_all Number_toString episode_accepted timestamps_accepted.
Let insertData :=
  Index.insertData Number_toString episode_accepted timestamps_accepted.

(** One turn of the loop either leaves the database alone and reports
    no insertion, or adds one episode row under a key that was not
    stored, with the timestamp rows of some list of entries. *)
Lemma insert_one_effect (item : Index.ValidatedData) (db : Index.database) :
  ((insert_one item db).1 = db
   /\ sum_list_with Stored.episodes_reported (insert_one item db).2 = 0
   /\ sum_list_with Stored.timestamps_reported (insert_one item db).2 = 0)
  \/ exists (key : string) (ts : list json),
       Index.select_episodes db key = []
       /\ Index.episodes (insert_one item db).1
          = Index.episodes db
              ++ [ {| Index.id := Index.next_episode_id db;
                      Index.externalId := key;
                      Index.episode_columns :=
                        Index.episode_values key (Index.episode item) |} ]
       /\ Index.episode_timestamps (insert_one item db).1
          = Index.episode_timestamps db
              ++ Index.number_rows
                   (Index.next_timestamp_id db)
                   (map (Index.timestamp_values (Index.next_episode_id db))
                        ts)
       /\ sum_list_with Stored.episodes_reported (insert_one item db).2 = 1
       /\ sum_list_with Stored.timestamps_reported (insert_one item db).2
          = length ts.
Proof.
  unfold insert_one, Index.insert_one.
  destruct (ToString _ _) as [key|]; [|by left].
  destruct (0 <? length _) eqn:Hlen; [by left|].
  unfold Index.insert_episode.
  destruct (episode_accepted _); cbn [negb orb]; [|by left].
  destruct (Index.select_episodes db key) eqn:Hsel; [|discriminate Hlen].
  cbn [length Nat.eqb negb]. right. exists key.
  destruct (Index.transcript item) as [ts|];
    [|exists []; cbn; by rewrite app_nil_r].
  destruct (0 <? length ts) eqn:Hts;
    [|exists []; cbn; by rewrite app_nil_r].
  unfold Index.insert_timestamps.
  destruct (timestamps_accepted _); cbn [negb].
  - exists ts. cbn. by rewrite length_map, Nat.add_0_r.
  - exists []. cbn. by rewrite app_nil_r.
Qed.

Lemma number_rows_columns (next : Z) (rows : list (list (string * Index.sql)))
      (row : Index.timestamp_row) :
  row ∈ Index.number_rows next rows -> Index.timestamp_columns row ∈ rows.
Proof.
  revert next. induction rows as [|r rest IH]; intros next;
    cbn [Index.number_rows]; intros H.
  - by apply elem_of_nil in H.
  - apply elem_of_cons in H as [->|H]; [by left|].
    right. by apply (IH (next + 1)%Z).
Qed.

Lemma length_number_rows (next : Z) (rows : list (list (string * Index.sql))) :
  length (Index.number_rows next rows) = length rows.
Proof.
  revert next. induction rows as [|r rest IH]; intros next; [done|].
  cbn [Index.number_rows length]. by rewrite IH.
Qed.

Lemma select_episodes_nil (db : Index.database) (key : string) :
  Index.select_episodes db key = []
  -> key ∉ map Index.externalId (Index.episodes db).
Proof.
  unfold Index.select_episodes. intros H Hin.
  apply list_elem_of_fmap in Hin as (e & -> & He).
  assert (He' : e ∈ filter (fun r => Index.externalId r = Index.externalId e)
                           (Index.episodes db)).
  { by apply list_elem_of_filter. }
  rewrite H in He'. by apply elem_of_nil in He'.
Qed.

Lemma references_grows (db db' : Index.database)
      (extra : list Index.episode_row) (row : Index.timestamp_row) :
  Index.episodes db' = Index.episodes db ++ extra ->
  Stored.references db row -> Stored.references db' row.
Proof.
  intros Hgrow (e & He & Hcol). exists e. split; [|done].
  rewrite Hgrow. apply elem_of_app. by left.
Qed.

Lemma insert_one_consistent (item : Index.ValidatedData)
      (db : Index.database) :
  Stored.consistent db -> Stored.consistent (insert_one item db).1.
Proof.
  intros [Hkeys Hrefs].
  destruct (insert_one_effect item db)
    as [(-> & _ & _) | (key & ts & Hfresh & He & Ht & _ & _)]; [done|].
  split.
  - rewrite He, map_app. cbn [map Index.externalId].
    apply NoDup_app. split; [done|]. split.
    + intros x Hx Hin. apply list_elem_of_singleton in Hin as ->.
      by apply (select_episodes_nil db key).
    + apply NoDup_singleton.
  - rewrite Ht. apply Forall_app. split.
    + eapply Forall_impl; [exact Hrefs|].
      intros row. by apply (references_grows db _ _ row He).
    + apply Forall_forall. intros row Hrow.
      apply number_rows_columns in Hrow.
      apply list_elem_of_fmap in Hrow as (t & Hcol & _).
      eexists. split.
      * rewrite He. apply elem_of_app. right. by left.
      * by rewrite Hcol.
Qed.

(** X1: [insertData] keeps the tables consistent.  If no two episode
    rows share an [externalId] and every timestamp row carries the
    identity of a stored episode before the run, both hold after it,
    whatever the batch contains and whichever statements the database
    rejects. *)
Theorem insertData_keeps_tables_consistent
        (data : list Index.ValidatedData) (db : Index.database) :
  Stored.consistent db -> Stored.consistent (insertData data db).1.
Proof.
  unfold insertData. rewrite insertData_database. fold insert_all.
  revert db. induction data as [|item rest IH]; intros db H; [done|].
  unfold insert_all. cbn [Index.insert_all]. fold insert_one insert_all.
  pose proof (insert_one_consistent item db H) as H1.
  destruct (insert_one item db) as [db1 out1]. cbn [fst] in H1.
  specialize (IH db1 H1).
  by destruct (insert_all rest db1) as [db2 out2].
Qed.

Lemma insert_all_account (data : list Index.ValidatedData)
      (db : Index.database) :
  exists (added : list Index.episode_row) (rows : list Index.timestamp_row),
    Index.episodes (insert_all data db).1 = Index.episodes db ++ added
    /\ Index.episode_timestamps (insert_all data db).1
       = Index.episode_timestamps db ++ rows
    /\ length added
       = sum_list_with Stored.episodes_reported (insert_all data db).2
    /\ length rows
       = sum_list_with Stored.timestamps_reported (insert_all data db).2.
Proof.
  revert db. induction data as [|item rest IH]; intros db.
  - exists [], []. cbn. by rewrite !app_nil_r.
  - unfold insert_all. cbn [Index.insert_all]. fold insert_one insert_all.
    pose proof (insert_one_effect item db) as H1.
    destruct (insert_one item db) as [db1 out1]. cbn [fst snd] in H1.
    destruct (IH db1) as (added & rows & He & Ht & Hne & Hnt).
    destruct (insert_all rest db1) as [db2 out2]. cbn [fst snd] in *.
    rewrite !sum_list_with_app.
    destruct H1 as [(-> & -> & ->) | (key & ts & _ & He1 & Ht1 & -> & ->)].
    + exists added, rows. by rewrite He, Ht.
    + exists ({| Index.id := Index.next_episode_id db;
                 Index.externalId := key;
                 Index.episode_columns :=
                   Index.episode_values key (Index.episode item) |}
                :: added),
        (Index.number_rows
           (Index.next_timestamp_id db)
           (map (Index.timestamp_values (Index.next_episode_id db)) ts)
           ++ rows).
      rewrite He, Ht, He1, Ht1, <- !app_assoc. split; [done|].
      split; [done|]. cbn [length]. split; [by rewrite Hne|].
      by rewrite length_app, length_number_rows, length_map, Hnt.
Qed.

(** X2: [insertData] only adds rows, and reports every row it adds.
    Both tables after a run start with the rows they held before (no
    row is deleted, changed or reordered); the number of episode rows
    added is the number of "Inserted episode" lines, the number of
    timestamp rows added is the sum of the counts of the "Inserted n
    timestamps" lines, and the two closing lines give the sizes of the
    tables after the run. *)
Theorem insertData_appends_what_it_reports
        (data : list Index.ValidatedData) (db : Index.database) :
  exists (added : list Index.episode_row) (rows : list Index.timestamp_row)
         (lines : list Index.console),
    Index.episodes (insertData data db).1 = Index.episodes db ++ added
    /\ Index.episode_timestamps (insertData data db).1
       = Index.episode_timestamps db ++ rows
    /\ (insertData data db).2
       = lines
           ++ [ Index.TotalEpisodes (length (Index.episodes db ++ added));
                Index.TotalTimestamps
                  (length (Index.episode_timestamps db ++ rows)) ]
    /\ length added = sum_list_with Stored.episodes_reported lines
    /\ length rows = sum_list_with Stored.timestamps_reported lines.
Proof.
  destruct (insert_all_account data db) as (added & rows & He & Ht & Hne & Hnt).
  unfold insertData, Index.insertData. fold insert_all.
  destruct (insert_all data db) as [db' out]. cbn [fst snd] in *.
  exists added, rows, out. by rewrite He, Ht.
Qed.

(** X3: the two inserts of an item are not one transaction.  When the
    episode of an item is new and its row is accepted but the database
    rejects the batch of its timestamps, the turn of the loop ends with
    the episode row stored and no timestamp row added; every later turn
    for the same item finds the row and skips the item, so its
    timestamps are never stored. *)
Theorem insertData_rejected_timestamps_leave_episode
        (item : Index.ValidatedData) (db : Index.database)
        (key : string) (ts : list json) :
  ToString Number_toString (get (Index.episode item) "id") = Returned key ->
  Index.select_episodes db key = [] ->
  episode_accepted (Index.episode_values key (Index.episode item)) = true ->
  Index.transcript item = Some ts ->
  ts <> [] ->
  timestamps_accepted
    (map (Index.timestamp_values (Index.next_episode_id db)) ts) = false ->
  let title := get (Index.episode item) "title" in
  let db1 := (insert_one item db).1 in
  (insert_one item db).2
    = [Index.InsertedEpisode title; Index.ErrorInserting title]
  /\ Index.episodes db1
     = Index.episodes db
         ++ [ {| Index.id := Index.next_episode_id db;
                 Index.externalId := key;
                 Index.episode_columns :=
                   Index.episode_values key (Index.episode item) |} ]
  /\ Index.episode_timestamps db1 = Index.episode_timestamps db
  /\ forall (db2 : Index.database) (later : list Index.episode_row),
       Index.episodes db2 = Index.episodes db1 ++ later ->
       insert_one item db2 = (db2, [Index.Skipping title]).
Proof.
  intros Hkey Hfresh Hacc Hts Hne Hrej title db1.
  assert (H1 : insert_one item db
               = ({| Index.episodes :=
                       Index.episodes db
                         ++ [ {| Index.id := Index.next_episode_id db;
                                 Index.externalId := key;
                                 Index.episode_columns :=
                                   Index.episode_values
                                     key (Index.episode item) |} ];
                     Index.episode_timestamps := Index.episode_timestamps db;
                     Index.next_episode_id := (Index.next_episode_id db + 1)%Z;
                     Index.next_timestamp_id := Index.next_timestamp_id db |},
                  [Index.InsertedEpisode title; Index.ErrorInserting title])).
  { unfold insert_one, Index.insert_one. rewrite Hkey, Hfresh.
    cbn [length Nat.ltb Nat.leb]. unfold Index.insert_episode.
    rewrite Hacc, Hfresh, Hts. cbn [negb orb length Nat.eqb Index.id].
    destruct ts as [|t ts']; [done|]. cbn [length Nat.ltb Nat.leb].
    unfold Index.insert_timestamps. by rewrite Hrej. }
  subst db1. rewrite H1. cbn [fst snd Index.episodes Index.episode_timestamps].
  split; [done|]. split; [done|]. split; [done|].
  intros db2 later Hlater.
  unfold insert_one, Index.insert_one. rewrite Hkey.
  assert (Hsel : Index.select_episodes db2 key <> []).
  { unfold Index.select_episodes.
    rewrite Hlater, !filter_app. cbn [filter list_filter Index.externalId].
    rewrite decide_True by done.
    intros H. apply app_eq_nil in H as [H _].
    by apply app_eq_nil in H as [_ H]. }
  apply length_positive in Hsel. by rewrite Hsel.
Qed.
End StoredData.

Lemma insertData_keeps_tables_consistent_witness :
  let db :=
    {| Index.episodes :=
         [ {| Index.id := 1; Index.externalId := "15915208644";
              Index.episode_columns := [] |} ];
       Index.episode_timestamps :=
         [ {| Index.timestamp_id := 1;
              Index.timestamp_columns :=
                Index.timestamp_values
                  1 (Observed.segment_json "Speaker 0" "0:00" "0:07" "Hi") |} ];
       Index.next_episode_id := 2; Index.next_timestamp_id := 2 |} in
  let data :=
    [ {| Index.episode :=
           JObj [ ("id", JNum (Finite 15915208645));
                  ("title", JStr "Sleep") ];
         Index.transcript :=
           Some [ Observed.segment_json
                    "Speaker 1" "0:07" "0:12" "Hello" ] |} ] in
  Stored.consistent db
  /\ Stored.consistent
       (Index.insertData Observed.integer_toString
                         (fun _ => true) (fun _ => true) data db).1.
Proof.
  intros db data.
  assert (H : Stored.consistent db).
  { split.
    - cbn. apply NoDup_singleton.
    - constructor; [|constructor].
      eexists. split; [by left|reflexivity]. }
  split; [exact H|].
  exact (insertData_keeps_tables_consistent
           Observed.integer_toString (fun _ => true) (fun _ => true)
           data db H).
Defined.

Lemma insertData_rejected_timestamps_leave_episode_witness :
  let item :=
    {| Index.episode :=
         JObj [ ("id", JNum (Finite 15915208644));
                ("title", JStr "Stress and recovery") ];
       Index.transcript :=
         Some [Observed.segment_json "Speaker 0" "0:00" "0:07" ""] |} in
  let db :=
    {| Index.episodes := []; Index.episode_timestamps := [];
       Index.next_episode_id := 1; Index.next_timestamp_id := 1 |} in
  let run :=
    Index.insert_one Observed.integer_toString
                     (fun _ => true) (fun _ => false) item db in
  length (Index.episodes run.1) = 1
  /\ Index.episode_timestamps run.1 = []
  /\ Index.insert_one Observed.integer_toString
                      (fun _ => true) (fun _ => false) item run.1
     = (run.1, [Index.Skipping (Some (JStr "Stress and recovery"))]).
Proof.
  intros item db run.
  pose proof (insertData_rejected_timestamps_leave_episode
                Observed.integer_toString (fun _ => true) (fun _ => false)
                item db "15915208644"
                [Observed.segment_json "Speaker 0" "0:00" "0:07" ""]
                ltac:(vm_compute; reflexivity) eq_refl eq_refl eq_refl
                ltac:(discriminate) eq_refl) as H.
  cbv zeta in H. destruct H as (_ & He & Ht & Hskip). subst run.
  split; [by rewrite He|]. split; [exact Ht|].
  apply (Hskip _ []). by rewrite app_nil_r.
Defined.

(** ** What the validators answer (index.ts) *)

Lemma well_formed_entry_object (entry : json) :
  Documented.well_formed_entry entry ->
  negb (truthy (Some entry)) || negb (Index.is_type "object" (Some entry))
  = false.
Proof.
  intros (sp & f & t & c & Hsp & _).
  destruct entry; try discriminate Hsp. reflexivity.
Qed.

Section ValidationResults.
Variable Number_toString : number -> string.
Variable JSON_stringify : json -> string.

Let check_timestamp := Index.check_timestamp Number_toString JSON_stringify.
Let check_entry := Index.check_entry Number_toString JSON_stringify.
Let forEach_entry := Index.forEach_entry Number_toString JSON_stringify.
Let validateTranscriptData :=
  Index.validateTranscriptData Number_toString JSON_stringify.

(** A well-formed entry adds no message. *)
Lemma check_entry_well_formed (index : nat) (entry : json)
      (errors : list string) :
  Documented.well_formed_entry entry ->
  check_entry index entry errors = Returned errors.
Proof.
  intros Hwf. unfold check_entry, Index.check_entry.
  rewrite (well_formed_entry_object entry Hwf).
  destruct Hwf as (sp & f & t & c & Hsp & Hsp' & Hf & Hf' & Ht & Ht'
                   & Hc & Hc').
  rewrite !missing_or_not_string, !push_if_when_violated.
  assert (Hne : forall x : string, x <> "" -> negb (String.eqb x "") = true).
  { intros x Hx. destruct (String.eqb x "") eqn:E; [|done].
    by apply String.eqb_eq in E. }
  assert (Hshape : forall x, Documented.valid_timestamp x -> x <> "").
  { intros x H ->. apply timestamp_ok_valid in H. discriminate H. }
  rewrite Hsp, Hf, Ht, Hc. cbn [Documented.is_nonempty_string].
  rewrite (Hne sp), (Hne f), (Hne t), (Hne c) by auto.
  cbn [Observed.when_violated app]. rewrite !app_nil_r.
  rewrite (check_timestamp_string Number_toString JSON_stringify
             index "timestampFrom" f entry) by done.
  cbn [bind].
  rewrite (check_timestamp_string Number_toString JSON_stringify
             index "timestampTo" t entry) by done.
  apply timestamp_ok_valid in Hf', Ht'.
  apply (timestamp_messages_nil JSON_stringify index "timestampFrom" f entry)
    in Hf'.
  apply (timestamp_messages_nil JSON_stringify index "timestampTo" t entry)
    in Ht'.
  by rewrite Hf', Ht', !app_nil_r.
Qed.

(** The messages of a completed loop: those it started with, then
    messages that each carry the index of an entry that is not well
    formed; and none is added only if all entries are well formed. *)
Lemma forEach_entry_messages (index : nat) (entries : list json)
      (errors errors' : list string) :
  forEach_entry index entries errors = Returned errors' ->
  exists more : list string,
    errors' = errors ++ more
    /\ Forall (fun message =>
                 exists (k : nat) (e : json),
                   entries !! k = Some e
                   /\ ~ Documented.well_formed_entry e
                   /\ Documented.carries_index (index + k) message) more
    /\ (more = [] -> Forall Documented.well_formed_entry entries).
Proof.
  revert index errors.
  induction entries as [|e0 rest IH]; intros index errors;
    unfold forEach_entry; cbn [Index.forEach_entry].
  - intros [= <-]. exists []. by rewrite app_nil_r.
  - fold check_entry forEach_entry.
    destruct (check_entry index e0 errors) as [errors1|] eqn:He;
      cbn [bind]; [|discriminate].
    intros H. apply IH in H as (more & -> & Hmore & Hall).
    pose proof He as He'.
    apply check_entry_appends in He' as (new & -> & Hnew & Hok).
    exists (new ++ more). split; [by rewrite app_assoc|]. split.
    + apply Forall_app. split.
      * destruct new as [|m new]; [constructor|].
        assert (Hbad : ~ Documented.well_formed_entry e0).
        { intros Hwf.
          rewrite (check_entry_well_formed index e0 errors Hwf) in He.
          injection He as He.
          rewrite <- (app_nil_r errors) in He at 1.
          by apply app_inv_head in He. }
        eapply Forall_impl; [exact Hnew|].
        intros message Hm. exists 0, e0. by rewrite Nat.add_0_r.
      * eapply Forall_impl; [exact Hmore|].
        intros message (k & e & Hk & Hbad & Hm).
        exists (S k), e. split; [done|]. split; [done|].
        by replace (index + S k) with (S index + k) by lia.
    + intros Hnil. apply app_eq_nil in Hnil as [-> ->].
      constructor; auto.
Qed.

Lemma forEach_entry_well_formed (index : nat) (entries : list json)
      (errors : list string) :
  Forall Documented.well_formed_entry entries ->
  forEach_entry index entries errors = Returned errors.
Proof.
  intros H. revert index.
  induction H as [|e rest He _ IH]; intros index; [done|].
  unfold forEach_entry. cbn [Index.forEach_entry].
  fold check_entry forEach_entry.
  rewrite (check_entry_well_formed index e errors He). cbn [bind].
  apply IH.
Qed.

Lemma forEach_entry_no_message (entries : list json) (errors : list string) :
  forEach_entry 0 entries [] = Returned errors ->
  Nat.eqb (length errors) 0 = true ->
  errors = [] /\ Forall Documented.well_formed_entry entries.
Proof.
  intros H Hlen.
  apply Nat.eqb_eq, length_zero_iff_nil in Hlen. subst errors.
  split; [done|].
  apply forEach_entry_messages in H as (more & Hmore & _ & Hall).
  apply Hall. by destruct more.
Qed.

Lemma validateTranscriptData_well_formed_iff (entries : list json) :
  Forall Documented.well_formed_entry entries
  <-> validateTranscriptData (JArr entries)
      = Returned {| Index.isValid := true; Index.errors := [];
                    Index.data := Some entries |}.
Proof.
  unfold validateTranscriptData, Index.validateTranscriptData.
  fold forEach_entry. split.
  - intros H. by rewrite (forEach_entry_well_formed 0 entries [] H).
  - destruct (forEach_entry 0 entries []) as [errors|] eqn:H;
      cbn [bind]; [|discriminate].
    intros [= Hlen Herr _]. by apply (forEach_entry_no_message entries errors).
Qed.

(** X4: the transcript validator accepts exactly the arrays whose
    entries are all well formed (four non-empty strings, both
    timestamps of the shape digits, colon, two digits below 60).  For
    such an array it returns valid, with no message and the entries as
    data (the empty array included); and whenever it returns valid for
    some JSON value, the value is such an array. *)
Theorem validateTranscriptData_valid_iff_well_formed :
  (forall entries : list json,
      Forall Documented.well_formed_entry entries
      <-> validateTranscriptData (JArr entries)
          = Returned {| Index.isValid := true; Index.errors := [];
                        Index.data := Some entries |})
  /\ (forall (data : json) (result : Index.validation (list json)),
        validateTranscriptData data = Returned result ->
        Index.isValid result = true ->
        exists entries : list json,
          data = JArr entries
          /\ Forall Documented.well_formed_entry entries
          /\ Index.errors result = []
          /\ Index.data result = Some entries).
Proof.
  split; [exact validateTranscriptData_well_formed_iff|].
  intros data result. unfold validateTranscriptData,
    Index.validateTranscriptData. fold forEach_entry.
  destruct data as [ | | | |entries| ];
    try (intros [= <-]; discriminate).
  destruct (forEach_entry 0 entries []) as [errors|] eqn:H;
    cbn [bind]; [|discriminate].
  intros [= <-]. cbn [Index.isValid Index.errors Index.data].
  intros Hlen.
  destruct (forEach_entry_no_message entries errors H Hlen) as [-> Hall].
  exists entries. by rewrite Hlen.
Qed.

(** X5: the messages of the transcript validator point at the
    defective entries, and only at them.  Whenever the validator
    returns for an array, every entry that is not well formed has a
    message carrying its index, and every message carries the index
    of an entry that is not well formed. *)
Theorem validateTranscriptData_messages_match_defects
        (entries : list json) (result : Index.validation (list json)) :
  validateTranscriptData (JArr entries) = Returned result ->
  (forall (k : nat) (e : json),
      entries !! k = Some e ->
      ~ Documented.well_formed_entry e ->
      exists message : string,
        message ∈ Index.errors result
        /\ Documented.carries_index k message)
  /\ (forall message : string,
        message ∈ Index.errors result ->
        exists (k : nat) (e : json),
          entries !! k = Some e
          /\ ~ Documented.well_formed_entry e
          /\ Documented.carries_index k message).
Proof.
  intros H. split.
  - exact (validateTranscriptData_reports Number_toString JSON_stringify
             entries result H).
  - revert H. unfold validateTranscriptData, Index.validateTranscriptData.
    fold forEach_entry.
    destruct (forEach_entry 0 entries []) as [errors|] eqn:H;
      cbn [bind]; [|discriminate].
    intros [= <-]. cbn [Index.errors].
    apply forEach_entry_messages in H as (more & -> & Hmore & _).
    intros message Hin. rewrite app_nil_l in Hin.
    by apply (proj1 (Forall_forall _ _) Hmore) in Hin.
Qed.

(** X6: the result of either validator is coherent.  For every JSON
    value the episode validator answers either valid, without a
    message and with the value as data, or invalid, with at least one
    message and without data; and so does the transcript validator
    whenever it returns. *)
Theorem validators_answer_coherently :
  (forall data : json,
      let result := Index.validateEpisodeData data in
      (Index.isValid result = true /\ Index.errors result = []
       /\ Index.data result = Some data)
      \/ (Index.isValid result = false /\ Index.errors result <> []
          /\ Index.data result = None))
  /\ (forall (data : json) (result : Index.validation (list json)),
        validateTranscriptData data = Returned result ->
        (Index.isValid result = true /\ Index.errors result = []
         /\ exists entries, data = JArr entries
                            /\ Index.data result = Some entries)
        \/ (Index.isValid result = false /\ Index.errors result <> []
            /\ Index.data result = None)).
Proof.
  assert (Hlen : forall errors : list string,
             (Nat.eqb (length errors) 0 = true /\ errors = [])
             \/ (Nat.eqb (length errors) 0 = false /\ errors <> [])).
  { intros [|m errors]; [by left | by right]. }
  split.
  - intros data result. subst result. unfold Index.validateEpisodeData.
    destruct (negb (truthy (Some data)) || _); [by right|].
    cbn [Index.isValid Index.errors Index.data].
    match goal with
    | |- context [Nat.eqb (length ?l) 0] =>
        destruct (Hlen l) as [[-> ->]|[-> Hne]]
    end; [by left | by right].
  - intros data result. unfold validateTranscriptData,
      Index.validateTranscriptData. fold forEach_entry.
    destruct data as [ | | | |entries| ];
      try (intros [= <-]; by right).
    destruct (forEach_entry 0 entries []) as [errors|];
      cbn [bind]; [|discriminate].
    intros [= <-]. cbn [Index.isValid Index.errors Index.data].
    destruct (Hlen errors) as [[-> ->]|[-> Hne]]; [left | by right].
    split; [done|]. split; [done|]. by exists entries.
Qed.

(** X7: the transcript validator returns, rather than throws, for
    every JSON value that is not an array (the answer being invalid
    with the one message "Transcript data must be an array") and for
    every array in which the [timestampFrom] and [timestampTo] of each
    entry are strings or absent, whatever else the entries hold. *)
Theorem validateTranscriptData_returns_on_plain_timestamps :
  (forall data : json,
      (forall entries : list json, data <> JArr entries) ->
      validateTranscriptData data
      = Returned {| Index.isValid := false;
                    Index.errors := ["Transcript data must be an array"];
                    Index.data := None |})
  /\ (forall entries : list json,
        Forall Observed.plain_timestamps entries ->
        exists result : Index.validation (list json),
          validateTranscriptData (JArr entries) = Returned result).
Proof.
  split.
  - intros data H. destruct data as [ | | | |entries| ]; try reflexivity.
    by destruct (H entries).
  - intros entries H.
    exact (validateTranscriptData_returns Number_toString JSON_stringify
             entries H).
Qed.
End ValidationResults.

Lemma validateTranscriptData_messages_match_defects_witness :
  let entries :=
    [ Observed.segment_json "Speaker 0" "0:00" "0:07" "Welcome back.";
      Observed.segment_json "Speaker 1" "0:07" "0:75" "Thanks." ] in
  exists result : Index.validation (list json),
    Index.validateTranscriptData Observed.integer_toString (fun _ => "")
                                 (JArr entries)
    = Returned result
    /\ forall message : string,
         message ∈ Index.errors result ->
         exists (k : nat) (e : json),
           entries !! k = Some e
           /\ ~ Documented.well_formed_entry e
           /\ Documented.carries_index k message.
Proof.
  intros entries. eexists. split; [vm_compute; reflexivity|].
  refine (proj2 (validateTranscriptData_messages_match_defects
                   Observed.integer_toString (fun _ => "") entries _ _)).
  vm_compute. reflexivity.
Defined.

(** ** Listings after a write *)

Lemma writeFileSync_other (files files' : list node) (name other : string)
      (c : content) :
  Transcribe.writeFileSync files name c = Returned files' ->
  other <> name ->
  entry files' other = entry files other.
Proof.
  revert files'. induction files as [|n rest IH]; intros files';
    cbn [Transcribe.writeFileSync].
  - intros [= <-] Hne. cbn [entry node_name].
    destruct (String.eqb name other) eqn:E; [|reflexivity].
    apply String.eqb_eq in E. by destruct Hne.
  - destruct (String.eqb (node_name n) name) eqn:E.
    + destruct n as [n0 c0|n0 sub]; [|discriminate].
      intros [= <-] Hne. cbn [entry node_name] in *.
      apply String.eqb_eq in E. subst n0.
      destruct (String.eqb name other) eqn:E2; [|reflexivity].
      apply String.eqb_eq in E2. by destruct Hne.
    + destruct (Transcribe.writeFileSync rest name c) as [rest'|];
        cbn [bind]; [|discriminate].
      intros [= <-] Hne. cbn [entry].
      destruct (String.eqb (node_name n) other); [reflexivity|].
      by apply IH.
Qed.

(** Writing fails only on the name of a directory. *)
Lemma writeFileSync_returns (files : list node) (name : string) (c : content) :
  (forall sub : list node, entry files name <> Some (Dir name sub)) ->
  exists files', Transcribe.writeFileSync files name c = Returned files'.
Proof.
  induction files as [|n rest IH]; intros H; cbn [Transcribe.writeFileSync];
    [eauto|].
  cbn [entry] in H.
  destruct (String.eqb (node_name n) name) eqn:E.
  - destruct n as [n0 c0|n0 sub]; [eauto|].
    apply String.eqb_eq in E. cbn [node_name] in E. subst n0.
    by destruct (H sub).
  - destruct (IH H) as [rest' ->]. cbn [bind]. eauto.
Qed.

Lemma entry_name (files : list node) (name : string) (n : node) :
  entry files name = Some n -> node_name n = name.
Proof.
  induction files as [|m rest IH]; cbn [entry]; [discriminate|].
  destruct (String.eqb (node_name m) name) eqn:E; [|exact IH].
  intros [= <-]. by apply String.eqb_eq.
Qed.

(** ** Names of the files of an episode across the stages *)

Lemma endsWith_append (a b : string) : endsWith (a +:+ b) b = true.
Proof.
  induction a as [|x a IH].
  - rewrite append_nil_l. destruct b; cbn [endsWith];
      by rewrite String.eqb_refl.
  - rewrite append_cons. cbn [endsWith]. rewrite IH.
    by destruct (String.eqb _ _).
Qed.

Lemma endsWith_inv (s suffix : string) :
  endsWith s suffix = true -> exists stem : string, s = stem +:+ suffix.
Proof.
  induction s as [|x s IH]; cbn [endsWith].
  - destruct (String.eqb "" suffix) eqn:E; [|discriminate].
    apply String.eqb_eq in E. subst suffix. by exists "".
  - destruct (String.eqb (String x s) suffix) eqn:E.
    + apply String.eqb_eq in E. subst suffix. by exists "".
    + intros H. destruct (IH H) as [stem ->]. exists (String x stem).
      by rewrite append_cons.
Qed.

(** Replacing a pattern that starts with an underscore behind a stem
    without underscore replaces the suffix. *)
Lemma replace_underscore_suffix (stem pattern replacement : string) :
  Forall (fun a => a <> "_"%char) (list_ascii_of_string stem) ->
  replace (stem +:+ String "_" pattern) (String "_" pattern) replacement
    = stem +:+ replacement.
Proof.
  induction stem as [|a stem IH]; intros H.
  - rewrite !append_nil_l. cbn [replace].
    by rewrite strip_prefix_refl, append_nil_r.
  - cbn [list_ascii_of_string] in H. inversion H as [|? ? Ha Hrest]; subst.
    rewrite !append_cons. cbn [replace strip_prefix].
    destruct (Ascii.eqb "_" a) eqn:E.
    + apply Ascii.eqb_eq in E. by destruct Ha.
    + by rewrite IH.
Qed.

Lemma parse_name_json (stem : string) :
  stem <> "" -> parse_name (stem +:+ ".json") = stem.
Proof.
  intros Hne. unfold parse_name. rewrite last_dot_append.
  change (last_dot ".json") with (Some 0). cbv beta iota.
  destruct stem as [|a stem]; [done|].
  cbn [String.length Nat.add].
  assert (E : String.eqb (String a stem +:+ ".json") ".." = false).
  { destruct (String.eqb _ "..") eqn:E; [|reflexivity].
    apply String.eqb_eq in E. apply (f_equal String.length) in E.
    rewrite length_append in E. cbn in E. lia. }
  rewrite E.
  change (S (String.length stem + 0))
    with (String.length (String a stem) + 0).
  by rewrite substring_append, append_nil_r.
Qed.

Lemma no_underscore_not_suffix (stem tail suffix : string) :
  Forall (fun a => a <> "_"%char) (list_ascii_of_string (stem +:+ tail)) ->
  endsWith (stem +:+ tail) (String "_" suffix) = false.
Proof.
  intros H. destruct (endsWith _ _) eqn:E; [|reflexivity].
  apply endsWith_inv in E as [pre E]. rewrite E in H.
  rewrite list_ascii_append in H. apply Forall_app in H as [_ H].
  cbn [list_ascii_of_string] in H. by inversion H.
Qed.

(** ** The first occurrence of a text in a name *)






(** A pattern without the character [c] that begins in [dir ++ c ++ ...]
    within [dir] lies within [dir]. *)
Lemma strip_prefix_within (pattern dir rest : string) (c : ascii) :
  Forall (fun a => a <> c) (list_ascii_of_string pattern) ->
  is_Some (strip_prefix pattern (dir +:+ String c rest)) ->
  is_Some (strip_prefix pattern dir).
Proof.
  revert dir. induction pattern as [|a pattern IH]; intros dir Hc;
    [by eexists|].
  cbn [list_ascii_of_string] in Hc. inversion Hc as [|? ? Ha Hrest]; subst.
  destruct dir as [|b dir].
  - rewrite append_nil_l. cbn [strip_prefix].
    destruct (Ascii.eqb a c) eqn:E; [|by intros [? [=]]].
    apply Ascii.eqb_eq in E. by destruct Ha.
  - rewrite append_cons. cbn [strip_prefix].
    destruct (Ascii.eqb a b); [by apply IH | by intros [? [=]]].
Qed.

(** So a replacement passes over a directory path in which the pattern
    does not occur. *)
Lemma replace_behind_directory (dir name pattern replacement : string) :
  Forall (fun a => a <> "/"%char) (list_ascii_of_string pattern) ->
  pattern <> "" ->
  Observed.first_occurrence dir pattern = None ->
  replace (path_join dir name) pattern replacement
    = path_join dir (replace name pattern replacement).
Proof.
  intros Hc Hne. unfold path_join.
  induction dir as [|b dir IH]; cbn [Observed.first_occurrence]; intros Hnone.
  - rewrite !append_nil_l.
    destruct pattern as [|a pattern]; [done|].
    cbn [list_ascii_of_string] in Hc. inversion Hc as [|? ? Ha _]; subst.
    change ("/" +:+ name) with (String "/" name).
    change ("/" +:+ replace name (String a pattern) replacement)
      with (String "/" (replace name (String a pattern) replacement)).
    cbn [replace strip_prefix].
    destruct (Ascii.eqb a "/") eqn:E; [|reflexivity].
    apply Ascii.eqb_eq in E. by destruct Ha.
  - destruct (strip_prefix pattern (String b dir)) as [r|] eqn:E;
      [discriminate Hnone|].
    destruct (Observed.first_occurrence dir pattern) eqn:Hdir;
      [discriminate Hnone|].
    rewrite !(append_cons b dir). cbn [replace].
    destruct (strip_prefix pattern (String b (dir +:+ "/" +:+ name)))
      as [r|] eqn:E'.
    + assert (H : is_Some (strip_prefix pattern (String b dir))).
      { apply (strip_prefix_within pattern (String b dir) name "/" Hc).
        rewrite append_cons.
        change (String "/" name) with ("/" +:+ name). by eexists. }
      rewrite E in H. by destruct H.
    + by rewrite IH.
Qed.



(** X8: the file names of one episode agree across the stages.  For a
    metadata file [stem.json] whose stem is not empty and has no
    underscore (the stem is the episode id), the transcription stage
    writes [stem_transcript.json]; the labeling stage reads the
    metadata back under [stem.json], looks for
    [stem_transcript_labeled.json] and writes exactly that name; the
    database script, which replaces in the full path of the labeled
    transcript, reads the episode from [stem.json] in the same
    directory, for every directory whose path does not contain the
    text "_transcript_labeled.json"; and the transcription stage counts
    [stem.json] as a metadata file but neither of the two
    transcripts. *)
Theorem episode_file_names_agree (stem : string) :
  stem <> "" ->
  Forall (fun a => a <> "_"%char) (list_ascii_of_string stem) ->
  Transcribe.transcriptName (stem +:+ ".json") = stem +:+ "_transcript.json"
  /\ replace (stem +:+ "_transcript.json") "_transcript.json" ".json"
     = stem +:+ ".json"
  /\ replace (stem +:+ "_transcript.json")
             "_transcript.json" "_transcript_labeled.json"
     = LabelSpeakers.labeledTranscriptName (stem +:+ "_transcript.json")
  /\ LabelSpeakers.labeledTranscriptName (stem +:+ "_transcript.json")
     = stem +:+ "_transcript_labeled.json"
  /\ (forall dir : string,
        Observed.first_occurrence dir "_transcript_labeled.json" = None ->
        IndexFiles.episodePath
          (path_join dir (stem +:+ "_transcript_labeled.json"))
        = path_join dir (stem +:+ ".json"))
  /\ Transcribe.isMetadataFile (stem +:+ ".json") = true
  /\ Transcribe.isMetadataFile (stem +:+ "_transcript.json") = false
  /\ Transcribe.isMetadataFile (stem +:+ "_transcript_labeled.json") = false.
Proof.
  intros Hne Hstem. split_and!.
  - unfold Transcribe.transcriptName.
    by rewrite (parse_name_json stem).
  - by apply replace_underscore_suffix.
  - rewrite labeledTranscriptName_suffix.
    by apply replace_underscore_suffix.
  - apply labeledTranscriptName_suffix.
  - intros dir Hdir. unfold IndexFiles.episodePath.
    rewrite replace_behind_directory; [|
      cbn; repeat constructor; discriminate | discriminate | done].
    f_equal. by apply replace_underscore_suffix.
  - unfold Transcribe.isMetadataFile.
    rewrite endsWith_append.
    assert (H : Forall (fun a => a <> "_"%char)
                       (list_ascii_of_string (stem +:+ ".json"))).
    { rewrite list_ascii_append. apply Forall_app. split; [done|].
      cbn. repeat constructor; discriminate. }
    by rewrite !(no_underscore_not_suffix stem ".json").
  - unfold Transcribe.isMetadataFile.
    by rewrite (endsWith_append stem "_transcript.json"), andb_false_r.
  - unfold Transcribe.isMetadataFile.
    by rewrite (endsWith_append stem "_transcript_labeled.json"),
      andb_false_r.
Qed.

Lemma episode_file_names_agree_witness :
  Transcribe.transcriptName "15915208644.json"
    = "15915208644_transcript.json"
  /\ LabelSpeakers.labeledTranscriptName "15915208644_transcript.json"
     = "15915208644_transcript_labeled.json"
  /\ IndexFiles.episodePath
       "/srv/data/muscle_nerds/15915208644_transcript_labeled.json"
     = "/srv/data/muscle_nerds/15915208644.json"
  /\ Transcribe.isMetadataFile "15915208644.json" = true.
Proof.
  destruct (episode_file_names_agree "15915208644")
    as (H1 & _ & _ & H4 & H5 & H6 & _).
  - discriminate.
  - cbn. repeat constructor; discriminate.
  - split; [exact H1|]. split; [exact H4|]. split; [|exact H6].
    apply (H5 "/srv/data/muscle_nerds").
    by vm_compute.
Defined.

(** ** The labeling stage (label-speakers.ts), continued *)

(** X9: the search of the labeling stage answers for the whole tree.
    When it returns a file, that file is a transcript in a directory of
    the tree for which the labeled name the search computes is absent;
    when it returns [null], no directory of the tree holds a file
    ending in "_transcript.json" whose computed labeled name is
    absent. *)
Theorem findTranscriptFile_answers_for_the_tree
        (dataDir : string) (root : list node) :
  match LabelSpeakers.findTranscriptFile dataDir root with
  | Some r =>
      exists (files : list node) (c : content),
        Observed.reachable dataDir root (LabelSpeakers.directory r) files
        /\ File (LabelSpeakers.transcriptFile r) c ∈ files
        /\ Observed.unlabeled_transcript files (LabelSpeakers.transcriptFile r)
           = true
  | None =>
      forall (dir : string) (files : list node) (file : string) (c : content),
        Observed.reachable dataDir root dir files ->
        File file c ∈ files ->
        Observed.unlabeled_transcript files file = false
  end.
Proof.
  destruct (LabelSpeakers.findTranscriptFile dataDir root) as [r|] eqn:H.
  - by apply findTranscriptFile_sound.
  - intros dir files file c Hreach Hin.
    destruct (Observed.unlabeled_transcript files file) eqn:E; [|reflexivity].
    by destruct (findTranscriptFile_complete dataDir root dir files file c).
Qed.



Section Speakers.
Import LabelSpeakers.

Lemma distinct_NoDup (seen xs : list string) : NoDup (distinct seen xs).
Proof.
  revert seen. induction xs as [|x rest IH]; intros seen; cbn [distinct].
  - constructor.
  - case_bool_decide as Hx; [apply IH|].
    constructor; [|apply IH].
    rewrite elem_of_distinct. intros [_ H]. apply H. by left.
Qed.

Lemma distinct_sublist (seen xs : list string) : sublist (distinct seen xs) xs.
Proof.
  revert seen. induction xs as [|x rest IH]; intros seen; cbn [distinct].
  - constructor.
  - case_bool_decide as Hx.
    + apply sublist_cons, IH.
    + apply sublist_skip, IH.
Qed.

(** X11: the list of speakers put before the labeling model names every
    speaker token of the transcript exactly once, in the order of the
    transcript. *)
Theorem uniqueSpeakers_once_each (transcript : list TranscriptSegment) :
  NoDup (uniqueSpeakers transcript)
  /\ (forall token : string,
        token ∈ uniqueSpeakers transcript
        <-> token ∈ map speaker transcript)
  /\ sublist (uniqueSpeakers transcript) (map speaker transcript).
Proof.
  split; [apply distinct_NoDup|]. split.
  - apply elem_of_uniqueSpeakers.
  - apply distinct_sublist.
Qed.

(** X12: the mapping returned by [identifySpeakers], key by key.  At a
    speaker token of the transcript that the answer of the model does
    not leave to [Object.prototype] it holds the non-empty label of the
    model or "Unknown Speaker"; at any other key it holds what the
    parsed answer of the model holds there (such keys are kept as they
    are, empty labels included), and nothing when the call, the
    response or its parsing failed.  In particular it holds nothing at
    a token left to [Object.prototype], also when the token is a
    speaker of the transcript. *)
Theorem identifySpeakers_key_by_key
        (transcript : list TranscriptSegment) (response : model_response)
        (token : string) :
  identifySpeakers transcript response !! token
  = (if bool_decide (token ∈ map speaker transcript)
        && negb (Observed.left_to_prototype response token)
     then Some (default "Unknown Speaker"
                        (Observed.resolution response token))
     else match response with
          | Parsed speakerMapping => speakerMapping !! token
          | _ => None
          end)
  /\ (Observed.left_to_prototype response token = true ->
      identifySpeakers transcript response !! token = None).
Proof.
  assert (Hdec : bool_decide (token ∈ uniqueSpeakers transcript)
                 = bool_decide (token ∈ map speaker transcript)).
  { apply bool_decide_ext, elem_of_uniqueSpeakers. }
  assert (Hfallback :
            fromEntries (map (fun s => (s, "Unknown Speaker"))
                             (uniqueSpeakers transcript)) !! token
            = if bool_decide (token ∈ map speaker transcript) && negb false
              then Some "Unknown Speaker" else None).
  { unfold fromEntries.
    by rewrite fromEntries_lookup, Hdec, lookup_empty, andb_true_r. }
  destruct response as [ | | |m];
    try (split; [exact Hfallback | discriminate]).
  unfold identifySpeakers. rewrite ensure_all_lookup, Hdec.
  cbn [Observed.resolution Observed.left_to_prototype]. unfold unresolved.
  destruct (m !! token) as [label|].
  - split; [|discriminate].
    destruct (bool_decide (token ∈ map speaker transcript)); [|reflexivity].
    by destruct (String.eqb label "").
  - destruct (inherited token).
    + cbn [negb]. rewrite !andb_false_r. by split.
    + split; [|discriminate].
      by destruct (bool_decide (token ∈ map speaker transcript)).
Qed.
End Speakers.

(** ** Runs of the transcription stage (transcribe.ts) *)

Lemma metadata_file_not_log (f : string) :
  Transcribe.isMetadataFile f = true -> f <> "failed_transcriptions.txt".
Proof. intros H ->. discriminate H. Qed.

Lemma elem_of_names_existsSync (files : list node) (name : string) :
  name ∈ map node_name files -> existsSync files name = true.
Proof.
  unfold existsSync. induction files as [|n rest IH]; intros Hin;
    [inversion Hin|].
  cbn [map] in Hin. cbn [entry].
  destruct (String.eqb (node_name n) name) eqn:E; [reflexivity|].
  apply elem_of_cons in Hin as [Hin|Hin]; [|by apply IH].
  apply String.eqb_neq in E. by destruct E.
Qed.

Section TranscriptionRuns.
Variable Number_toString : number -> string.
Variable JSON_stringify : json -> string.
Variable transcribeAudio : value -> outcome json.

Let appendFileSync := Transcribe.appendFileSync JSON_stringify.
Let process_files :=
  Transcribe.process_files Number_toString JSON_stringify transcribeAudio.
Let processPodcastDirectory :=
  Transcribe.processPodcastDirectory
    Number_toString JSON_stringify transcribeAudio.
Let main_loop :=
  Transcribe.main_loop Number_toString JSON_stringify transcribeAudio.
Let main := Transcribe.main Number_toString JSON_stringify transcribeAudio.
Let log_text := Progress.log_text JSON_stringify.

Lemma appendFileSync_other (files files' : list node)
      (log line name : string) :
  appendFileSync files log line = Returned files' ->
  name <> log ->
  entry files' name = entry files name.
Proof.
  revert files'.
  induction files as [|n rest IH]; intros files' H Hne;
    unfold appendFileSync in H; cbn [Transcribe.appendFileSync] in H;
    fold appendFileSync in H.
  - injection H as <-. cbn [entry node_name].
    destruct (String.eqb log name) eqn:E; [|reflexivity].
    apply String.eqb_eq in E. by destruct Hne.
  - destruct (String.eqb (node_name n) log) eqn:E.
    + apply String.eqb_eq in E.
      destruct n as [n0 c|n0 sub]; [|discriminate H].
      injection H as <-. cbn [entry node_name] in *. subst n0.
      destruct (String.eqb log name) eqn:E2; [|reflexivity].
      apply String.eqb_eq in E2. by destruct Hne.
    + destruct (appendFileSync rest log line) as [rest'|] eqn:Hrest;
        cbn [bind] in H; [|discriminate H].
      injection H as <-. cbn [entry].
      destruct (String.eqb (node_name n) name); [reflexivity|].
      by apply IH.
Qed.

Lemma appendFileSync_text (files files' : list node) (log line : string) :
  appendFileSync files log line = Returned files' ->
  log_text files' log = log_text files log +:+ line.
Proof.
  unfold log_text, Progress.log_text. revert files'.
  induction files as [|n rest IH]; intros files' H;
    unfold appendFileSync in H; cbn [Transcribe.appendFileSync] in H;
    fold appendFileSync in H.
  - injection H as <-. cbn [entry node_name].
    by rewrite String.eqb_refl, append_nil_l.
  - destruct (String.eqb (node_name n) log) eqn:E.
    + destruct n as [n0 c|n0 sub]; [|discriminate H].
      injection H as <-. cbn [entry node_name] in *.
      by rewrite E, String.eqb_refl.
    + destruct (appendFileSync rest log line) as [rest'|] eqn:Hrest;
        cbn [bind] in H; [|discriminate H].
      injection H as <-. cbn [entry]. rewrite E. by apply IH.
Qed.

(** A listing that differs from another in the failure log only gives
    the same answers about metadata files. *)
Lemma called_for_same (files files' : list node) (call : string * value) :
  (forall name : string,
      name <> "failed_transcriptions.txt" ->
      entry files' name = entry files name) ->
  Transcribe.isMetadataFile call.1 = true ->
  Progress.called_for files' call -> Progress.called_for files call.
Proof.
  intros Hsame Hmeta (_ & H1 & H2 & H3).
  pose proof (metadata_file_not_log _ Hmeta) as Hne.
  pose proof (transcriptName_not_failure_log call.1) as Hne'.
  unfold Progress.called_for, Progress.eligible,
    Transcribe.loadEpisodeMetadata, Transcribe.hasExistingTranscript,
    existsSync in *.
  rewrite (Hsame _ Hne) in H1, H2, H3. rewrite (Hsame _ Hne') in H3.
  done.
Qed.

(** The loop over the metadata files, as a whole: the calls it adds,
    the entries it leaves alone, and the failure log. *)
Lemma process_files_trace (metadataFiles : list string) (files : list node)
      (calls : list (string * value)) :
  Forall (fun f => Transcribe.isMetadataFile f = true
                   /\ existsSync files f = true) metadataFiles ->
  exists (new : list (string * value)) (more : string),
    Transcribe.transcribed (process_files metadataFiles files calls)
    = calls ++ new
    /\ Forall (Progress.called_for files) new
    /\ (forall name : string,
          name <> "failed_transcriptions.txt" ->
          name ∉ map (fun call : string * value =>
                        Transcribe.transcriptName call.1) new ->
          entry (Transcribe.files_after
                   (process_files metadataFiles files calls)) name
          = entry files name)
    /\ log_text (Transcribe.files_after
                   (process_files metadataFiles files calls))
                "failed_transcriptions.txt"
       = log_text files "failed_transcriptions.txt" +:+ more
    /\ (new = [] ->
        process_files metadataFiles files calls
        = {| Transcribe.processed := false;
             Transcribe.files_after := files;
             Transcribe.transcribed := calls |}).
Proof.
  revert files calls.
  induction metadataFiles as [|f rest IH]; intros files calls Hmeta;
    unfold process_files; cbn [Transcribe.process_files];
    fold process_files.
  - exists [], "". rewrite app_nil_r, append_nil_r.
    cbn [Transcribe.transcribed Transcribe.files_after]. split_and!; done.
  - inversion Hmeta as [|? ? [Hf Hexists] Hrest]; subst.
    destruct (truthy (get (Transcribe.loadEpisodeMetadata files f)
                          "enclosureUrl")) eqn:Hurl;
      cbn [negb]; [|by apply IH].
    destruct (Transcribe.hasExistingTranscript files f) eqn:Hhas;
      [by apply IH|].
    set (url := get (Transcribe.loadEpisodeMetadata files f) "enclosureUrl")
      in *.
    assert (Hcall : Progress.called_for files (f, url)).
    { unfold Progress.called_for, Progress.eligible. cbn [fst snd].
      fold url. by rewrite Hurl, Hhas. }
    destruct (bind (transcribeAudio url) _) as [files'|] eqn:Hdone.
    { exists [(f, url)], "".
      cbn [Transcribe.transcribed Transcribe.files_after map fst].
      rewrite append_nil_r.
      destruct (transcribeAudio url) as [transcript|];
        cbn [bind] in Hdone; [|discriminate Hdone].
      unfold Transcribe.saveTranscript in Hdone.
      split; [done|]. split; [by constructor|]. split.
      - intros name _ Hname.
        apply (writeFileSync_other _ _ _ _ _ Hdone).
        intros ->. apply Hname. by left.
      - unfold log_text, Progress.log_text.
        rewrite (writeFileSync_other _ _ _ _ _ Hdone); [by split|].
        intros H. symmetry in H.
        by apply transcriptName_not_failure_log in H. }
    destruct (bind (ToString Number_toString _) _) as [files'|] eqn:Hlog.
    + destruct (ToString Number_toString (get _ "title")) as [title|];
        cbn [bind] in Hlog; [|discriminate Hlog].
      destruct (ToString Number_toString url) as [shown|];
        cbn [bind] in Hlog; [|discriminate Hlog].
      fold appendFileSync in Hlog.
      assert (Hsame : forall name : string,
                 name <> "failed_transcriptions.txt" ->
                 entry files' name = entry files name).
      { intros name Hne. by apply (appendFileSync_other _ _ _ _ _ Hlog). }
      assert (Hrest' : Forall (fun f => Transcribe.isMetadataFile f = true
                                        /\ existsSync files' f = true) rest).
      { eapply Forall_impl; [exact Hrest|]. intros g [Hg Hg'].
        split; [done|]. unfold existsSync in *.
        by rewrite (Hsame g (metadata_file_not_log g Hg)). }
      destruct (IH files' (calls ++ [(f, url)]) Hrest')
        as (new & more & H1 & H2 & H3 & H4 & _).
      exists ((f, url) :: new),
        ((f +:+ String "009"%char shown +:+ String "010"%char "") +:+ more).
      split; [by rewrite H1, <- app_assoc|]. split.
      { constructor; [done|].
        apply Forall_forall. intros call Hin.
        pose proof (proj1 (Forall_forall _ _) H2 call Hin) as Hc.
        apply (called_for_same files files'); [done| |done].
        by destruct Hc. }
      split.
      { intros name Hne Hname. rewrite H3; [by apply Hsame | done |].
        intros Hin. apply Hname. by right. }
      split; [|discriminate].
      by rewrite H4, (appendFileSync_text _ _ _ _ Hlog), append_assoc.
    + exists [(f, url)], "".
      cbn [Transcribe.transcribed Transcribe.files_after].
      rewrite append_nil_r. split_and!; try done. by constructor.
Qed.

Lemma processPodcastDirectory_trace (files : list node) :
  exists (new : list (string * value)) (more : string),
    Transcribe.transcribed (processPodcastDirectory files) = new
    /\ Forall (Progress.called_for files) new
    /\ (forall name : string,
          name <> "failed_transcriptions.txt" ->
          name ∉ map (fun call : string * value =>
                        Transcribe.transcriptName call.1) new ->
          entry (Transcribe.files_after (processPodcastDirectory files)) name
          = entry files name)
    /\ log_text (Transcribe.files_after (processPodcastDirectory files))
                "failed_transcriptions.txt"
       = log_text files "failed_transcriptions.txt" +:+ more
    /\ (new = [] ->
        processPodcastDirectory files
        = {| Transcribe.processed := false;
             Transcribe.files_after := files;
             Transcribe.transcribed := [] |}).
Proof.
  unfold processPodcastDirectory, Transcribe.processPodcastDirectory.
  fold process_files.
  apply (process_files_trace _ files []).
  apply Forall_forall. intros f Hf.
  apply list_elem_of_filter in Hf as [Hmeta Hin].
  split; [done|]. by apply elem_of_names_existsSync.
Qed.

Lemma processPodcastDirectory_complete (files : list node) :
  Progress.complete files ->
  processPodcastDirectory files
  = {| Transcribe.processed := false;
       Transcribe.files_after := files;
       Transcribe.transcribed := [] |}.
Proof.
  intros Hcomplete.
  destruct (processPodcastDirectory_trace files)
    as (new & more & _ & Hnew & _ & _ & Hnil).
  apply Hnil. destruct new as [|call new]; [done|].
  inversion Hnew as [|? ? (Hmeta & Hexists & _ & Heligible) _]; subst.
  rewrite Hcomplete in Heligible; [done| |done].
  clear -Hexists. unfold existsSync in Hexists.
  induction files as [|n rest IH]; [done|].
  cbn [entry map] in *.
  destruct (String.eqb (node_name n) call.1) eqn:E.
  - apply String.eqb_eq in E. rewrite <- E. by left.
  - right. by apply IH.
Qed.

(** The [while] loop over entries without pending work, from any of
    its states: it goes on to the end of the listing when the budget
    is not used up, and does not start otherwise. *)
Lemma main_loop_without_pending_work (budget processedCount : Z)
      (currentIndex : nat) (podcastDirs : list node) :
  Forall Progress.nothing_pending podcastDirs ->
  main_loop budget processedCount currentIndex podcastDirs
  = {| Transcribe.completed := processedCount;
       Transcribe.visited :=
         if (processedCount <? budget)%Z
         then currentIndex + length podcastDirs else currentIndex;
       Transcribe.data_after := podcastDirs;
       Transcribe.calls := [] |}.
Proof.
  intros H. revert currentIndex.
  induction H as [|n rest Hn _ IH]; intros currentIndex;
    unfold main_loop; cbn [Transcribe.main_loop]; fold main_loop.
  - cbn [length]. rewrite Nat.add_0_r.
    by destruct (processedCount <? budget)%Z.
  - destruct (processedCount <? budget)%Z eqn:Hbudget; [|done].
    assert (Hlen : S currentIndex + length rest
                   = currentIndex + length (n :: rest))
      by (cbn [length]; lia).
    destruct n as [name c|podcastDir files].
    + rewrite IH, ?Hbudget, Hlen. reflexivity.
    + fold processPodcastDirectory.
      rewrite (processPodcastDirectory_complete files Hn).
      cbn [Transcribe.processed Transcribe.files_after
           Transcribe.transcribed].
      rewrite IH, ?Hbudget, Hlen. reflexivity.
Qed.

(** X13: a run over a data folder without pending work changes
    nothing and ends in the ordinary way.  When in every podcast
    directory each metadata file either names no audio URL or has its
    transcript, [processPodcastDirectory] returns [false] for every
    podcast directory and leaves it as it is, without a call of
    [transcribeAudio]; [main] calls [transcribeAudio] not once, leaves
    every entry of the data folder as it is (no failure log is created
    either), counts no completed work, and its loop ends only after the
    last entry of the data folder when the budget is positive (with a
    budget of zero or less it does not start). *)
Theorem main_without_pending_work (argv2 : option string)
        (dataDir : list node) :
  Forall Progress.nothing_pending dataDir ->
  Transcribe.calls (main argv2 dataDir) = []
  /\ Transcribe.data_after (main argv2 dataDir) = dataDir
  /\ Transcribe.completed (main argv2 dataDir) = 0%Z
  /\ Transcribe.visited (main argv2 dataDir)
     = (if (0 <? Transcribe.numPodcasts argv2)%Z
        then length dataDir else 0)
  /\ (forall (podcastDir : string) (files : list node),
        Dir podcastDir files ∈ dataDir ->
        processPodcastDirectory files
        = {| Transcribe.processed := false;
             Transcribe.files_after := files;
             Transcribe.transcribed := [] |}).
Proof.
  intros H. unfold main, Transcribe.main. fold main_loop.
  rewrite (main_loop_without_pending_work _ _ _ _ H).
  cbn [Transcribe.calls Transcribe.data_after Transcribe.completed
       Transcribe.visited Nat.add].
  repeat split.
  intros podcastDir files Hin.
  apply processPodcastDirectory_complete.
  exact (proj1 (Forall_forall _ _) H _ Hin).
Qed.

(** X14: what [processPodcastDirectory] reports as processed is on
    disk.  When it returns [true], the last call of [transcribeAudio]
    it made was for an eligible metadata file of the directory, with
    the audio URL of that file; the call returned a transcript; the
    directory now holds that transcript under the transcript name of
    the metadata file; and the file is no longer eligible, so the next
    run passes over it. *)
Theorem processPodcastDirectory_success_is_stored (files : list node) :
  Transcribe.processed (processPodcastDirectory files) = true ->
  exists (earlier : list (string * value)) (f : string) (url : value)
         (transcript : json),
    Transcribe.transcribed (processPodcastDirectory files)
    = earlier ++ [(f, url)]
    /\ Progress.called_for files (f, url)
    /\ transcribeAudio url = Returned transcript
    /\ entry (Transcribe.files_after (processPodcastDirectory files))
             (Transcribe.transcriptName f)
       = Some (File (Transcribe.transcriptName f) (Document transcript))
    /\ Progress.eligible
         (Transcribe.files_after (processPodcastDirectory files)) f
       = false.
Proof.
  intros Hdone.
  destruct (processPodcastDirectory_trace files)
    as (new & more & Hnew & Hcalls & _).
  unfold processPodcastDirectory, Transcribe.processPodcastDirectory in *.
  apply (process_files_success Number_toString JSON_stringify transcribeAudio)
    in Hdone as (earlier & f & url & transcript & H1 & H2 & H3).
  exists earlier, f, url, transcript.
  split; [done|]. split.
  { rewrite H1 in Hnew. subst new.
    apply Forall_app in Hcalls as [_ Hcalls]. by inversion Hcalls. }
  split; [done|]. split; [done|].
  unfold Progress.eligible, Transcribe.hasExistingTranscript, existsSync.
  by rewrite H3, andb_false_r.
Qed.

Lemma transcriptName_suffix (metadataFile : string) :
  endsWith (Transcribe.transcriptName metadataFile) "_transcript.json" = true.
Proof. apply endsWith_append. Qed.

(** X15: [processPodcastDirectory] touches its own outputs only.  An
    entry of the directory other than the failure log keeps its
    content unless it is the transcript name of a file
    [transcribeAudio] was called for; in particular every entry whose
    name does not end in "_transcript.json" (metadata, audio, labeled
    transcripts) is as it was.  The failure log is only ever
    extended: its text after the call starts with its text before. *)
Theorem processPodcastDirectory_touches_only_its_outputs
        (files : list node) :
  (forall name : string,
      name <> "failed_transcriptions.txt" ->
      name ∉ map (fun call : string * value =>
                    Transcribe.transcriptName call.1)
                 (Transcribe.transcribed (processPodcastDirectory files)) ->
      entry (Transcribe.files_after (processPodcastDirectory files)) name
      = entry files name)
  /\ (forall name : string,
        name <> "failed_transcriptions.txt" ->
        endsWith name "_transcript.json" = false ->
        entry (Transcribe.files_after (processPodcastDirectory files)) name
        = entry files name)
  /\ exists more : string,
       log_text (Transcribe.files_after (processPodcastDirectory files))
                "failed_transcriptions.txt"
       = log_text files "failed_transcriptions.txt" +:+ more.
Proof.
  destruct (processPodcastDirectory_trace files)
    as (new & more & -> & _ & Hframe & Hlog & _).
  split; [exact Hframe|]. split; [|by exists more].
  intros name Hne Hsuffix. apply Hframe; [done|].
  intros Hin. apply list_elem_of_fmap in Hin as (call & -> & _).
  by rewrite transcriptName_suffix in Hsuffix.
Qed.

(** X16: across a run of [main], [transcribeAudio] is called only for
    pending work: each call is made for a metadata file of a podcast
    directory of the data folder that names an audio URL and has no
    transcript in that directory, and with that URL. *)
Theorem main_calls_transcribeAudio_for_pending_files
        (argv2 : option string) (dataDir : list node) :
  Forall (fun call : string * (string * value) =>
            exists files : list node,
              Dir call.1 files ∈ dataDir
              /\ Progress.called_for files call.2)
         (Transcribe.calls (main argv2 dataDir)).
Proof.
  unfold main, Transcribe.main. fold main_loop.
  generalize (Transcribe.numPodcasts argv2) as budget.
  generalize 0 as currentIndex. generalize 0%Z as processedCount.
  intros processedCount currentIndex budget.
  revert processedCount currentIndex.
  induction dataDir as [|n rest IH]; intros processedCount currentIndex;
    unfold main_loop; cbn [Transcribe.main_loop]; fold main_loop;
    [constructor|].
  destruct (processedCount <? budget)%Z; [|constructor].
  assert (Hrest : forall c i,
             Forall (fun call : string * (string * value) =>
                       exists files : list node,
                         Dir call.1 files ∈ n :: rest
                         /\ Progress.called_for files call.2)
                    (Transcribe.calls (main_loop budget c i rest))).
  { intros c i. eapply Forall_impl; [apply IH|].
    intros call (files & H1 & H2). exists files. split; [by right | done]. }
  destruct n as [name c|podcastDir files]; cbn [Transcribe.calls];
    [apply Hrest|].
  apply Forall_app. split; [|apply Hrest].
  fold processPodcastDirectory.
  destruct (processPodcastDirectory_trace files)
    as (new & more & -> & Hnew & _).
  apply Forall_forall. intros call Hin.
  apply list_elem_of_fmap in Hin as (inner & -> & Hin).
  exists files. split; [by left|].
  by apply (proj1 (Forall_forall _ _) Hnew).
Qed.
End TranscriptionRuns.

Lemma main_without_pending_work_witness :
  let dataDir :=
    [ Dir "muscle_nerds"
          [ File "7.json"
                 (Document (JObj [ ("id", JNum (Finite 7));
                                   ("enclosureUrl", JStr "https://a/7.mp3") ]));
            File "7.mp3" (Text "");
            File "7_transcript.json" (Document (JArr []));
            Dir "8.json" [];
            Dir "8_transcript.json" [] ];
      File "notes.txt" (Text "") ] in
  let run :=
    Transcribe.main Observed.integer_toString (fun _ => "")
                    (fun _ => Thrown "offline") (Some "3") dataDir in
  Forall Progress.nothing_pending dataDir
  /\ Transcribe.data_after run = dataDir
  /\ Transcribe.visited run = 2.
Proof.
  intros dataDir run.
  assert (H : Forall Progress.nothing_pending dataDir).
  { constructor; [|by repeat constructor]. intros f Hin Hmeta.
    cbn in Hin. repeat (apply elem_of_cons in Hin as [->|Hin]);
      try discriminate Hmeta; [reflexivity | reflexivity
                               | by apply elem_of_nil in Hin]. }
  pose proof (main_without_pending_work
                Observed.integer_toString (fun _ => "")
                (fun _ => Thrown "offline") (Some "3") dataDir H)
    as (_ & Hdata & _ & Hvisited & _).
  split; [exact H|]. split; [exact Hdata | exact Hvisited].
Defined.

Lemma processPodcastDirectory_success_is_stored_witness :
  let files :=
    [ File "7.json"
           (Document (JObj [ ("id", JNum (Finite 7));
                             ("enclosureUrl", JStr "https://a/7.mp3") ])) ] in
  let p :=
    Transcribe.processPodcastDirectory
      Observed.integer_toString (fun _ => "")
      (fun _ => Returned (JArr [])) files in
  Transcribe.processed p = true
  /\ exists f : string,
       Progress.eligible (Transcribe.files_after p) f = false.
Proof.
  intros files p.
  assert (H : Transcribe.processed p = true) by (vm_compute; reflexivity).
  split; [exact H|].
  destruct (processPodcastDirectory_success_is_stored
              Observed.integer_toString (fun _ => "")
              (fun _ => Returned (JArr [])) files H)
    as (_ & f & _ & _ & _ & _ & _ & _ & Hf).
  exists f. exact Hf.
Defined.

(** ** Skip-if-output-exists across the two stages *)












Section SkipIfOutputExists.
Variable Number_toString : number -> string.
Variable JSON_stringify : json -> string.
Variable transcribeAudio : value -> outcome json.

Let process_files :=
  Transcribe.process_files Number_toString JSON_stringify transcribeAudio.
Let processPodcastDirectory :=
  Transcribe.processPodcastDirectory
    Number_toString JSON_stringify transcribeAudio.
Let main_loop :=
  Transcribe.main_loop Number_toString JSON_stringify transcribeAudio.
Let main := Transcribe.main Number_toString JSON_stringify transcribeAudio.




End SkipIfOutputExists.



(** ** From the segments of the model to a validated transcript
       (transcribe.ts, label-speakers.ts, index.ts) *)

From Stdlib Require Import Lqa.

Lemma floor_minutes (q : Q) :
  Qle 0 q -> (0 <= Qfloor (Qdiv q (inject_Z 60)))%Z.
Proof.
  intros H. rewrite <- (Qfloor_Z 0). apply Qfloor_resp_le.
  apply Qle_shift_div_l; [reflexivity|].
  change (inject_Z 0) with 0%Q. lra.
Qed.

Lemma floor_minutes_bound (q : Q) :
  Qlt q (inject_Z (2 ^ 53)) ->
  (Qfloor (Qdiv q (inject_Z 60)) < 10 ^ 21)%Z.
Proof.
  intros H. rewrite Zlt_Qlt. eapply Qle_lt_trans; [apply Qfloor_le|].
  apply Qlt_shift_div_r; [reflexivity|].
  eapply Qlt_trans; [exact H|]. reflexivity.
Qed.

Lemma floor_seconds (q : Q) :
  Qle 0 q ->
  (0 <= Qfloor (Qminus q (Qmult (inject_Z 60)
           (inject_Z (Diarization.truncate (Qdiv q (inject_Z 60))))))
   < 60)%Z.
Proof.
  intros H. unfold Diarization.truncate.
  assert (Hx : Qle 0 (Qdiv q (inject_Z 60))).
  { apply Qle_shift_div_l; [reflexivity|]. lra. }
  apply Qle_bool_iff in Hx as Hb. rewrite Hb.
  set (x := Qdiv q (inject_Z 60)) in *.
  pose proof (Qfloor_le x) as H1. pose proof (Qlt_floor x) as H2.
  rewrite inject_Z_plus in H2.
  assert (Hq : Qeq q (Qmult x (inject_Z 60))).
  { unfold x. field. }
  set (k := Qfloor x) in *.
  change (inject_Z 60) with 60%Q in *. change (inject_Z 1) with 1%Q in *.
  split.
  - rewrite <- (Qfloor_Z 0). apply Qfloor_resp_le.
    change (inject_Z 0) with 0%Q. lra.
  - rewrite Zlt_Qlt. eapply Qle_lt_trans; [apply Qfloor_le|].
    change (inject_Z 60) with 60%Q. lra.
Qed.

Lemma uint_digits (d : Decimal.uint) :
  all_digits (NilEmpty.string_of_uint d) = true.
Proof.
  induction d; cbn [NilEmpty.string_of_uint all_digits];
    rewrite ?IHd; reflexivity.
Qed.

(** The decimal digits of a non-negative integer. *)
Lemma decimal_digits (z : Z) :
  (0 <= z)%Z ->
  NilZero.string_of_int (Z.to_int z) <> ""
  /\ all_digits (NilZero.string_of_int (Z.to_int z)) = true.
Proof.
  intros Hz. destruct z as [|p|p]; [by split | |lia].
  cbn [Z.to_int NilZero.string_of_int]. unfold NilZero.string_of_uint.
  pose proof (uint_digits (Pos.to_uint p)) as H.
  destruct (Pos.to_uint p); by split.
Qed.

Lemma all_digits_padStart (s : string) (n : nat) :
  all_digits (Diarization.padStart s n "0") = all_digits s.
Proof.
  unfold Diarization.padStart.
  induction (n - String.length s) as [|k IH];
    cbn [Diarization.repeat_char]; [by rewrite append_nil_l|].
  rewrite append_cons. cbn [all_digits]. by rewrite IH.
Qed.

Lemma padStart_nonempty (s : string) (n : nat) :
  s <> "" -> Diarization.padStart s n "0" <> "".
Proof.
  unfold Diarization.padStart. intros Hs H.
  apply append_eq_nil in H as [_ H]. by destruct Hs.
Qed.

(** A number of seconds below 60, printed and padded, is two digits
    that denote it. *)
Lemma two_digit_seconds (n : nat) :
  n < 60 ->
  exists d1 d2 : ascii,
    Diarization.padStart (NilZero.string_of_int (Z.to_int (Z.of_nat n)))
                         2 "0"
    = String d1 (String d2 "")
    /\ is_digit d1 = true /\ is_digit d2 = true
    /\ (10 * digit_value d1 + digit_value d2 < 60)%Z.
Proof.
  intros H.
  assert (Hall : forallb
                   (fun k =>
                      Diarization.seconds_digits
                        (Diarization.padStart
                           (NilZero.string_of_int (Z.to_int (Z.of_nat k)))
                           2 "0"))
                   (seq 0 60) = true) by (vm_compute; reflexivity).
  rewrite forallb_forall in Hall.
  specialize (Hall n (proj2 (in_seq 60 0 n) ltac:(lia))).
  unfold Diarization.seconds_digits in Hall.
  destruct (Diarization.padStart _ _ _) as [|d1 [|d2 [|? ?]]];
    try discriminate Hall.
  apply andb_true_iff in Hall as [Hall H3].
  apply andb_true_iff in Hall as [H1 H2]. apply Z.ltb_lt in H3.
  by exists d1, d2.
Qed.

Lemma well_formed_fields (e : json) (sp f t c : string) :
  get e "speaker" = Some (JStr sp) ->
  get e "timestampFrom" = Some (JStr f) ->
  get e "timestampTo" = Some (JStr t) ->
  get e "content" = Some (JStr c) ->
  Documented.well_formed_entry e
  <-> sp <> "" /\ Documented.valid_timestamp f
      /\ Documented.valid_timestamp t /\ c <> "".
Proof.
  intros Hsp Hf Ht Hc. unfold Documented.well_formed_entry.
  rewrite Hsp, Hf, Ht, Hc. split.
  - intros (sp' & f' & t' & c' & [= <-] & ? & [= <-] & ? & [= <-] & ?
            & [= <-] & ?). done.
  - intros (? & ? & ? & ?). exists sp, f, t, c. split_and!; done.
Qed.

Section Conversion.
Variable Number_toString : number -> string.
Variable JSON_stringify : json -> string.
Variable replicate_run
  : string -> outcome (option (list Diarization.ReplicateSegment)).

Let formatTime := Diarization.formatTime Number_toString.
Let convert := Diarization.convert Number_toString.
Let transcribeAudio :=
  Diarization.transcribeAudio Number_toString replicate_run.
Let validateTranscriptData :=
  Index.validateTranscriptData Number_toString JSON_stringify.

Lemma formatTime_in_range (seconds : number) :
  Diarization.prints_integers Number_toString ->
  Diarization.time_in_range seconds ->
  Documented.valid_timestamp (formatTime seconds).
Proof.
  intros Hprints Hrange.
  destruct seconds as [q| |]; try done. destruct Hrange as [Hq Hbound].
  unfold formatTime, Diarization.formatTime.
  cbn [Diarization.divide Diarization.remainder Diarization.Math_floor].
  pose proof (floor_minutes q Hq) as Hm.
  pose proof (floor_minutes_bound q Hbound) as Hm'.
  pose proof (floor_seconds q Hq) as [Hs Hs'].
  rewrite (Hprints _ Hm Hm'), (Hprints _ Hs) by lia.
  destruct (decimal_digits _ Hm) as [Hne Hdigits].
  destruct (two_digit_seconds
              (Z.to_nat (Qfloor (q - inject_Z 60
                                     * inject_Z (Diarization.truncate
                                                   (q / inject_Z 60))))))
    as (d1 & d2 & Hpad & H1 & H2 & Hlt); [lia|].
  rewrite Z2Nat.id in Hpad by done. rewrite Hpad.
  split.
  - eexists _, d1, d2. split; [by apply padStart_nonempty|].
    split; [by rewrite all_digits_padStart|]. by split_and!.
  - unfold Documented.seconds_of.
    rewrite list_ascii_append. cbn [list_ascii_of_string].
    rewrite rev_app_distr. by cbn [rev app].
Qed.

(** X17: [formatTime] produces timestamps the validator accepts.  For
    a time in seconds that is not negative (and below 2^53),
    [formatTime] gives the minutes in at least two digits, a colon,
    and two digits that denote a number below 60: the shape
    [validateTranscriptData] requires of [timestampFrom] and
    [timestampTo], and on which its two format checks pass. *)
Theorem formatTime_gives_valid_timestamps (seconds : number) :
  Diarization.prints_integers Number_toString ->
  Diarization.time_in_range seconds ->
  Documented.valid_timestamp (formatTime seconds)
  /\ Observed.timestamp_ok (formatTime seconds) = true
  /\ 5 <= String.length (formatTime seconds).
Proof.
  intros Hprints Hrange.
  pose proof (formatTime_in_range seconds Hprints Hrange) as H.
  split; [exact H|]. split; [by apply timestamp_ok_valid|].
  destruct seconds as [q| |]; try done.
  unfold formatTime, Diarization.formatTime, Diarization.padStart.
  rewrite !length_append.
  assert (Hlen : forall s : string,
             2 <= String.length (Diarization.repeat_char
                                   (2 - String.length s) "0")
                  + String.length s).
  { intros [|a [|b s]]; cbn; lia. }
  pose proof (Hlen (Number_toString
                      (Diarization.Math_floor
                         (Diarization.divide (Finite q) 60)))).
  pose proof (Hlen (Number_toString
                      (Diarization.Math_floor
                         (Diarization.remainder (Finite q) 60)))).
  cbn [String.length]. lia.
Qed.

Lemma convert_well_formed (segment : Diarization.ReplicateSegment) :
  Diarization.prints_integers Number_toString ->
  Diarization.time_in_range (Diarization.start segment) ->
  Diarization.time_in_range (Diarization.end_ segment) ->
  forall e : json,
    get e "speaker"
    = Some (JStr (LabelSpeakers.speaker (convert segment))) ->
    get e "timestampFrom"
    = Some (JStr (LabelSpeakers.timestampFrom (convert segment))) ->
    get e "timestampTo"
    = Some (JStr (LabelSpeakers.timestampTo (convert segment))) ->
    get e "content"
    = Some (JStr (LabelSpeakers.content (convert segment))) ->
    Documented.well_formed_entry e <-> Diarization.text segment <> "".
Proof.
  intros Hprints Hstart Hend e Hsp Hf Ht Hc.
  rewrite (well_formed_fields e _ _ _ _ Hsp Hf Ht Hc).
  cbn [convert Diarization.convert LabelSpeakers.speaker
         LabelSpeakers.timestampFrom LabelSpeakers.timestampTo
         LabelSpeakers.content].
  split; [by intros (_ & _ & _ & H)|]. intros H.
  split_and!; [ |by apply formatTime_in_range
                |by apply formatTime_in_range|done].
  intros E. apply append_eq_nil in E as [E _]. discriminate E.
Qed.

(** X18: what the pipeline writes passes the transcript validator,
    empty segments apart.  When the model answers with segments whose
    times are not negative, [transcribeAudio] returns one transcript
    segment per model segment, and both the transcript and the labeled
    transcript made from it (under any speaker mapping) are accepted
    by [validateTranscriptData] exactly when no segment has an empty
    text. *)
Theorem pipeline_transcripts_validate
        (audioUrl : string) (segments : list Diarization.ReplicateSegment)
        (speakerMapping : LabelSpeakers.SpeakerMapping) :
  Diarization.prints_integers Number_toString ->
  replicate_run audioUrl = Returned (Some segments) ->
  Forall (fun segment =>
            Diarization.time_in_range (Diarization.start segment)
            /\ Diarization.time_in_range (Diarization.end_ segment))
         segments ->
  exists transcript : list LabelSpeakers.TranscriptSegment,
    transcribeAudio audioUrl = Returned transcript
    /\ length transcript = length segments
    /\ (let written := map Diarization.segment_json transcript in
        Forall (fun segment => Diarization.text segment <> "") segments
        <-> validateTranscriptData (JArr written)
            = Returned {| Index.isValid := true; Index.errors := [];
                          Index.data := Some written |})
    /\ (let written :=
          map LabelSpeakersOutput.labeled_json
              (LabelSpeakers.labelTranscript transcript speakerMapping) in
        Forall (fun segment => Diarization.text segment <> "") segments
        <-> validateTranscriptData (JArr written)
            = Returned {| Index.isValid := true; Index.errors := [];
                          Index.data := Some written |}).
Proof.
  intros Hprints Hrun Hrange.
  exists (map convert segments).
  unfold transcribeAudio, Diarization.transcribeAudio. rewrite Hrun.
  fold convert. split; [done|]. split; [apply length_map|].
  cbv zeta. unfold validateTranscriptData.
  rewrite <- !validateTranscriptData_well_formed_iff.
  unfold LabelSpeakers.labelTranscript. rewrite !Forall_fmap.
  split.
  - split; intros H.
    + apply Forall_forall. intros segment Hin.
      pose proof (proj1 (Forall_forall _ _) Hrange segment Hin) as [Hs He].
      pose proof (proj1 (Forall_forall _ _) H segment Hin) as Htext.
      by apply (convert_well_formed segment Hprints Hs He
                  (Diarization.segment_json (convert segment))).
    + apply Forall_forall. intros segment Hin.
      pose proof (proj1 (Forall_forall _ _) Hrange segment Hin) as [Hs He].
      pose proof (proj1 (Forall_forall _ _) H segment Hin) as Hwf.
      by apply (convert_well_formed segment Hprints Hs He
                  (Diarization.segment_json (convert segment))).
  - split; intros H.
    + apply Forall_forall. intros segment Hin.
      pose proof (proj1 (Forall_forall _ _) Hrange segment Hin) as [Hs He].
      pose proof (proj1 (Forall_forall _ _) H segment Hin) as Htext.
      cbn [compose].
      by apply (convert_well_formed segment Hprints Hs He).
    + apply Forall_forall. intros segment Hin.
      pose proof (proj1 (Forall_forall _ _) Hrange segment Hin) as [Hs He].
      pose proof (proj1 (Forall_forall _ _) H segment Hin) as Hwf.
      cbn [compose] in Hwf.
      by apply (convert_well_formed segment Hprints Hs He) in Hwf.
Qed.
End Conversion.

Lemma integer_toString_prints_integers :
  Diarization.prints_integers Observed.integer_toString.
Proof.
  intros z _ _. unfold Observed.integer_toString. by rewrite Qfloor_Z.
Qed.

Lemma formatTime_gives_valid_timestamps_witness :
  Diarization.time_in_range (Finite 3725.5)
  /\ Diarization.formatTime Observed.integer_toString (Finite 3725.5)
     = "62:05"
  /\ Documented.valid_timestamp "62:05".
Proof.
  assert (H : Diarization.time_in_range (Finite 3725.5)).
  { split; [discriminate | reflexivity]. }
  split; [exact H|]. split; [vm_compute; reflexivity|].
  exact (proj1 (formatTime_gives_valid_timestamps
                  Observed.integer_toString (Finite 3725.5)
                  integer_toString_prints_integers H)).
Defined.

Lemma pipeline_transcripts_validate_witness :
  let segments :=
    [ {| Diarization.speaker := Finite 0; Diarization.start := Finite 0;
         Diarization.end_ := Finite 7.25;
         Diarization.text := "Welcome back." |} ] in
  exists transcript : list LabelSpeakers.TranscriptSegment,
    Diarization.transcribeAudio
      Observed.integer_toString (fun _ => Returned (Some segments))
      "https://a/7.mp3"
    = Returned transcript
    /\ length transcript = 1.
Proof.
  intros segments.
  destruct (pipeline_transcripts_validate
              Observed.integer_toString (fun _ => "")
              (fun _ => Returned (Some segments)) "https://a/7.mp3"
              segments ∅ integer_toString_prints_integers eq_refl)
    as (transcript & H1 & H2 & _).
  - constructor; [|constructor].
    split; (split; [discriminate | reflexivity]).
  - exists transcript. split; [exact H1 | exact H2].
Defined.

(** ** Downloading the episodes (download-metadata.ts) *)

Lemma replace_directory_entry (data : list node) (name : string)
      (files : list node) :
  entry (Download.replace_directory data name files) name
  = Some (Dir name files).
Proof.
  induction data as [|n rest IH]; cbn [Download.replace_directory].
  - cbn [entry node_name]. by rewrite String.eqb_refl.
  - destruct (String.eqb (node_name n) name) eqn:E; cbn [entry node_name].
    + by rewrite String.eqb_refl.
    + by rewrite E.
Qed.

Lemma replace_directory_other (data : list node) (name other : string)
      (files : list node) :
  other <> name ->
  entry (Download.replace_directory data name files) other
  = entry data other.
Proof.
  intros Hne.
  assert (Hneq : String.eqb name other = false).
  { apply String.eqb_neq. congruence. }
  induction data as [|n rest IH]; cbn [Download.replace_directory].
  - cbn [entry node_name]. by rewrite Hneq.
  - destruct (String.eqb (node_name n) name) eqn:E; cbn [entry node_name].
    + apply String.eqb_eq in E. by rewrite E, Hneq.
    + by rewrite IH.
Qed.

Lemma replace_directory_same (data : list node) (name : string)
      (files : list node) :
  entry data name = Some (Dir name files) ->
  Download.replace_directory data name files = data.
Proof.
  induction data as [|n rest IH]; cbn [entry Download.replace_directory];
    [discriminate|].
  destruct (String.eqb (node_name n) name) eqn:E.
  - by intros [= ->].
  - intros H. by rewrite IH.
Qed.

(** The podcast directory after it was stored is the listing stored. *)
Lemma open_store_directory (data : list node) (name : string)
      (files : list node) :
  Download.open_directory (Download.store_directory data name files) name
  = Some files.
Proof.
  unfold Download.open_directory, Download.store_directory.
  destruct (String.eqb name ""); [done|].
  by rewrite replace_directory_entry.
Qed.

(** Storing the listing a directory has changes nothing, unless the
    directory was only just created. *)
Lemma store_directory_same (data : list node) (name : string)
      (files : list node) :
  Download.open_directory data name = Some files ->
  files <> [] ->
  Download.store_directory data name files = data.
Proof.
  unfold Download.open_directory, Download.store_directory.
  destruct (String.eqb name ""); [by intros [= ->]|].
  destruct (entry data name) as [[f c|d sub]|] eqn:E; try discriminate.
  - intros [= ->] _. apply replace_directory_same.
    pose proof (entry_name _ _ _ E) as Hname. cbn [node_name] in Hname.
    by subst d.
  - by intros [= <-].
Qed.

Lemma existsSync_nonempty (files : list node) (name : string) :
  existsSync files name = true -> files <> [].
Proof. by destruct files. Qed.

Section Downloads.
Variable Number_toString : number -> string.
Variable JSON_stringify : json -> string.
Variable fetch : string -> Download.fetched.

Let audioName := Download.audioName Number_toString.
Let metadataName := Download.metadataName Number_toString.
Let failure_line := Download.failure_line Number_toString.
Let record_failure := Download.record_failure Number_toString JSON_stringify.
Let download_into :=
  Download.download_into Number_toString JSON_stringify fetch.
Let downloadEpisode :=
  Download.downloadEpisode Number_toString JSON_stringify fetch.
Let log_text := Progress.log_text JSON_stringify.

Lemma audio_not_metadata (episode : Download.PodcastEpisode) :
  audioName episode <> metadataName episode.
Proof.
  unfold audioName, metadataName, Download.audioName, Download.metadataName.
  intros H.
  apply (f_equal (fun s => rev (list_ascii_of_string s))) in H.
  rewrite !list_ascii_append, !rev_app_distr in H. discriminate H.
Qed.

Lemma audio_not_log (episode : Download.PodcastEpisode) :
  audioName episode <> "failed_downloads.txt".
Proof.
  unfold audioName, Download.audioName. intros H.
  apply (f_equal (fun s => rev (list_ascii_of_string s))) in H.
  rewrite !list_ascii_append, !rev_app_distr in H. discriminate H.
Qed.

Lemma metadata_not_log (episode : Download.PodcastEpisode) :
  metadataName episode <> "failed_downloads.txt".
Proof.
  unfold metadataName, Download.metadataName. intros H.
  apply (f_equal (fun s => rev (list_ascii_of_string s))) in H.
  rewrite !list_ascii_append, !rev_app_distr in H. discriminate H.
Qed.

Lemma downloadEpisode_in_directory (data : list node)
      (episode : Download.PodcastEpisode) (files : list node) :
  Download.open_directory
    data (DownloadMetadata.sanitizedTitle (Download.feedTitle episode))
  = Some files ->
  downloadEpisode data episode
  = {| Download.data_after :=
         Download.store_directory
           data (DownloadMetadata.sanitizedTitle (Download.feedTitle episode))
           (download_into files episode).1.1;
       Download.fetches := (download_into files episode).1.2;
       Download.aborted := (download_into files episode).2 |}.
Proof.
  intros H. unfold downloadEpisode, Download.downloadEpisode.
  rewrite H. fold download_into.
  by destruct (download_into files episode) as [[files' fetches] aborted].
Qed.

Lemma download_into_skip (files : list node)
      (episode : Download.PodcastEpisode) :
  existsSync files (audioName episode) = true ->
  existsSync files (metadataName episode) = true ->
  download_into files episode = (files, [], false).
Proof.
  intros Ha Hm. unfold download_into, Download.download_into.
  fold audioName metadataName. by rewrite Ha, Hm.
Qed.

Lemma downloadEpisode_skip
      (data : list node) (episode : Download.PodcastEpisode)
      (files : list node) :
  Download.open_directory
    data (DownloadMetadata.sanitizedTitle (Download.feedTitle episode))
  = Some files ->
  existsSync files (audioName episode) = true ->
  existsSync files (metadataName episode) = true ->
  downloadEpisode data episode
  = {| Download.data_after := data; Download.fetches := [];
       Download.aborted := false |}.
Proof.
  intros Hopen Ha Hm.
  rewrite (downloadEpisode_in_directory data episode files Hopen).
  rewrite (download_into_skip files episode Ha Hm). cbn [fst snd].
  rewrite (store_directory_same data _ files Hopen); [done|].
  by apply (existsSync_nonempty files (audioName episode)).
Qed.

Lemma appendFileSync_returns (files : list node) (log line : string) :
  Download.writable files log ->
  exists files',
    Transcribe.appendFileSync JSON_stringify files log line = Returned files'.
Proof.
  unfold Download.writable.
  induction files as [|n rest IH]; intros H;
    cbn [Transcribe.appendFileSync]; [eauto|].
  cbn [entry] in H.
  destruct (String.eqb (node_name n) log) eqn:E.
  - destruct n as [n0 c0|n0 sub]; [eauto|].
    apply String.eqb_eq in E. cbn [node_name] in E. subst n0.
    by destruct (H sub).
  - destruct (IH H) as [rest' ->]. cbn [bind]. eauto.
Qed.

Lemma record_failure_frame (files : list node)
      (episode : Download.PodcastEpisode) (fetches : list string)
      (name : string) :
  name <> "failed_downloads.txt" ->
  entry (record_failure files episode fetches).1.1 name = entry files name.
Proof.
  intros Hne. unfold record_failure, Download.record_failure.
  destruct (Transcribe.appendFileSync _ _ _ _) as [files'|] eqn:H; [|done].
  cbn [fst]. by apply (appendFileSync_other JSON_stringify _ _ _ _ _ H).
Qed.

Lemma record_failure_fetches (files : list node)
      (episode : Download.PodcastEpisode) (fetches : list string) :
  (record_failure files episode fetches).1.2 = fetches.
Proof.
  unfold record_failure, Download.record_failure.
  by destruct (Transcribe.appendFileSync _ _ _ _).
Qed.

Lemma record_failure_logged (files : list node)
      (episode : Download.PodcastEpisode) (fetches : list string) :
  Download.writable files "failed_downloads.txt" ->
  exists files',
    record_failure files episode fetches = (files', fetches, false)
    /\ log_text files' "failed_downloads.txt"
       = log_text files "failed_downloads.txt" +:+ failure_line episode
    /\ forall name : string,
         name <> "failed_downloads.txt" ->
         entry files' name = entry files name.
Proof.
  intros Hlog. unfold record_failure, Download.record_failure.
  fold failure_line.
  destruct (appendFileSync_returns files "failed_downloads.txt"
              (failure_line episode) Hlog) as [files' H].
  rewrite H. exists files'. split; [done|]. split.
  - by apply (appendFileSync_text JSON_stringify).
  - intros name Hne.
    by apply (appendFileSync_other JSON_stringify _ _ _ _ _ H).
Qed.

(** The metadata step of [downloadEpisode]: what the listing is after
    it, when it does not throw. *)
Lemma metadata_step (files files1 : list node)
      (episode : Download.PodcastEpisode) :
  (if negb (existsSync files (metadataName episode))
   then Transcribe.writeFileSync files (metadataName episode)
          (Document (Download.episode_json episode))
   else Returned files) = Returned files1 ->
  existsSync files1 (metadataName episode) = true
  /\ (existsSync files (metadataName episode) = false ->
      entry files1 (metadataName episode)
      = Some (File (metadataName episode)
                   (Document (Download.episode_json episode))))
  /\ forall name : string,
       existsSync files name = true \/ name <> metadataName episode ->
       entry files1 name = entry files name.
Proof.
  destruct (existsSync files (metadataName episode)) eqn:Hm; cbn [negb].
  - intros [= <-]. by split_and!.
  - intros H. pose proof (writeFileSync_entry _ _ _ _ H) as Hentry.
    split; [unfold existsSync; by rewrite Hentry|]. split; [done|].
    intros name [Hname|Hname].
    + apply (writeFileSync_other _ _ _ _ _ H). intros ->. congruence.
    + by apply (writeFileSync_other _ _ _ _ _ H).
Qed.

Lemma download_into_frame (files : list node)
      (episode : Download.PodcastEpisode) (name : string) :
  name <> "failed_downloads.txt" ->
  existsSync files name = true
  \/ (name <> audioName episode /\ name <> metadataName episode) ->
  entry (download_into files episode).1.1 name = entry files name.
Proof.
  intros Hlog Hname. unfold download_into, Download.download_into.
  fold audioName metadataName record_failure.
  destruct (existsSync files (audioName episode)
            && existsSync files (metadataName episode)); [done|].
  destruct (if negb (existsSync files (metadataName episode)) then _ else _)
    as [files1|] eqn:Hstep; [|by apply record_failure_frame].
  apply metadata_step in Hstep as (_ & _ & Hsame).
  assert (H1 : entry files1 name = entry files name).
  { apply Hsame. destruct Hname as [H|[_ H]]; [by left | by right]. }
  destruct (existsSync files1 (audioName episode)) eqn:Ha; cbn [negb];
    [done|].
  assert (Hne : name <> audioName episode).
  { destruct Hname as [H|[H _]]; [|done]. intros ->.
    unfold existsSync in H, Ha. rewrite <- H1 in H. by rewrite H in Ha. }
  destruct (fetch _); try by rewrite record_failure_frame.
  destruct (Transcribe.writeFileSync files1 _ _) as [files2|] eqn:Hw;
    [|by rewrite record_failure_frame].
  cbn [fst]. by rewrite (writeFileSync_other _ _ _ _ _ Hw).
Qed.

Lemma download_into_success (files : list node)
      (episode : Download.PodcastEpisode) (bytes : string) :
  Download.writable files (metadataName episode) ->
  Download.writable files (audioName episode) ->
  fetch (Download.enclosureUrl episode) = Download.Body bytes ->
  exists files',
    download_into files episode
    = (files',
       if existsSync files (audioName episode) then []
       else [Download.enclosureUrl episode],
       false)
    /\ existsSync files' (audioName episode) = true
    /\ existsSync files' (metadataName episode) = true
    /\ (existsSync files (audioName episode) = false ->
        entry files' (audioName episode)
        = Some (File (audioName episode) (Text bytes)))
    /\ (existsSync files (metadataName episode) = false ->
        entry files' (metadataName episode)
        = Some (File (metadataName episode)
                     (Document (Download.episode_json episode)))).
Proof.
  intros Hwm Hwa Hfetch. unfold download_into, Download.download_into.
  fold audioName metadataName record_failure.
  destruct (existsSync files (audioName episode)) eqn:Ha;
    destruct (existsSync files (metadataName episode)) eqn:Hm;
    cbn [andb negb].
  - exists files. by split_and!.
  - destruct (writeFileSync_returns files (metadataName episode)
                (Document (Download.episode_json episode)) Hwm)
      as [files1 Hw].
    rewrite Hw.
    pose proof (writeFileSync_entry _ _ _ _ Hw) as Hentry.
    assert (Ha1 : existsSync files1 (audioName episode) = true).
    { unfold existsSync in *.
      rewrite (writeFileSync_other _ _ _ _ _ Hw); [done|].
      apply audio_not_metadata. }
    rewrite Ha1. cbn [negb]. exists files1.
    split; [done|]. split; [done|].
    split; [unfold existsSync; by rewrite Hentry|]. by split.
  - rewrite Ha. cbn [negb]. rewrite Hfetch.
    destruct (writeFileSync_returns files (audioName episode)
                (Text bytes) Hwa) as [files2 Hw].
    rewrite Hw. pose proof (writeFileSync_entry _ _ _ _ Hw) as Hentry.
    exists files2. split; [done|].
    split; [unfold existsSync; by rewrite Hentry|]. split.
    { unfold existsSync in *.
      rewrite (writeFileSync_other _ _ _ _ _ Hw); [done|].
      intros H. symmetry in H. by apply audio_not_metadata in H. }
    by split.
  - destruct (writeFileSync_returns files (metadataName episode)
                (Document (Download.episode_json episode)) Hwm)
      as [files1 Hw1].
    rewrite Hw1.
    pose proof (writeFileSync_entry _ _ _ _ Hw1) as Hentry1.
    assert (Hsame : entry files1 (audioName episode)
                    = entry files (audioName episode)).
    { apply (writeFileSync_other _ _ _ _ _ Hw1), audio_not_metadata. }
    assert (Ha1 : existsSync files1 (audioName episode) = false).
    { unfold existsSync in *. by rewrite Hsame. }
    rewrite Ha1. cbn [negb]. rewrite Hfetch.
    assert (Hwa1 : Download.writable files1 (audioName episode)).
    { intros sub. rewrite Hsame. apply Hwa. }
    destruct (writeFileSync_returns files1 (audioName episode)
                (Text bytes) Hwa1) as [files2 Hw2].
    rewrite Hw2. pose proof (writeFileSync_entry _ _ _ _ Hw2) as Hentry2.
    assert (Hmeta : entry files2 (metadataName episode)
                    = Some (File (metadataName episode)
                                 (Document (Download.episode_json episode)))).
    { rewrite (writeFileSync_other _ _ _ _ _ Hw2); [done|].
      intros H. symmetry in H. by apply audio_not_metadata in H. }
    exists files2. split; [done|].
    split; [unfold existsSync; by rewrite Hentry2|].
    split; [unfold existsSync; by rewrite Hmeta|]. by split.
Qed.

(** X19: a successful download is complete and is not repeated.  When
    the podcast directory of an episode can be written to and the
    fetch of its audio answers with a body, [downloadEpisode] ends
    without error with the audio and the metadata of the episode in
    the podcast directory: a missing audio file holds the body
    fetched, a missing metadata file holds the episode, and the URL
    was fetched exactly when the audio was missing.  Called again on
    the resulting data folder, it fetches nothing and changes
    nothing. *)
Theorem downloadEpisode_downloads_once
        (data : list node) (episode : Download.PodcastEpisode)
        (files : list node) (bytes : string) :
  let directory :=
    DownloadMetadata.sanitizedTitle (Download.feedTitle episode) in
  Download.open_directory data directory = Some files ->
  Download.writable files (metadataName episode) ->
  Download.writable files (audioName episode) ->
  fetch (Download.enclosureUrl episode) = Download.Body bytes ->
  exists files' : list node,
    downloadEpisode data episode
    = {| Download.data_after :=
           Download.store_directory data directory files';
         Download.fetches :=
           if existsSync files (audioName episode) then []
           else [Download.enclosureUrl episode];
         Download.aborted := false |}
    /\ Download.open_directory
         (Download.store_directory data directory files') directory
       = Some files'
    /\ (existsSync files (audioName episode) = false ->
        entry files' (audioName episode)
        = Some (File (audioName episode) (Text bytes)))
    /\ (existsSync files (metadataName episode) = false ->
        entry files' (metadataName episode)
        = Some (File (metadataName episode)
                     (Document (Download.episode_json episode))))
    /\ existsSync files' (audioName episode) = true
    /\ existsSync files' (metadataName episode) = true
    /\ downloadEpisode (Download.store_directory data directory files')
                       episode
       = {| Download.data_after :=
              Download.store_directory data directory files';
            Download.fetches := []; Download.aborted := false |}.
Proof.
  intros directory Hopen Hwm Hwa Hfetch.
  destruct (download_into_success files episode bytes Hwm Hwa Hfetch)
    as (files' & Hrun & Ha & Hm & Haudio & Hmeta).
  exists files'.
  rewrite (downloadEpisode_in_directory data episode files Hopen), Hrun.
  cbn [fst snd]. fold directory. split; [done|].
  split; [apply open_store_directory|]. split; [done|]. split; [done|].
  split; [done|]. split; [done|].
  apply (downloadEpisode_skip _ episode files');
    [apply open_store_directory | done | done].
Qed.

(** X20: [downloadEpisode] never overwrites a file.  Every entry that
    exists in the podcast directory before the call, the failure log
    apart, is in it unchanged after the call (so the metadata and the
    audio of this and of any other episode are written at most once);
    the only names it can add are the audio, the metadata and the
    failure log; when both the audio and the metadata are there it
    does nothing at all; and no other podcast directory of the data
    folder is touched. *)
Theorem downloadEpisode_never_overwrites
        (data : list node) (episode : Download.PodcastEpisode)
        (files : list node) :
  let directory :=
    DownloadMetadata.sanitizedTitle (Download.feedTitle episode) in
  Download.open_directory data directory = Some files ->
  exists files' : list node,
    Download.open_directory
      (Download.data_after (downloadEpisode data episode)) directory
    = Some files'
    /\ (forall name : string,
          name <> "failed_downloads.txt" ->
          existsSync files name = true
          \/ (name <> audioName episode /\ name <> metadataName episode) ->
          entry files' name = entry files name)
    /\ (existsSync files (audioName episode) = true ->
        existsSync files (metadataName episode) = true ->
        downloadEpisode data episode
        = {| Download.data_after := data; Download.fetches := [];
             Download.aborted := false |})
    /\ (directory <> "" ->
        forall other : string,
          other <> directory ->
          entry (Download.data_after (downloadEpisode data episode)) other
          = entry data other).
Proof.
  intros directory Hopen.
  pose proof (downloadEpisode_skip data episode files Hopen) as Hskip.
  rewrite (downloadEpisode_in_directory data episode files Hopen) in *.
  cbn [Download.data_after]. fold directory.
  exists (download_into files episode).1.1.
  split; [apply open_store_directory|]. split.
  { intros name Hlog Hname. by apply download_into_frame. }
  split; [exact Hskip|].
  intros Hne other Hother. unfold Download.store_directory.
  apply String.eqb_neq in Hne. rewrite Hne.
  by apply replace_directory_other.
Qed.

(** X21: a failed download is recorded and left for the next run.
    When the audio of an episode is missing and the fetch is rejected
    or answers with an error status, [downloadEpisode] still ends
    without error: the metadata of the episode is in the podcast
    directory, the audio is not, and the failure log has grown by the
    line of the episode (id, title and URL, separated by tabs).  As
    the audio is missing, the next call fetches the URL again. *)
Theorem downloadEpisode_failed_fetch_is_logged
        (data : list node) (episode : Download.PodcastEpisode)
        (files : list node) :
  let directory :=
    DownloadMetadata.sanitizedTitle (Download.feedTitle episode) in
  Download.open_directory data directory = Some files ->
  Download.writable files (metadataName episode) ->
  Download.writable files "failed_downloads.txt" ->
  existsSync files (audioName episode) = false ->
  (forall bytes : string,
      fetch (Download.enclosureUrl episode) <> Download.Body bytes) ->
  exists files' : list node,
    downloadEpisode data episode
    = {| Download.data_after :=
           Download.store_directory data directory files';
         Download.fetches := [Download.enclosureUrl episode];
         Download.aborted := false |}
    /\ existsSync files' (metadataName episode) = true
    /\ existsSync files' (audioName episode) = false
    /\ log_text files' "failed_downloads.txt"
       = log_text files "failed_downloads.txt" +:+ failure_line episode
    /\ Download.fetches
         (downloadEpisode (Download.store_directory data directory files')
                          episode)
       = [Download.enclosureUrl episode].
Proof.
  intros directory Hopen Hwm Hwl Ha Hfetch.
  assert (Hfail : forall (files1 : list node),
             match fetch (Download.enclosureUrl episode) with
             | Download.Body bytes =>
                 match
                   Transcribe.writeFileSync files1 (audioName episode)
                                            (Text bytes)
                 with
                 | Returned files2 =>
                     (files2, [Download.enclosureUrl episode], false)
                 | Thrown _ =>
                     record_failure files1 episode
                                    [Download.enclosureUrl episode]
                 end
             | _ => record_failure files1 episode
                                   [Download.enclosureUrl episode]
             end
             = record_failure files1 episode [Download.enclosureUrl episode]).
  { intros files1. destruct (fetch _) as [ | |bytes] eqn:E; try done.
    by destruct (Hfetch bytes). }
  assert (Hrun : exists files',
             download_into files episode
             = (files', [Download.enclosureUrl episode], false)
             /\ existsSync files' (metadataName episode) = true
             /\ existsSync files' (audioName episode) = false
             /\ log_text files' "failed_downloads.txt"
                = log_text files "failed_downloads.txt"
                    +:+ failure_line episode).
  { unfold download_into, Download.download_into.
    fold audioName metadataName record_failure.
    rewrite Ha. cbn [andb].
    destruct (if negb (existsSync files (metadataName episode))
              then Transcribe.writeFileSync
                     files (metadataName episode)
                     (Document (Download.episode_json episode))
              else Returned files) as [files1|] eqn:Hstep.
    2:{ destruct (existsSync files (metadataName episode));
          cbn [negb] in Hstep; [discriminate Hstep|].
        destruct (writeFileSync_returns files (metadataName episode)
                    (Document (Download.episode_json episode)) Hwm)
          as [files1 Hw].
        rewrite Hw in Hstep. discriminate Hstep. }
    apply metadata_step in Hstep as (Hm1 & _ & Hsame).
    assert (Ha1 : existsSync files1 (audioName episode) = false).
    { unfold existsSync in *. rewrite Hsame; [done|].
      right. apply audio_not_metadata. }
    rewrite Ha1. cbn [negb]. rewrite Hfail.
    assert (Hwl1 : Download.writable files1 "failed_downloads.txt").
    { intros sub. rewrite Hsame; [apply Hwl|].
      right. intros H. symmetry in H. by apply metadata_not_log in H. }
    destruct (record_failure_logged files1 episode
                [Download.enclosureUrl episode] Hwl1)
      as (files' & -> & Htext & Hother).
    exists files'. split; [done|]. unfold existsSync in *.
    rewrite !Hother by (apply metadata_not_log || apply audio_not_log).
    split; [done|]. split; [done|].
    rewrite Htext. f_equal. unfold log_text, Progress.log_text.
    rewrite Hsame; [done|].
    right. intros H. symmetry in H. by apply metadata_not_log in H. }
  destruct Hrun as (files' & Hrun & Hm & Ha' & Htext).
  exists files'.
  rewrite (downloadEpisode_in_directory data episode files Hopen), Hrun.
  cbn [fst snd]. fold directory.
  split; [done|]. split; [done|]. split; [done|]. split; [done|].
  rewrite (downloadEpisode_in_directory _ episode files')
    by apply open_store_directory.
  cbn [Download.fetches].
  unfold download_into, Download.download_into.
  fold audioName metadataName record_failure.
  rewrite Ha', Hm. cbn [andb negb]. rewrite Ha'. cbn [negb].
  rewrite Hfail. apply record_failure_fetches.
Qed.

(** X22: a run over episodes that are all downloaded does nothing.
    When every episode of the list has its audio and its metadata in
    its podcast directory, [processEpisodes] fetches no URL, leaves the
    data folder exactly as it is and ends without error. *)
Theorem processEpisodes_nothing_to_download
        (episodes : list Download.PodcastEpisode) (data : list node) :
  Forall (Download.downloaded Number_toString data) episodes ->
  Download.processEpisodes Number_toString JSON_stringify fetch episodes data
  = {| Download.data_after := data; Download.fetches := [];
       Download.aborted := false |}.
Proof.
  induction 1 as [|episode rest (files & Hopen & Ha & Hm) _ IH];
    cbn [Download.processEpisodes]; [done|].
  fold downloadEpisode.
  rewrite (downloadEpisode_skip data episode files Hopen Ha Hm).
  cbn [Download.aborted Download.data_after Download.fetches].
  by rewrite IH.
Qed.
End Downloads.

Lemma downloadEpisode_downloads_once_witness :
  let episode :=
    {| Download.id := Finite 7; Download.title := "Sleep";
       Download.description := ""; Download.datePublished := Finite 1700000000;
       Download.duration := Finite 3600; Download.link := "https://a/7";
       Download.enclosureUrl := "https://a/7.mp3";
       Download.feedTitle := "Muscle Nerds!"; Download.feedId := Finite 3 |} in
  let r :=
    Download.downloadEpisode Observed.integer_toString (fun _ => "")
                             (fun _ => Download.Body "ID3") [] episode in
  Download.fetches r = ["https://a/7.mp3"]
  /\ Download.fetches
       (Download.downloadEpisode Observed.integer_toString (fun _ => "")
                                 (fun _ => Download.Body "ID3")
                                 (Download.data_after r) episode)
     = [].
Proof.
  intros episode r.
  destruct (downloadEpisode_downloads_once
              Observed.integer_toString (fun _ => "")
              (fun _ => Download.Body "ID3") [] episode [] "ID3")
    as (files' & Hrun & _ & _ & _ & _ & _ & Hagain);
    [reflexivity | by intros sub | by intros sub | reflexivity |].
  subst r. rewrite Hrun. cbn [Download.fetches Download.data_after].
  split; [reflexivity|]. by rewrite Hagain.
Defined.

Lemma downloadEpisode_never_overwrites_witness :
  let episode :=
    {| Download.id := Finite 7; Download.title := "Sleep";
       Download.description := ""; Download.datePublished := Finite 1700000000;
       Download.duration := Finite 3600; Download.link := "https://a/7";
       Download.enclosureUrl := "https://a/7.mp3";
       Download.feedTitle := "Muscle Nerds!"; Download.feedId := Finite 3 |} in
  let files := [ File "7.json" (Document (JObj [("id", JNum (Finite 7))])) ] in
  let data := [ Dir "muscle_nerds_" files ] in
  exists files' : list node,
    Download.open_directory
      (Download.data_after
         (Download.downloadEpisode Observed.integer_toString (fun _ => "")
                                   (fun _ => Download.HttpError) data episode))
      "muscle_nerds_"
    = Some files'
    /\ entry files' "7.json" = entry files "7.json".
Proof.
  intros episode files data.
  destruct (downloadEpisode_never_overwrites
              Observed.integer_toString (fun _ => "")
              (fun _ => Download.HttpError) data episode files eq_refl)
    as (files' & Hopen & Hsame & _).
  exists files'. split; [exact Hopen|].
  apply Hsame; [discriminate | by left].
Defined.

Lemma downloadEpisode_failed_fetch_is_logged_witness :
  let episode :=
    {| Download.id := Finite 7; Download.title := "Sleep";
       Download.description := ""; Download.datePublished := Finite 1700000000;
       Download.duration := Finite 3600; Download.link := "https://a/7";
       Download.enclosureUrl := "https://a/7.mp3";
       Download.feedTitle := "Muscle Nerds!"; Download.feedId := Finite 3 |} in
  exists files' : list node,
    Download.data_after
      (Download.downloadEpisode Observed.integer_toString (fun _ => "")
                                (fun _ => Download.NetworkError) [] episode)
    = [Dir "muscle_nerds_" files']
    /\ existsSync files' "7.mp3" = false
    /\ Progress.log_text (fun _ => "") files' "failed_downloads.txt"
       = "7" +:+ String "009"%char "Sleep"
           +:+ String "009"%char "https://a/7.mp3" +:+ String "010"%char "".
Proof.
  intros episode.
  destruct (downloadEpisode_failed_fetch_is_logged
              Observed.integer_toString (fun _ => "")
              (fun _ => Download.NetworkError) [] episode [])
    as (files' & Hrun & _ & Ha & Htext & _);
    [reflexivity | by intros sub | by intros sub | reflexivity
     | discriminate |].
  exists files'. rewrite Hrun. split; [reflexivity|].
  split; [exact Ha|]. exact Htext.
Defined.

Lemma processEpisodes_nothing_to_download_witness :
  let episode :=
    {| Download.id := Finite 7; Download.title := "Sleep";
       Download.description := ""; Download.datePublished := Finite 1700000000;
       Download.duration := Finite 3600; Download.link := "https://a/7";
       Download.enclosureUrl := "https://a/7.mp3";
       Download.feedTitle := "Muscle Nerds!"; Download.feedId := Finite 3 |} in
  let data :=
    [ Dir "muscle_nerds_"
          [ File "7.json" (Document (Download.episode_json episode));
            File "7.mp3" (Text "ID3") ] ] in
  Download.fetches
    (Download.processEpisodes Observed.integer_toString (fun _ => "")
                              (fun _ => Download.NetworkError)
                              [episode; episode] data)
  = [].
Proof.
  intros episode data.
  assert (H : Download.downloaded Observed.integer_toString data episode).
  { eexists. split; [reflexivity|]. by split. }
  assert (Hall : Forall (Download.downloaded Observed.integer_toString data)
                        [episode; episode]).
  { constructor; [exact H|]. constructor; [exact H | constructor]. }
  by rewrite (processEpisodes_nothing_to_download
                Observed.integer_toString (fun _ => "")
                (fun _ => Download.NetworkError) [episode; episode] data Hall).
Defined.

(** ** Finding and validating the files to store (index.ts) *)

Lemma reachable_trans (d1 : string) (r1 : list node) (d2 : string)
      (r2 : list node) (d3 : string) (r3 : list node) :
  Observed.reachable d1 r1 d2 r2 ->
  Observed.reachable d2 r2 d3 r3 ->
  Observed.reachable d1 r1 d3 r3.
Proof.
  intros H12 H23. induction H23 as [|dir files name sub _ IH Hsub]; [done|].
  by apply (Observed.reachable_sub d1 r1 dir files name sub).
Qed.

(** A directory of the tree is the root or lies below an entry of the
    root. *)
Lemma reachable_from_root (dataDir : string) (root : list node)
      (dir : string) (files : list node) :
  Observed.reachable dataDir root dir files ->
  (dir = dataDir /\ files = root)
  \/ exists (name : string) (sub : list node),
       Dir name sub ∈ root
       /\ Observed.reachable (path_join dataDir name) sub dir files.
Proof.
  induction 1 as [|dir files name sub _ IH Hsub]; [by left|].
  right. destruct IH as [[-> ->]|(name0 & sub0 & Hin & Hreach)].
  - exists name, sub. split; [done|]. constructor.
  - exists name0, sub0. split; [done|].
    by apply (Observed.reachable_sub _ _ dir files name sub).
Qed.

Lemma lang_literal (t s : string) : lang (IndexFiles.literal t) s <-> s = t.
Proof.
  revert s. induction t as [|c t IH]; intros s; cbn [IndexFiles.literal].
  - split; [by inversion 1 | intros ->; constructor].
  - rewrite lang_seq_inv. split.
    + intros (s1 & s2 & -> & H1 & H2).
      apply lang_class_inv in H1 as (c' & -> & Hc).
      apply Ascii.eqb_eq in Hc as <-. apply IH in H2 as ->. reflexivity.
    + intros ->. exists (String c ""), t. split; [reflexivity|].
      split; [|by apply IH]. constructor. apply Ascii.eqb_refl.
Qed.

Lemma lang_any (s : string) : lang (Star (Class (fun _ => true))) s.
Proof.
  induction s as [|c s IH]; [constructor|].
  change (String c s) with (String c "" +:+ s).
  apply lang_star_cons; [by constructor | exact IH].
Qed.

Lemma labeledTranscriptPattern_suffix (file : string) :
  matches IndexFiles.labeledTranscriptPattern file
  = endsWith file "_transcript_labeled.json".
Proof.
  apply eq_true_iff_eq. rewrite matches_lang.
  unfold IndexFiles.labeledTranscriptPattern. rewrite lang_seq_inv. split.
  - intros (pre & t & -> & _ & Ht). apply lang_literal in Ht as ->.
    apply endsWith_append.
  - intros H. apply endsWith_inv in H as [stem ->].
    exists stem, "_transcript_labeled.json". split; [done|].
    split; [apply lang_any | by apply lang_literal].
Qed.

Section Finding.
Variable pattern : regex.

(** What a path in the result of one entry comes from. *)
Let found_below (dir : string) (files : list node) (path : string) : Prop :=
  exists (dir' : string) (files' : list node) (name : string) (c : content),
    Observed.reachable dir files dir' files'
    /\ File name c ∈ files'
    /\ matches pattern name = true
    /\ path = path_join dir' name.

Let found_at (dir : string) (n : node) (path : string) : Prop :=
  match n with
  | File name _ => matches pattern name = true /\ path = path_join dir name
  | Dir name sub => found_below (path_join dir name) sub path
  end.

Lemma found_in_listing (dir : string) (files : list node) (path : string) :
  Forall (fun n => forall dir path,
              path ∈ IndexFiles.findFiles_entry dir pattern n
              <-> found_at dir n path) files ->
  path ∈ IndexFiles.findFiles dir files pattern
  <-> found_below dir files path.
Proof.
  intros IH. rewrite Forall_forall in IH.
  unfold IndexFiles.findFiles. rewrite list_elem_of_In, in_flat_map. split.
  - intros (n & Hn & Hpath). apply list_elem_of_In in Hn, Hpath.
    apply (IH n Hn) in Hpath. destruct n as [name c|name sub].
    + destruct Hpath as [Hm ->]. exists dir, files, name, c.
      split; [constructor | done].
    + destruct Hpath as (dir' & files' & name' & c' & Hreach & Hrest).
      exists dir', files', name', c'. split; [|done].
      apply (reachable_trans _ _ (path_join dir name) sub); [|done].
      apply (Observed.reachable_sub _ _ dir files name sub);
        [constructor | done].
  - intros (dir' & files' & name & c & Hreach & Hin & Hm & ->).
    apply reachable_from_root in Hreach
      as [[-> ->]|(name0 & sub0 & Hsub & Hreach)].
    + exists (File name c). split; [by apply list_elem_of_In|].
      apply list_elem_of_In, (IH _ Hin). by split.
    + exists (Dir name0 sub0). split; [by apply list_elem_of_In|].
      apply list_elem_of_In, (IH _ Hsub).
      by exists dir', files', name, c.
Qed.

Lemma found_in_entry (n : node) :
  forall (dir path : string),
    path ∈ IndexFiles.findFiles_entry dir pattern n <-> found_at dir n path.
Proof.
  induction n as [name c|name sub IH] using node_nested_ind;
    intros dir path; cbn [IndexFiles.findFiles_entry found_at].
  - destruct (matches pattern name).
    + rewrite list_elem_of_singleton. split; [by intros -> | by intros [_ ->]].
    + split; [by intros H%elem_of_nil | by intros [H _]].
  - by apply (found_in_listing (path_join dir name) sub path).
Qed.

(** X23: [findFiles] lists exactly the files of the tree whose name
    matches the pattern: a path is in the result if and only if it is
    the path of a file (not a directory) in the data folder or in a
    directory below it, at any depth, and the name of the file matches.
    With the pattern of [validateFiles] these are the files whose name
    ends in "_transcript_labeled.json". *)
Theorem findFiles_lists_the_matching_files
        (dataDir : string) (root : list node) (path : string) :
  (path ∈ IndexFiles.findFiles dataDir root pattern
   <-> exists (dir : string) (files : list node) (name : string)
              (c : content),
         Observed.reachable dataDir root dir files
         /\ File name c ∈ files
         /\ matches pattern name = true
         /\ path = path_join dir name)
  /\ (forall file : string,
        matches IndexFiles.labeledTranscriptPattern file
        = endsWith file "_transcript_labeled.json").
Proof.
  split; [|exact labeledTranscriptPattern_suffix].
  apply found_in_listing, Forall_forall. intros n _. apply found_in_entry.
Qed.
End Finding.

(** What a valid episode holds in the fields read afterwards. *)
Lemma validateEpisodeData_valid (episodeData : json) :
  Index.isValid (Index.validateEpisodeData episodeData) = true ->
  Index.data (Index.validateEpisodeData episodeData) = Some episodeData
  /\ Observed.nonzero_number (get episodeData "id") = true
  /\ Documented.is_nonempty_string (get episodeData "title") = true
  /\ Observed.number_or_falsy (get episodeData "datePublished") = true.
Proof.
  unfold Index.validateEpisodeData.
  destruct (negb (truthy (Some episodeData)) || _); [discriminate|].
  rewrite missing_or_not_number, missing_or_not_string,
    !present_and_not_number, !push_if_when_violated.
  cbn [Index.errors Index.isValid Index.data].
  destruct (Observed.nonzero_number _), (Documented.is_nonempty_string _),
    (Observed.number_or_falsy (get _ "datePublished")),
    (Observed.number_or_falsy (get _ "dateCrawled")),
    (Observed.number_or_falsy (get _ "duration")),
    (Observed.number_or_falsy (get _ "episode")); by cbn.
Qed.

Section Acceptance.
Variable Number_toString : number -> string.
Variable JSON_stringify : json -> string.

Let validate_pair := IndexFiles.validate_pair Number_toString JSON_stringify.
Let validateTranscriptData :=
  Index.validateTranscriptData Number_toString JSON_stringify.

Lemma validate_pair_accepted (episodeFile transcriptFile : option node)
      (item : Index.ValidatedData) :
  validate_pair episodeFile transcriptFile = Some item
  <-> exists (episodeName transcriptName : string) (episodeData : json)
             (entries : list json),
        episodeFile = Some (File episodeName (Document episodeData))
        /\ transcriptFile
           = Some (File transcriptName (Document (JArr entries)))
        /\ Index.isValid (Index.validateEpisodeData episodeData) = true
        /\ IndexFiles.valid_time
             (Index.times
                (IndexFiles.ToNumber (get episodeData "datePublished")) 1000)
           = true
        /\ Forall Documented.well_formed_entry entries
        /\ item = {| Index.episode := episodeData;
                     Index.transcript := Some entries |}.
Proof.
  unfold validate_pair, IndexFiles.validate_pair. split.
  - destruct episodeFile as [[episodeName [episodeData|t]|d sub]|];
      try discriminate.
    destruct (Index.isValid (Index.validateEpisodeData episodeData))
      eqn:Hvalid; cbn [negb orb]; [|discriminate].
    destruct (validateEpisodeData_valid episodeData Hvalid)
      as (Hdata & Hid & Htitle & _).
    rewrite Hdata.
    destruct (negb (truthy (Some episodeData))); [discriminate|].
    destruct (ToString Number_toString (get episodeData "title"));
      cbn [bind]; [|discriminate].
    destruct (ToString Number_toString (get episodeData "id"));
      cbn [bind]; [|discriminate].
    destruct (IndexFiles.valid_time _) eqn:Hdate; [|discriminate].
    destruct transcriptFile as [[transcriptName [transcriptData|t]|d sub]|];
      try discriminate.
    destruct (Index.validateTranscriptData _ _ transcriptData)
      as [result|] eqn:Hresult; [|discriminate].
    destruct (Index.isValid result) eqn:Hok; cbn [negb]; [|discriminate].
    intros [= <-].
    destruct transcriptData as [ | | | |entries| ];
      try (cbn in Hresult; injection Hresult as <-; discriminate Hok).
    unfold Index.validateTranscriptData in Hresult.
    destruct (Index.forEach_entry _ _ 0 entries []) as [errors|] eqn:Hloop;
      cbn [bind] in Hresult; [|discriminate Hresult].
    injection Hresult as <-. cbn [Index.isValid Index.data] in *.
    destruct (forEach_entry_no_message Number_toString JSON_stringify
                entries errors Hloop Hok) as [-> Hall].
    exists episodeName, transcriptName, episodeData, entries.
    by rewrite Hok.
  - intros (episodeName & transcriptName & episodeData & entries
            & -> & -> & Hvalid & Hdate & Hall & ->).
    rewrite Hvalid. cbn [negb orb].
    destruct (validateEpisodeData_valid episodeData Hvalid)
      as (Hdata & Hid & Htitle & _).
    rewrite Hdata.
    assert (Htruthy : truthy (Some episodeData) = true).
    { destruct episodeData; try discriminate Hid. reflexivity. }
    rewrite Htruthy. cbn [negb].
    destruct (get episodeData "title") as [[ | | |title| | ]|];
      try discriminate Htitle.
    destruct (get episodeData "id") as [[ | |n| | | ]|] eqn:Eid;
      try discriminate Hid.
    cbn [ToString ToString_json bind]. rewrite Hdate.
    apply (validateTranscriptData_well_formed_iff
             Number_toString JSON_stringify) in Hall.
    by rewrite Hall.
Qed.

(** X24: which pairs of files [validateFiles] accepts.  The loop body
    pushes an item for a labeled transcript exactly when the episode
    file exists and holds a JSON document that [validateEpisodeData]
    accepts, the date made of [datePublished * 1000] is a valid date
    (its ISO rendering is logged, which throws for an invalid date),
    and the transcript file holds an array of well-formed entries; the
    item is then the episode document with those entries.  In
    particular an episode without [datePublished] is accepted by
    [validateEpisodeData] but never passed on. *)
Theorem validateFiles_accepts
        (episodeFile transcriptFile : option node) :
  (forall item : Index.ValidatedData,
      validate_pair episodeFile transcriptFile = Some item
      <-> exists (episodeName transcriptName : string) (episodeData : json)
                 (entries : list json),
            episodeFile = Some (File episodeName (Document episodeData))
            /\ transcriptFile
               = Some (File transcriptName (Document (JArr entries)))
            /\ Index.isValid (Index.validateEpisodeData episodeData) = true
            /\ IndexFiles.valid_time
                 (Index.times
                    (IndexFiles.ToNumber (get episodeData "datePublished"))
                    1000)
               = true
            /\ Forall Documented.well_formed_entry entries
            /\ item = {| Index.episode := episodeData;
                         Index.transcript := Some entries |})
  /\ (forall (episodeName : string) (episodeData : json),
        episodeFile = Some (File episodeName (Document episodeData)) ->
        get episodeData "datePublished" = None ->
        validate_pair episodeFile transcriptFile = None).
Proof.
  split; [intros item; apply validate_pair_accepted|].
  intros episodeName episodeData Hfile Hdate.
  destruct (validate_pair episodeFile transcriptFile) as [item|] eqn:H;
    [|reflexivity].
  apply validate_pair_accepted in H
    as (n1 & n2 & data & entries & H1 & _ & _ & Hvalid & _).
  rewrite Hfile in H1. injection H1 as _ <-.
  rewrite Hdate in Hvalid. discriminate Hvalid.
Qed.

(** X25: what [validateFiles] accepts, [insertData] can read.  For an
    accepted item the [id] of the episode is a number, so that
    [String(episode.id)] gives the [externalId] without error; its
    [title] is a non-empty string; its [datePublished] gives a valid
    date for the column, or [null]; and every entry of its transcript gives a
    non-empty string for each of the four columns of
    [episode_timestamps] that are declared [notNull]. *)
Theorem accepted_items_can_be_inserted
        (episodeFile transcriptFile : option node)
        (item : Index.ValidatedData) :
  validate_pair episodeFile transcriptFile = Some item ->
  (exists n : number,
      get (Index.episode item) "id" = Some (JNum n)
      /\ ToString Number_toString (get (Index.episode item) "id")
         = Returned (Number_toString n))
  /\ (exists title : string,
        get (Index.episode item) "title" = Some (JStr title)
        /\ title <> "")
  /\ (Index.date_or_null (get (Index.episode item) "datePublished")
      = Index.SqlNull
      \/ exists ms : number,
           Index.date_or_null (get (Index.episode item) "datePublished")
           = Index.SqlDate ms
           /\ IndexFiles.valid_time ms = true)
  /\ exists entries : list json,
       Index.transcript item = Some entries
       /\ forall (episodeId : Z) (ts : json),
            ts ∈ entries ->
            IndexFiles.fills_required_columns episodeId ts.
Proof.
  intros H. apply validate_pair_accepted in H
    as (n1 & n2 & episodeData & entries & _ & _ & Hvalid & Hdate & Hall
        & ->).
  cbn [Index.episode Index.transcript].
  destruct (validateEpisodeData_valid episodeData Hvalid)
    as (_ & Hid & Htitle & Hpublished).
  split_and!.
  - destruct (get episodeData "id") as [[ | |n| | | ]|];
      try discriminate Hid.
    by exists n.
  - destruct (get episodeData "title") as [[ | | |title| | ]|];
      try discriminate Htitle.
    exists title. split; [done|]. intros ->. discriminate Htitle.
  - unfold Index.date_or_null.
    destruct (get episodeData "datePublished") as [[ |b|n|s| | ]|];
      try discriminate Hpublished; try (by left).
    + destruct b; [discriminate Hpublished | by left].
    + destruct (truthy (Some (JNum n))); [right | by left].
      by exists (Index.times n 1000).
    + revert Hpublished. cbn [Observed.number_or_falsy].
      destruct (truthy (Some (JStr s))); [discriminate | by left].
  - exists entries. split; [done|]. intros episodeId ts Hts.
    pose proof (proj1 (Forall_forall _ _) Hall ts Hts)
      as (sp & f & t & c & Hsp & Hsp' & Hf & Hf' & Ht & Ht' & Hc & Hc').
    assert (Hshape : forall x, Documented.valid_timestamp x -> x <> "").
    { intros x H ->. apply timestamp_ok_valid in H. discriminate H. }
    intros name Hname. unfold Index.timestamp_values.
    repeat (apply elem_of_cons in Hname as [->|Hname]);
      [| | | |by apply elem_of_nil in Hname];
      cbn [Stored.column String.eqb Ascii.eqb Bool.eqb];
      rewrite ?Hsp, ?Hf, ?Ht, ?Hc; cbn [Index.plain]; eauto.
Qed.
End Acceptance.

Lemma accepted_items_can_be_inserted_witness :
  let episodeFile :=
    Some (File "7.json"
               (Document (JObj [ ("id", JNum (Finite 7));
                                 ("title", JStr "Sleep");
                                 ("datePublished",
                                  JNum (Finite 1700000000)) ]))) in
  let transcriptFile :=
    Some (File "7_transcript_labeled.json"
               (Document
                  (JArr [ JObj [ ("speaker", JStr "Speaker 0");
                                 ("timestampFrom", JStr "00:00");
                                 ("timestampTo", JStr "00:07");
                                 ("content", JStr "Welcome back.");
                                 ("labeledSpeaker", JStr "Luke Leaman") ] ])))
  in
  exists item : Index.ValidatedData,
    IndexFiles.validate_pair Observed.integer_toString (fun _ => "")
                             episodeFile transcriptFile
    = Some item
    /\ exists title : string,
         get (Index.episode item) "title" = Some (JStr title)
         /\ title <> "".
Proof.
  intros episodeFile transcriptFile. eexists.
  assert (H : IndexFiles.validate_pair Observed.integer_toString (fun _ => "")
                                       episodeFile transcriptFile
              = Some _) by (vm_compute; reflexivity).
  split; [exact H|].
  exact (proj1 (proj2 (accepted_items_can_be_inserted
                         Observed.integer_toString (fun _ => "")
                         episodeFile transcriptFile _ H))).
Defined.

(** ** The question-and-answer stage *)

Lemma qa_entry_sound (dataDir : string) (root : list node) (n : node) :
  forall (dir : string) (files : list node) (r : LabelSpeakers.found),
    Observed.reachable dataDir root dir files ->
    n ∈ files ->
    QAPairs.findTranscript_entry dir files n = Some r ->
    exists (files' : list node) (c : content),
      Observed.reachable dataDir root (LabelSpeakers.directory r) files'
      /\ File (LabelSpeakers.transcriptFile r) c ∈ files'
      /\ QAPairs.pending files' (LabelSpeakers.transcriptFile r) = true.
Proof.
  induction n as [name c|name sub IH] using node_nested_ind;
    intros dir files r Hreach Hin; cbn [QAPairs.findTranscript_entry].
  - destruct (endsWith name "_transcript_labeled.json") eqn:Hsuffix;
      [|discriminate].
    destruct (negb (existsSync files _)) eqn:Hqa; [|discriminate].
    intros [= <-]. exists files, c. cbn.
    split; [done|]. split; [done|].
    unfold QAPairs.pending. by rewrite Hsuffix, Hqa.
  - intros H. apply first_some_Some in H as (m & Hm & Hfound).
    rewrite Forall_forall in IH.
    apply (IH m Hm (path_join dir name) sub r); [|done|done].
    by apply (Observed.reachable_sub dataDir root dir files name sub).
Qed.

Lemma qa_complete (dataDir : string) (root : list node)
      (dir : string) (files : list node) (file : string) (c : content) :
  Observed.reachable dataDir root dir files ->
  File file c ∈ files ->
  QAPairs.pending files file = true ->
  QAPairs.findLabeledTranscriptFile dataDir root <> None.
Proof.
  intros Hreach Hin Hpending.
  assert (Hhere : first_some (QAPairs.findTranscript_entry dir files) files
                  <> None).
  { intros Hnone.
    pose proof (first_some_None _ _ Hnone _ Hin) as H.
    cbn [QAPairs.findTranscript_entry] in H.
    unfold QAPairs.pending in Hpending.
    apply andb_true_iff in Hpending as [Hsuffix Hqa].
    rewrite Hsuffix, Hqa in H. discriminate H. }
  clear Hin Hpending. unfold QAPairs.findLabeledTranscriptFile.
  induction Hreach as [|dir files name sub Hreach IH Hsub]; [done|].
  apply IH. intros Hnone.
  pose proof (first_some_None _ _ Hnone _ Hsub) as H.
  cbn [QAPairs.findTranscript_entry] in H. by apply Hhere.
Qed.

(** X26: the search of the question-and-answer stage answers for the
    whole tree.  When it returns a file, that file is a labeled
    transcript in a directory of the tree for which the
    question-and-answer name the search computes is absent; when it
    returns [null], the tree holds no such labeled transcript. *)
Theorem findLabeledTranscriptFile_answers_for_the_tree
        (dataDir : string) (root : list node) :
  match QAPairs.findLabeledTranscriptFile dataDir root with
  | Some r =>
      exists (files : list node) (c : content),
        Observed.reachable dataDir root (LabelSpeakers.directory r) files
        /\ File (LabelSpeakers.transcriptFile r) c ∈ files
        /\ QAPairs.pending files (LabelSpeakers.transcriptFile r) = true
  | None =>
      forall (dir : string) (files : list node) (file : string) (c : content),
        Observed.reachable dataDir root dir files ->
        File file c ∈ files ->
        QAPairs.pending files file = false
  end.
Proof.
  destruct (QAPairs.findLabeledTranscriptFile dataDir root) as [r|] eqn:H.
  - unfold QAPairs.findLabeledTranscriptFile in H.
    apply first_some_Some in H as (n & Hn & Hfound).
    apply (qa_entry_sound dataDir root n dataDir root r);
      [constructor | done | done].
  - intros dir files file c Hreach Hin.
    destruct (QAPairs.pending files file) eqn:E; [|reflexivity].
    by destruct (qa_complete dataDir root dir files file c).
Qed.

(** X27: saving the question-and-answer pairs settles the labeled
    transcript.  For a labeled transcript named
    [stem_transcript_labeled.json] (no underscore in the stem),
    [saveQAPairs] writes [stem_qa_pairs.json], the name the search
    looks for; every other entry of the directory is as it was, and
    the search passes over that transcript afterwards. *)
Theorem saveQAPairs_settles_the_transcript
        (files files' : list node) (stem : string)
        (qaPairs : list QAPairs.QAPair) :
  Forall (fun a => a <> "_"%char) (list_ascii_of_string stem) ->
  QAPairs.saveQAPairs files (stem +:+ "_transcript_labeled.json") qaPairs
  = Returned files' ->
  QAPairs.qaPairsName (stem +:+ "_transcript_labeled.json")
  = stem +:+ "_qa_pairs.json"
  /\ entry files' (stem +:+ "_qa_pairs.json")
     = Some (File (stem +:+ "_qa_pairs.json")
                  (Document (JArr (map QAPairs.qa_json qaPairs))))
  /\ (forall other : string,
        other <> stem +:+ "_qa_pairs.json" ->
        entry files' other = entry files other)
  /\ (forall (dir : string) (c : content),
        QAPairs.findTranscript_entry
          dir files' (File (stem +:+ "_transcript_labeled.json") c)
        = None).
Proof.
  intros Hstem. unfold QAPairs.saveQAPairs.
  assert (Hname : QAPairs.qaPairsName (stem +:+ "_transcript_labeled.json")
                  = stem +:+ "_qa_pairs.json").
  { unfold QAPairs.qaPairsName.
    rewrite (replace_underscore_suffix stem "transcript_labeled.json" "")
      by done.
    by rewrite append_nil_r. }
  rewrite Hname. intros Hsave.
  pose proof (writeFileSync_entry _ _ _ _ Hsave) as Hentry.
  split; [done|]. split; [exact Hentry|]. split.
  - intros other Hne. by apply (writeFileSync_other _ _ _ _ _ Hsave).
  - intros dir c. cbn [QAPairs.findTranscript_entry].
    rewrite (replace_underscore_suffix stem "transcript_labeled.json")
      by done.
    unfold existsSync. rewrite Hentry.
    by destruct (endsWith _ _).
Qed.

Lemma saveQAPairs_settles_the_transcript_witness :
  let files := [ File "7_transcript_labeled.json" (Document (JArr [])) ] in
  exists files' : list node,
    QAPairs.saveQAPairs files "7_transcript_labeled.json" []
    = Returned files'
    /\ QAPairs.findTranscript_entry
         "data/show" files'
         (File "7_transcript_labeled.json" (Document (JArr [])))
       = None.
Proof.
  intros files. eexists. split; [vm_compute; reflexivity|].
  refine (proj2 (proj2 (proj2 (saveQAPairs_settles_the_transcript
                                 files _ "7" [] _ _))) _ _).
  - cbn. repeat constructor; discriminate.
  - vm_compute. reflexivity.
Defined.

(** ** The other download scripts *)

Lemma replace_directory_twice (data : list node) (name : string)
      (files files' : list node) :
  Download.replace_directory (Download.replace_directory data name files)
                             name files'
  = Download.replace_directory data name files'.
Proof.
  induction data as [|n rest IH]; cbn [Download.replace_directory].
  - cbn [node_name]. by rewrite String.eqb_refl.
  - destruct (String.eqb (node_name n) name) eqn:E;
      cbn [Download.replace_directory node_name].
    + by rewrite String.eqb_refl.
    + by rewrite E, IH.
Qed.

Lemma store_directory_twice (data : list node) (name : string)
      (files files' : list node) :
  Download.store_directory (Download.store_directory data name files)
                           name files'
  = Download.store_directory data name files'.
Proof.
  unfold Download.store_directory.
  destruct (String.eqb name ""); [done|]. apply replace_directory_twice.
Qed.

Section MetadataOnlyScript.
Variable Number_toString : number -> string.

Let saveMetadata := MetadataOnly.saveMetadata Number_toString.
Let metadataName := Download.metadataName Number_toString.

(** X28: [saveMetadata] writes the metadata of an episode once.  It
    never throws; when the podcast directory already holds the
    metadata file the data folder is left exactly as it is, whatever
    the file holds; a file it writes holds the episode; and calling it
    a second time for the same episode changes nothing any more. *)
Theorem saveMetadata_writes_once
        (data : list node) (episode : Download.PodcastEpisode) :
  let directory :=
    DownloadMetadata.sanitizedTitle (Download.feedTitle episode) in
  (forall files : list node,
      Download.open_directory data directory = Some files ->
      existsSync files (metadataName episode) = true ->
      saveMetadata data episode = data)
  /\ (forall files : list node,
        Download.open_directory data directory = Some files ->
        existsSync files (metadataName episode) = false ->
        Download.writable files (metadataName episode) ->
        exists files' : list node,
          Download.open_directory (saveMetadata data episode) directory
          = Some files'
          /\ entry files' (metadataName episode)
             = Some (File (metadataName episode)
                          (Document (Download.episode_json episode)))
          /\ forall other : string,
               other <> metadataName episode ->
               entry files' other = entry files other)
  /\ saveMetadata (saveMetadata data episode) episode
     = saveMetadata data episode.
Proof.
  intros directory.
  assert (Hkeep : forall data files,
             Download.open_directory data directory = Some files ->
             existsSync files (metadataName episode) = true ->
             saveMetadata data episode = data).
  { intros data0 files Hopen Hm.
    unfold saveMetadata, MetadataOnly.saveMetadata.
    fold directory metadataName. rewrite Hopen, Hm.
    apply (store_directory_same data0 directory files Hopen).
    by apply (existsSync_nonempty files (metadataName episode)). }
  split; [apply Hkeep|]. split.
  - intros files Hopen Hm Hw.
    unfold saveMetadata, MetadataOnly.saveMetadata.
    fold directory metadataName. rewrite Hopen, Hm.
    destruct (writeFileSync_returns files (metadataName episode)
                (Document (Download.episode_json episode)) Hw)
      as [files' Hwrite].
    rewrite Hwrite. exists files'.
    split; [apply open_store_directory|].
    split; [by apply (writeFileSync_entry files)|].
    intros other Hne. by apply (writeFileSync_other _ _ _ _ _ Hwrite).
  - assert (Hrun : saveMetadata data episode
                   = match Download.open_directory data directory with
                     | None => data
                     | Some files =>
                         if existsSync files (metadataName episode) then
                           Download.store_directory data directory files
                         else
                           match
                             Transcribe.writeFileSync
                               files (metadataName episode)
                               (Document (Download.episode_json episode))
                           with
                           | Returned files' =>
                               Download.store_directory data directory files'
                           | Thrown _ =>
                               Download.store_directory data directory files
                           end
                     end) by reflexivity.
    destruct (Download.open_directory data directory) as [files|] eqn:Hopen.
    2:{ by rewrite !Hrun. }
    destruct (existsSync files (metadataName episode)) eqn:Hm.
    { by rewrite !(Hkeep data files Hopen Hm). }
    destruct (Transcribe.writeFileSync files _ _) as [files'|] eqn:Hwrite;
      rewrite Hrun.
    + apply (Hkeep _ files'); [apply open_store_directory|].
      unfold existsSync. by rewrite (writeFileSync_entry _ _ _ _ Hwrite).
    + unfold saveMetadata, MetadataOnly.saveMetadata.
      fold directory metadataName.
      rewrite open_store_directory, Hm, Hwrite.
      apply store_directory_twice.
Qed.
End MetadataOnlyScript.

Section DownloadByTitleScript.
Variable fetch : string -> Download.fetched.

Let downloadEpisode := DownloadByTitle.downloadEpisode fetch.

(** X29: the script that stores audio under the episode title takes
    two episodes for one when their titles differ only in case or in
    characters other than letters and digits.  Once the first of two
    such episodes of a feed is downloaded, the call for the second
    finds the file of the first, fetches nothing and changes nothing:
    the audio of the second episode is never stored. *)
Theorem downloadEpisode_by_title_confuses_episodes
        (data : list node) (first second : Download.PodcastEpisode)
        (files : list node) (bytes : string) :
  let directory :=
    DownloadMetadata.sanitizedTitle (Download.feedTitle first) in
  DownloadMetadata.sanitizedTitle (Download.feedTitle second) = directory ->
  DownloadMetadata.sanitizedTitle (Download.title second)
  = DownloadMetadata.sanitizedTitle (Download.title first) ->
  Download.open_directory data directory = Some files ->
  existsSync files (DownloadByTitle.audioName first) = false ->
  fetch (Download.enclosureUrl first) = Download.Body bytes ->
  exists files' : list node,
    downloadEpisode data first
    = (Download.store_directory data directory files',
       [Download.enclosureUrl first])
    /\ entry files' (DownloadByTitle.audioName first)
       = Some (File (DownloadByTitle.audioName first) (Text bytes))
    /\ downloadEpisode (Download.store_directory data directory files') second
       = (Download.store_directory data directory files', []).
Proof.
  intros directory Hfeed Htitle Hopen Hmissing Hfetch.
  assert (Hw : Download.writable files (DownloadByTitle.audioName first)).
  { intros sub H. unfold existsSync in Hmissing. by rewrite H in Hmissing. }
  destruct (writeFileSync_returns files (DownloadByTitle.audioName first)
              (Text bytes) Hw) as [files' Hwrite].
  pose proof (writeFileSync_entry _ _ _ _ Hwrite) as Hentry.
  exists files'. split.
  { unfold downloadEpisode, DownloadByTitle.downloadEpisode.
    fold directory. by rewrite Hopen, Hmissing, Hfetch, Hwrite. }
  split; [exact Hentry|].
  unfold downloadEpisode, DownloadByTitle.downloadEpisode.
  rewrite Hfeed, open_store_directory.
  assert (Hname : DownloadByTitle.audioName second
                  = DownloadByTitle.audioName first).
  { unfold DownloadByTitle.audioName. by rewrite Htitle. }
  rewrite Hname. unfold existsSync. rewrite Hentry.
  by rewrite store_directory_twice.
Qed.
End DownloadByTitleScript.

Lemma downloadEpisode_by_title_confuses_episodes_witness :
  let episode title url :=
    {| Download.id := Finite 7; Download.title := title;
       Download.description := ""; Download.datePublished := Finite 1700000000;
       Download.duration := Finite 3600; Download.link := "https://a/7";
       Download.enclosureUrl := url;
       Download.feedTitle := "Muscle Nerds"; Download.feedId := Finite 3 |} in
  let first := episode "Q&A: sleep" "https://a/7.mp3" in
  let second := episode "Q+A, Sleep" "https://a/8.mp3" in
  let fetch := fun _ : string => Download.Body "ID3" in
  (DownloadByTitle.downloadEpisode fetch [] first).2 = ["https://a/7.mp3"]
  /\ (DownloadByTitle.downloadEpisode
        fetch (DownloadByTitle.downloadEpisode fetch [] first).1 second).2
     = [].
Proof.
  intros episode first second fetch.
  destruct (downloadEpisode_by_title_confuses_episodes
              fetch [] first second [] "ID3")
    as (files' & Hfirst & _ & Hsecond); try reflexivity.
  rewrite Hfirst. cbn [fst snd]. split; [reflexivity|]. by rewrite Hsecond.
Defined.
